(** * The UCS processor of the VSM SDK: connection multiplexer and router

    A shallow embedding of [src/src/cucs_processor.cpp]: the byte-level
    frame decoder and encoder, the per-connection session state, the
    handshake with primary selection, the router, the keep-alive timer and
    the teardown procedure, followed by the properties checked against it.

    The processor runs on one processing context, so every handler is a
    function from the processor's state to its next state.  What a handler
    does to its collaborators (streams, devices, the transport detector,
    the log) is appended to a trace kept in the state. *)

From Stdlib Require Import ZArith List Bool Lia.
From stdpp Require Import base option list gmap.

Local Open Scope Z_scope.

(** ** Machine integers *)

(** Width of [int], the type in which [(byte & 0x7f) << shift] is computed,
    and of [size_t], the type of [message_size] (printed with [%zu]). *)
Definition INT_BITS : Z := 32.
Definition SIZE_BITS : Z := 64.
Definition INT_MAX : Z := 2 ^ (INT_BITS - 1) - 1.

(** Two's complement value of the low [INT_BITS] bits. *)
Definition to_int (z : Z) : Z :=
  (z + 2 ^ (INT_BITS - 1)) mod 2 ^ INT_BITS - 2 ^ (INT_BITS - 1).

(** Conversion of an [int] to [size_t]. *)
Definition to_size_t (z : Z) : Z := z mod 2 ^ SIZE_BITS.

(** [v << s] on [int].  The language leaves the shift undefined when the
    count is negative or not less than the width of the left operand. *)
Definition shift_left_int (v s : Z) : option Z :=
  if (0 <=? s) && (s <? INT_BITS) then Some (to_int (Z.shiftl v s)) else None.

(** ** Association lists in iteration order

    [ucs_connections] and [pending_registrations] are walked by loops that
    stop at the first match, so they are kept as lists of key and value in
    iteration order.  Keys are unique, as in the maps of the source.  Where
    a map leaves its order of iteration open, a list stands for one such
    order, and what is proved for every list holds for every order. *)
Module Assoc.
Section Assoc.
Context {V : Type}.

Fixpoint find (k : Z) (l : list (Z * V)) : option V :=
  match l with
  | [] => None
  | (k', v) :: l' => if k' =? k then Some v else find k l'
  end.

(** [emplace] and [insert] of the standard maps: no effect on a key
    that is present. *)
Definition emplace (k : Z) (v : V) (l : list (Z * V)) : list (Z * V) :=
  match find k l with
  | Some _ => l
  | None => l ++ [(k, v)]
  end.

Fixpoint erase (k : Z) (l : list (Z * V)) : list (Z * V) :=
  match l with
  | [] => []
  | (k', v) :: l' => if k' =? k then l' else (k', v) :: erase k l'
  end.

(** Assignment through the reference a [find] returned. *)
Fixpoint replace (k : Z) (v : V) (l : list (Z * V)) : list (Z * V) :=
  match l with
  | [] => []
  | (k', v') :: l' =>
      if k' =? k then (k', v) :: l' else (k', v') :: replace k v l'
  end.

(** [emplace], then assignment to the entry when the key was present. *)
Definition put (k : Z) (v : V) (l : list (Z * V)) : list (Z * V) :=
  match find k l with
  | Some _ => replace k v l
  | None => l ++ [(k, v)]
  end.

Definition keys (l : list (Z * V)) : list Z := map fst l.
End Assoc.
End Assoc.

(** ** Messages

    The protocol-buffer schema is consumed through accessors only.  A
    message is a record of its optional fields; [None] is an unset field
    and the accessor of an unset scalar returns 0. *)

Inductive Peer_type := PEER_TYPE_SERVER | PEER_TYPE_VSM | PEER_TYPE_OTHER (n : Z).

Inductive Status_code :=
  | STATUS_OK
  | STATUS_FAILED
  | STATUS_INVALID_SESSION_ID
  | STATUS_IN_PROGRESS
  | STATUS_OTHER (n : Z).

Inductive Meta_value := META_VALUE_NA | META_VALUE_OTHER (n : Z).

#[global] Instance Meta_value_eq_dec : EqDecision Meta_value.
Proof. solve_decision. Defined.

Record Field_value := {
  meta_value : option Meta_value;
  plain_value : Z
}.

Record Telemetry_field := {
  field_id : Z;
  value : Field_value
}.

Record Command_availability := {
  command_id : Z;
  availability : Z
}.

Record Device_status := {
  telemetry_fields : list Telemetry_field;
  command_availability : list Command_availability
}.

Record Device_response := {
  code : Status_code;
  progress : Z;
  status : Z
}.

Record Register_peer := {
  peer_id : Z;
  peer_type : option Peer_type;
  name : Z;
  version_major : option Z;
  version_minor : option Z;
  version_build : option Z
}.

Record Vsm_message := {
  device_id : option Z;
  message_id : option Z;
  response_required : option bool;
  register_peer : option Register_peer;
  register_device : option Z;
  unregister_device : option unit;
  device_status : option Device_status;
  device_response : option Device_response
}.

Definition empty_message : Vsm_message :=
  {| device_id := None; message_id := None; response_required := None;
     register_peer := None; register_device := None;
     unregister_device := None; device_status := None;
     device_response := None |}.

Definition get_device_id (m : Vsm_message) : Z := default 0 (device_id m).
Definition get_message_id (m : Vsm_message) : Z := default 0 (message_id m).

Definition set_device_id (d : Z) (m : Vsm_message) : Vsm_message :=
  {| device_id := Some d; message_id := message_id m;
     response_required := response_required m;
     register_peer := register_peer m; register_device := register_device m;
     unregister_device := unregister_device m;
     device_status := device_status m; device_response := device_response m |}.

Definition set_message_id (i : Z) (m : Vsm_message) : Vsm_message :=
  {| device_id := device_id m; message_id := Some i;
     response_required := response_required m;
     register_peer := register_peer m; register_device := register_device m;
     unregister_device := unregister_device m;
     device_status := device_status m; device_response := device_response m |}.

Definition set_response_required (b : bool) (m : Vsm_message) : Vsm_message :=
  {| device_id := device_id m; message_id := message_id m;
     response_required := Some b;
     register_peer := register_peer m; register_device := register_device m;
     unregister_device := unregister_device m;
     device_status := device_status m; device_response := device_response m |}.

Definition set_register_device (r : Z) (m : Vsm_message) : Vsm_message :=
  {| device_id := device_id m; message_id := message_id m;
     response_required := response_required m;
     register_peer := register_peer m; register_device := Some r;
     unregister_device := unregister_device m;
     device_status := device_status m; device_response := device_response m |}.

Definition set_device_response (c : Status_code) (m : Vsm_message) : Vsm_message :=
  {| device_id := device_id m; message_id := message_id m;
     response_required := response_required m;
     register_peer := register_peer m; register_device := register_device m;
     unregister_device := unregister_device m;
     device_status := device_status m;
     device_response := Some {| code := c; progress := 0; status := 0 |} |}.

(** ** Connections, devices and the processor *)

Record Socket_address := {
  Get_as_string : Z;
  Is_loopback_address : bool
}.

(** The framing fields of a connection. *)
Record Framing := {
  to_read : Z;
  message_size : Z;
  reading_header : bool;
  shift : Z
}.

(** Modelled from the spec: the declaration of [Server_context] is not in
    the sources.  The fields are the ones the code reads and writes; the
    values a new context starts with are those of the data model: header
    state with [message_size = 0], [shift = 0] and [to_read = 1], no peer
    id, not primary, compatible, nothing pending, nothing registered. *)
Record Server_context := {
  stream_id : Z;
  address : Socket_address;
  ucs_id : option Z;
  framing : Framing;
  pending_registrations : list (Z * Z);
  registered_devices : gset Z;
  primary : bool;
  last_message_time : Z;
  is_compatible : bool
}.

Definition initial_framing : Framing :=
  {| to_read := 1; message_size := 0; reading_header := true; shift := 0 |}.

Definition new_Server_context (sid : Z) (addr : Socket_address) (now : Z)
  : Server_context :=
  {| stream_id := sid; address := addr; ucs_id := None;
     framing := initial_framing; pending_registrations := [];
     registered_devices := ∅; primary := false;
     last_message_time := now; is_compatible := true |}.

Definition set_ucs_id (u : option Z) (c : Server_context) : Server_context :=
  {| stream_id := stream_id c; address := address c; ucs_id := u;
     framing := framing c; pending_registrations := pending_registrations c;
     registered_devices := registered_devices c; primary := primary c;
     last_message_time := last_message_time c;
     is_compatible := is_compatible c |}.

Definition set_framing (f : Framing) (c : Server_context) : Server_context :=
  {| stream_id := stream_id c; address := address c; ucs_id := ucs_id c;
     framing := f; pending_registrations := pending_registrations c;
     registered_devices := registered_devices c; primary := primary c;
     last_message_time := last_message_time c;
     is_compatible := is_compatible c |}.

Definition set_pending_registrations (p : list (Z * Z)) (c : Server_context)
  : Server_context :=
  {| stream_id := stream_id c; address := address c; ucs_id := ucs_id c;
     framing := framing c; pending_registrations := p;
     registered_devices := registered_devices c; primary := primary c;
     last_message_time := last_message_time c;
     is_compatible := is_compatible c |}.

Definition set_registered_devices (r : gset Z) (c : Server_context)
  : Server_context :=
  {| stream_id := stream_id c; address := address c; ucs_id := ucs_id c;
     framing := framing c; pending_registrations := pending_registrations c;
     registered_devices := r; primary := primary c;
     last_message_time := last_message_time c;
     is_compatible := is_compatible c |}.

Definition set_primary (b : bool) (c : Server_context) : Server_context :=
  {| stream_id := stream_id c; address := address c; ucs_id := ucs_id c;
     framing := framing c; pending_registrations := pending_registrations c;
     registered_devices := registered_devices c; primary := b;
     last_message_time := last_message_time c;
     is_compatible := is_compatible c |}.

Definition set_last_message_time (t : Z) (c : Server_context) : Server_context :=
  {| stream_id := stream_id c; address := address c; ucs_id := ucs_id c;
     framing := framing c; pending_registrations := pending_registrations c;
     registered_devices := registered_devices c; primary := primary c;
     last_message_time := t; is_compatible := is_compatible c |}.

Definition set_is_compatible (b : bool) (c : Server_context) : Server_context :=
  {| stream_id := stream_id c; address := address c; ucs_id := ucs_id c;
     framing := framing c; pending_registrations := pending_registrations c;
     registered_devices := registered_devices c; primary := primary c;
     last_message_time := last_message_time c; is_compatible := b |}.

(** A device as the processor sees it: its session id and what it writes
    into the registration message it is handed. *)
Record Device := {
  Get_session_id : Z;
  Register : Vsm_message -> Vsm_message
}.

Record Vehicle_context := {
  vehicle : Device;
  registration_message : Vsm_message;
  telemetry_cache : list (Z * Telemetry_field);
  availability_cache : list (Z * Command_availability)
}.

(** What a device is told about one connection it is registered on. *)
Record Ucs_info := {
  info_ucs_id : Z;
  info_address : Socket_address;
  info_primary : bool;
  info_last_message_time : Z
}.

Inductive Log_line :=
  | LOG_timed_out
  | LOG_message_too_long (message_size : Z)
  | LOG_parse_failed
  | LOG_registered (device ucs : Z)
  | LOG_registration_in_progress (device ucs : Z)
  | LOG_registration_failed (device ucs : Z) (code : Status_code)
  | LOG_switched_primary (ucs from to : Z)
  | LOG_another_connection (ucs : Z)
  | LOG_new_ucs (ucs : Z)
  | LOG_incompatible (ucs : Z)
  | LOG_invalid_peer_type
  | LOG_unregistered_peer_dropped (device : Z)
  | LOG_must_register_peer
  | LOG_closing (ucs : Z)
  | LOG_new_primary (ucs : Z) (stream : Z)
  | LOG_unknown_device (device : Z).

(** The calls the processor makes on its collaborators. *)
Inductive Event :=
  | Incoming_stream_close
  | Stream_close (stream : Z)
  | Stream_read (stream : Z) (size : Z)
  | Stream_write (stream : Z) (message : Vsm_message) (user_data : list Z)
  | Activate (on : bool)
  | Handle_ucs_info (device : Z) (ucs_data : list Ucs_info)
  | Device_on_ucs_message (device : Z) (message : Vsm_message)
      (completion : option (Z * Vsm_message))
  | Log (line : Log_line).

Record Cucs_processor := {
  ucs_connections : list (Z * Server_context);
  vehicles : list (Z * Vehicle_context);
  ucs_id_counter : Z;
  keep_alive_timeout : Z;
  transport_detector_on_when_diconnected : bool;
  trace : list Event
}.

Inductive Io_result := Io_OK | Io_TIMED_OUT | Io_CANCELED | Io_CLOSED | Io_OTHER_FAILURE.

Inductive Exception_kind :=
  | Exception
  | Invalid_param_exception
  | Internal_error_exception.

(** How a handler ends: it returns, it throws (the state is the one at the
    throw), or it evaluates an expression the language gives no meaning. *)
Inductive Outcome :=
  | Returned (s : Cucs_processor)
  | Thrown (e : Exception_kind) (s : Cucs_processor)
  | Undefined_behaviour.

(** Constants and collaborators declared outside the sources at hand: the
    compile-time constants of the class declaration, the identity of this
    VSM, and the protocol-buffer codec of [Vsm_message]. *)
Class Platform := {
  PROTO_MAX_MESSAGE_LEN : Z;
  REGISTER_PEER_TIMEOUT : Z;
  SUPPORTED_UCS_VERSION_MAJOR : Z;
  SUPPORTED_UCS_VERSION_MINOR : Z;
  SDK_VERSION_MAJOR : Z;
  SDK_VERSION_MINOR : Z;
  SDK_VERSION_BUILD : Z;
  Get_application_instance_id : Z;
  Get_vsm_name : Z;
  SerializeToArray : Vsm_message -> list Z;
  ParseFromArray : list Z -> option Vsm_message
}.

Definition has {A : Type} (o : option A) : bool :=
  match o with Some _ => true | None => false end.

Definition emit (e : Event) (s : Cucs_processor) : Cucs_processor :=
  {| ucs_connections := ucs_connections s; vehicles := vehicles s;
     ucs_id_counter := ucs_id_counter s;
     keep_alive_timeout := keep_alive_timeout s;
     transport_detector_on_when_diconnected :=
       transport_detector_on_when_diconnected s;
     trace := trace s ++ [e] |}.

Definition set_ucs_connections (l : list (Z * Server_context))
  (s : Cucs_processor) : Cucs_processor :=
  {| ucs_connections := l; vehicles := vehicles s;
     ucs_id_counter := ucs_id_counter s;
     keep_alive_timeout := keep_alive_timeout s;
     transport_detector_on_when_diconnected :=
       transport_detector_on_when_diconnected s;
     trace := trace s |}.

Definition set_vehicles (l : list (Z * Vehicle_context))
  (s : Cucs_processor) : Cucs_processor :=
  {| ucs_connections := ucs_connections s; vehicles := l;
     ucs_id_counter := ucs_id_counter s;
     keep_alive_timeout := keep_alive_timeout s;
     transport_detector_on_when_diconnected :=
       transport_detector_on_when_diconnected s;
     trace := trace s |}.

(** Write through the reference to a connection held in the map. *)
Definition store (sid : Z) (ctx : Server_context) (s : Cucs_processor)
  : Cucs_processor :=
  set_ucs_connections (Assoc.replace sid ctx (ucs_connections s)) s.

(** Modelled from the spec: [Get_next_id] is declared outside the sources.
    Identifiers are locally unique and monotonically increasing; the counter
    starts at 1, so 0 is never handed out. *)
Definition Get_next_id (s : Cucs_processor) : Z * Cucs_processor :=
  (ucs_id_counter s,
   {| ucs_connections := ucs_connections s; vehicles := vehicles s;
      ucs_id_counter := ucs_id_counter s + 1;
      keep_alive_timeout := keep_alive_timeout s;
      transport_detector_on_when_diconnected :=
        transport_detector_on_when_diconnected s;
      trace := trace s |}).

(** ** Frame codec *)

(** The do-while loop of [Send_ucs_message] that writes the length prefix.
    [tmp_len] is an [int], so the loop body runs at most [INT_BITS] times. *)
Fixpoint encode_header_loop (fuel : nat) (tmp_len : Z) : list Z :=
  match fuel with
  | O => []
  | S fuel' =>
      let byte := Z.land tmp_len 0x7f in
      let tmp_len := Z.shiftr tmp_len 7 in
      if tmp_len =? 0 then [byte]
      else Z.lor byte 0x80 :: encode_header_loop fuel' tmp_len
  end.

Definition encode_header (payload_len : Z) : list Z :=
  encode_header_loop (Z.to_nat INT_BITS) payload_len.

(** The buffer handed to [Write]: the prefix, then the serialized bytes. *)
Definition encode_user_data (payload : list Z) : list Z :=
  encode_header (Z.of_nat (length payload)) ++ payload.

Inductive Header_step :=
  | Header_undefined
  | Header_too_long (f : Framing)
  | Header_next (f : Framing).

Section Model.
Context `{Platform}.

(** The header branch of [Read_completed], on the one byte just read. *)
Definition Read_header (f : Framing) (byte : Z) : Header_step :=
  match shift_left_int (Z.land byte 0x7f) (shift f) with
  | None => Header_undefined
  | Some v =>
      let size := Z.lor (message_size f) (to_size_t v) in
      if PROTO_MAX_MESSAGE_LEN <? size then
        Header_too_long
          {| to_read := to_read f; message_size := size;
             reading_header := reading_header f; shift := shift f |}
      else if negb (Z.land byte 0x80 =? 0) then
        Header_next
          {| to_read := to_read f; message_size := size;
             reading_header := reading_header f; shift := shift f + 7 |}
      else if negb (size =? 0) then
        Header_next
          {| to_read := size; message_size := size;
             reading_header := false; shift := 0 |}
      else
        Header_next
          {| to_read := 1; message_size := size;
             reading_header := reading_header f; shift := 0 |}
  end.

(** The end of the body branch: wait for the next message header. *)
Definition wait_for_next_header (f : Framing) : Framing :=
  {| to_read := 1; message_size := 0; reading_header := true;
     shift := shift f |}.

Definition Schedule_next_read (sc : Server_context) (s : Cucs_processor)
  : Cucs_processor :=
  emit (Stream_read (stream_id sc) (to_read (framing sc))) s.

(** ** Router: sending on one connection *)

(** Key of the first pending registration, in iteration order, whose
    device is [d]. *)
Fixpoint first_pending_of (d : Z) (l : list (Z * Z)) : option Z :=
  match l with
  | [] => None
  | (k, v) :: l' => if v =? d then Some k else first_pending_of d l'
  end.

(** The loop over the pending registrations on [unregister_device]: it
    erases the first entry of the device and breaks. *)
Definition erase_first_pending (d : Z) (l : list (Z * Z)) : list (Z * Z) :=
  match first_pending_of d l with
  | Some k => Assoc.erase k l
  | None => l
  end.

(** The tail of [Send_ucs_message]: allocate a message id when a response
    is required and none is set, frame the message and write it. *)
Definition Send_ucs_message_write (sid : Z) (ctx : Server_context)
  (message : Vsm_message) (s : Cucs_processor)
  : Vsm_message * Cucs_processor :=
  let s := store sid ctx s in
  let '(message, s) :=
    if negb (has (message_id message))
       && bool_decide (response_required message = Some true)
    then let '(i, s) := Get_next_id s in (set_message_id i message, s)
    else (message, s) in
  let user_data := encode_user_data (SerializeToArray message) in
  (message, emit (Stream_write sid message user_data) s).

(** The message is passed by reference: the caller sees what the send
    changed in it, so it is returned next to the state. *)
Definition Send_ucs_message (sid : Z) (message : Vsm_message)
  (s : Cucs_processor) : Vsm_message * Cucs_processor :=
  match Assoc.find sid (ucs_connections s) with
  | None => (message, s)
  | Some ctx =>
      if negb (has (ucs_id ctx)) && negb (has (register_peer message)) then
        (message, emit (Log LOG_must_register_peer) s)
      else
        let message :=
          if negb (has (ucs_id ctx)) then set_device_id 0 message
          else message in
        if negb (is_compatible ctx) then (message, s)
        else if has (register_device message) then
          let message := set_response_required true message in
          let '(i, s) := Get_next_id s in
          let message := set_message_id i message in
          let ctx :=
            set_pending_registrations
              (Assoc.emplace (get_message_id message) (get_device_id message)
                 (pending_registrations ctx)) ctx in
          Send_ucs_message_write sid ctx message s
        else if negb (get_device_id message =? 0) then
          if bool_decide (get_device_id message ∈ registered_devices ctx) then
            if has (unregister_device message) then
              let ctx :=
                set_registered_devices
                  (registered_devices ctx ∖ {[get_device_id message]}) ctx in
              let ctx :=
                set_pending_registrations
                  (erase_first_pending (get_device_id message)
                     (pending_registrations ctx)) ctx in
              Send_ucs_message_write sid ctx message s
            else Send_ucs_message_write sid ctx message s
          else (message, s)
        else Send_ucs_message_write sid ctx message s
  end.

(** [message] was written on stream [sid] between [s] and [s'], and it is
    the only thing that happened. *)
Definition transmitted (sid : Z) (message : Vsm_message)
  (s s' : Cucs_processor) : Prop :=
  trace s' =
  trace s
  ++ [Stream_write sid message (encode_user_data (SerializeToArray message))].

Definition Send_ucs_message_ptr (sid : Z) (message : Vsm_message)
  (s : Cucs_processor) : Cucs_processor :=
  snd (Send_ucs_message sid message s).

(** The loop visits the connections in iteration order; a send changes
    neither the set of connections nor their [primary] flags. *)
Fixpoint Broadcast_loop (ks : list Z) (message : Vsm_message)
  (s : Cucs_processor) : Vsm_message * Cucs_processor :=
  match ks with
  | [] => (message, s)
  | k :: ks' =>
      match Assoc.find k (ucs_connections s) with
      | Some c =>
          if primary c then
            let '(message, s) := Send_ucs_message k message s in
            Broadcast_loop ks' message s
          else Broadcast_loop ks' message s
      | None => Broadcast_loop ks' message s
      end
  end.

Definition Broadcast_message_to_ucs (message : Vsm_message)
  (s : Cucs_processor) : Vsm_message * Cucs_processor :=
  Broadcast_loop (Assoc.keys (ucs_connections s)) message s.

(** ** Devices and their view of the connections *)

Definition Get_device (device : Z) (s : Cucs_processor) : option Device :=
  match Assoc.find device (vehicles s) with
  | Some v => Some (vehicle v)
  | None => None
  end.

(** The record a device is given about one connection. *)
Definition peer_info (c : Server_context) : Ucs_info :=
  {| info_ucs_id := default 0 (ucs_id c);
     info_address := address c;
     info_primary := primary c;
     info_last_message_time := last_message_time c |}.

Fixpoint ucs_data_of (dev_id : Z) (l : list (Z * Server_context))
  : list Ucs_info :=
  match l with
  | [] => []
  | (_, u) :: l' =>
      if bool_decide (dev_id ∈ registered_devices u) then
        {| info_ucs_id := default 0 (ucs_id u);
           info_address := address u;
           info_primary := primary u;
           info_last_message_time := last_message_time u |}
        :: ucs_data_of dev_id l'
      else ucs_data_of dev_id l'
  end.

Definition Notify_device_about_ucs_connections (dev_id : Z)
  (s : Cucs_processor) : Cucs_processor :=
  match Get_device dev_id s with
  | Some _ =>
      emit (Handle_ucs_info dev_id (ucs_data_of dev_id (ucs_connections s))) s
  | None => s
  end.

(** ** Teardown and primary failover *)

Definition emit_all (evs : list Event) (s : Cucs_processor) : Cucs_processor :=
  fold_left (fun s e => emit e s) evs s.

Definition same_ucs (peer : Z) (u : Server_context) : bool :=
  match ucs_id u with
  | Some x => x =? peer
  | None => false
  end.

(** First loop of the failover: every connection of the peer with a
    loopback address is made primary; the loop has no [break]. *)
Fixpoint Promote_loopback (peer : Z) (l : list (Z * Server_context))
  : list (Z * Server_context) * list Event * bool :=
  match l with
  | [] => ([], [], false)
  | (k, ucs) :: l' =>
      let '(l'', evs, loopback_found) := Promote_loopback peer l' in
      if same_ucs peer ucs && Is_loopback_address (address ucs) then
        ((k, set_primary true ucs) :: l'',
         Log (LOG_new_primary peer (Get_as_string (address ucs))) :: evs,
         true)
      else ((k, ucs) :: l'', evs, loopback_found)
  end.

(** Second loop: the first connection of the peer is made primary, and
    the loop stops there. *)
Fixpoint Promote_first (peer : Z) (l : list (Z * Server_context))
  : list (Z * Server_context) * list Event :=
  match l with
  | [] => ([], [])
  | (k, ucs) :: l' =>
      if same_ucs peer ucs then
        ((k, set_primary true ucs) :: l',
         [Log (LOG_new_primary peer (Get_as_string (address ucs)))])
      else
        let '(l'', evs) := Promote_first peer l' in
        ((k, ucs) :: l'', evs)
  end.

Definition Close_ucs_stream (sid : Z) (s : Cucs_processor) : Cucs_processor :=
  match Assoc.find sid (ucs_connections s) with
  | None => s
  | Some c =>
      let s :=
        match ucs_id c with
        | Some u => emit (Log (LOG_closing u)) s
        | None => s
        end in
      let s := emit (Stream_close sid) s in
      let was_primary := primary c in
      let peer := default 0 (ucs_id c) in
      let devices := registered_devices c in
      let s := set_ucs_connections (Assoc.erase sid (ucs_connections s)) s in
      let s :=
        if was_primary then
          let '(l, evs, loopback_found) :=
            Promote_loopback peer (ucs_connections s) in
          let s := emit_all evs (set_ucs_connections l s) in
          if negb loopback_found then
            let '(l, evs) := Promote_first peer (ucs_connections s) in
            emit_all evs (set_ucs_connections l s)
          else s
        else s in
      let s :=
        fold_left (fun s d => Notify_device_about_ucs_connections d s)
          (elements devices) s in
      if (length (ucs_connections s) =? 0)%nat
         && negb (transport_detector_on_when_diconnected s)
      then emit (Activate false) s
      else s
  end.

Definition Write_completed (result : Io_result) (sid : Z)
  (s : Cucs_processor) : Cucs_processor :=
  match result with
  | Io_OK => s
  | _ => Close_ucs_stream sid s
  end.

(** ** Inbound messages *)

Definition On_ucs_message (sid : Z) (message : Vsm_message)
  (s : Cucs_processor) : Cucs_processor :=
  let dev_id := get_device_id message in
  let dev := Get_device dev_id s in
  if bool_decide (response_required message = Some true) then
    let resp :=
      set_device_id dev_id
        (set_message_id (get_message_id message) empty_message) in
    match dev with
    | Some _ =>
        let resp := set_device_response STATUS_FAILED resp in
        emit (Device_on_ucs_message dev_id message (Some (sid, resp))) s
    | None =>
        if negb (dev_id =? 0) then
          let resp := set_device_response STATUS_INVALID_SESSION_ID resp in
          Send_ucs_message_ptr sid resp
            (emit (Log (LOG_unknown_device dev_id)) s)
        else
          Send_ucs_message_ptr sid (set_device_response STATUS_OK resp) s
    end
  else
    match dev with
    | Some _ => emit (Device_on_ucs_message dev_id message None) s
    | None =>
        if negb (dev_id =? 0) then emit (Log (LOG_unknown_device dev_id)) s
        else s
    end.

Definition update_connection (sid : Z)
  (f : Server_context -> Server_context) (s : Cucs_processor)
  : Cucs_processor :=
  match Assoc.find sid (ucs_connections s) with
  | Some c => store sid (f c) s
  | None => s
  end.

Definition set_registration_message (m : Vsm_message) (v : Vehicle_context)
  : Vehicle_context :=
  {| vehicle := vehicle v; registration_message := m;
     telemetry_cache := telemetry_cache v;
     availability_cache := availability_cache v |}.

(** Each stored registration message is passed by reference, so what the
    send writes into it stays in the vehicle table. *)
Fixpoint Send_vehicle_registrations_loop (sid : Z) (ks : list Z)
  (s : Cucs_processor) : Cucs_processor :=
  match ks with
  | [] => s
  | k :: ks' =>
      match Assoc.find k (vehicles s) with
      | Some v =>
          let '(m, s) := Send_ucs_message sid (registration_message v) s in
          let s :=
            set_vehicles
              (Assoc.replace k (set_registration_message m v) (vehicles s)) s in
          Send_vehicle_registrations_loop sid ks' s
      | None => Send_vehicle_registrations_loop sid ks' s
      end
  end.

Definition Send_vehicle_registrations (sid : Z) (s : Cucs_processor)
  : Cucs_processor :=
  Send_vehicle_registrations_loop sid (Assoc.keys (vehicles s)) s.

(** The duplicate scan of the handshake.  It returns the connections after
    the scan, the flag [dupe], whether the primary role was taken over, and
    the log lines written. *)
Fixpoint Duplicate_scan (new_peer : Z) (connection : Server_context)
  (l : list (Z * Server_context))
  : list (Z * Server_context) * bool * bool * list Event :=
  match l with
  | [] => ([], false, false, [])
  | (k, ucs) :: l' =>
      if same_ucs new_peer ucs then
        if primary ucs then
          if negb (Is_loopback_address (address ucs))
             || Is_loopback_address (address connection)
          then
            ((k, set_primary false ucs) :: l', true, true,
             [Log (LOG_switched_primary new_peer (stream_id ucs)
                     (stream_id connection))])
          else ((k, ucs) :: l', true, false, [])
        else
          let '(l'', _, switched, evs) :=
            Duplicate_scan new_peer connection l' in
          ((k, ucs) :: l'', true, switched, evs)
      else
        let '(l'', dupe, switched, evs) :=
          Duplicate_scan new_peer connection l' in
        ((k, ucs) :: l'', dupe, switched, evs)
  end.

(** A [register_peer] of an acceptable peer type arrived on a connection
    whose peer is still unknown. *)
Definition Register_peer_accepted (sid : Z) (connection : Server_context)
  (reg_peer : Register_peer) (s : Cucs_processor) : Cucs_processor :=
  let new_peer := peer_id reg_peer in
  let '(l, dupe, switched, evs) :=
    Duplicate_scan new_peer connection (ucs_connections s) in
  let s := emit_all evs (set_ucs_connections l s) in
  let s := if switched then update_connection sid (set_primary true) s else s in
  let ver_major := default 0 (version_major reg_peer) in
  let ver_minor := default 0 (version_minor reg_peer) in
  let s := update_connection sid (set_ucs_id (Some new_peer)) s in
  let s :=
    if dupe then emit (Log (LOG_another_connection new_peer)) s
    else
      emit (Activate true)
        (emit (Log (LOG_new_ucs new_peer))
           (update_connection sid (set_primary true) s)) in
  let s :=
    if (ver_major <? SUPPORTED_UCS_VERSION_MAJOR)
       || ((ver_major =? SUPPORTED_UCS_VERSION_MAJOR)
           && (ver_minor <? SUPPORTED_UCS_VERSION_MINOR))
    then
      emit (Log (LOG_incompatible new_peer))
        (update_connection sid (set_is_compatible false) s)
    else s in
  Send_vehicle_registrations (stream_id connection) s.

(** [!has_meta_value() || meta_value() != META_VALUE_NA] *)
Definition not_NA (e : Telemetry_field) : bool :=
  match meta_value (value e) with
  | None => true
  | Some META_VALUE_NA => false
  | Some (META_VALUE_OTHER _) => true
  end.

(** The [device_status] replayed to a peer that acknowledged a device. *)
Definition cached_status (device : Z) (v : Vehicle_context) : Vsm_message :=
  {| device_id := Some device; message_id := None; response_required := None;
     register_peer := None; register_device := None;
     unregister_device := None;
     device_status :=
       Some {| telemetry_fields :=
                 List.filter not_NA (map snd (telemetry_cache v));
               command_availability := map snd (availability_cache v) |};
     device_response := None |}.

(** A [device_response] whose message id is a pending registration of
    device [device] on connection [sid] of peer [ucs]. *)
Definition Registration_response (sid : Z) (connection : Server_context)
  (ucs device : Z) (vsm_msg : Vsm_message) (response : Device_response)
  (s : Cucs_processor) : Cucs_processor :=
  let erase_pending :=
    update_connection sid (fun c =>
      set_pending_registrations
        (Assoc.erase (get_message_id vsm_msg) (pending_registrations c)) c) in
  match code response with
  | STATUS_OK =>
      let s := emit (Log (LOG_registered device ucs)) s in
      let s :=
        match Assoc.find device (vehicles s) with
        | Some v =>
            let s :=
              update_connection sid (fun c =>
                set_registered_devices ({[device]} ∪ registered_devices c) c)
                s in
            let s := Notify_device_about_ucs_connections device s in
            Send_ucs_message_ptr (stream_id connection)
              (cached_status device v) s
        | None => s
        end in
      erase_pending s
  | STATUS_IN_PROGRESS =>
      emit (Log (LOG_registration_in_progress device ucs)) s
  | c => erase_pending (emit (Log (LOG_registration_failed device ucs c)) s)
  end.

(** [!has_peer_type() || peer_type() == PEER_TYPE_SERVER] *)
Definition acceptable_peer_type (t : option Peer_type) : bool :=
  match t with
  | None => true
  | Some PEER_TYPE_SERVER => true
  | Some _ => false
  end.

(** What [Read_completed] does with a parsed message.  The flag tells
    whether the handler goes on to wait for the next header ([true]) or
    has returned after closing the stream ([false]). *)
Definition Message_parsed (sid : Z) (connection : Server_context)
  (vsm_msg : Vsm_message) (now : Z) (s : Cucs_processor)
  : bool * Cucs_processor :=
  match ucs_id connection with
  | Some ucs =>
      let s := store sid (set_last_message_time now connection) s in
      match device_response vsm_msg with
      | Some response =>
          match Assoc.find (get_message_id vsm_msg)
                  (pending_registrations connection) with
          | None => (true, On_ucs_message sid vsm_msg s)
          | Some device =>
              (true,
               Registration_response sid connection ucs device vsm_msg
                 response s)
          end
      | None => (true, On_ucs_message sid vsm_msg s)
      end
  | None =>
      match register_peer vsm_msg with
      | Some reg_peer =>
          let connection := set_last_message_time now connection in
          let s := store sid connection s in
          if acceptable_peer_type (peer_type reg_peer)
          then (true, Register_peer_accepted sid connection reg_peer s)
          else
            (false, Close_ucs_stream sid (emit (Log LOG_invalid_peer_type) s))
      | None =>
          (true,
           emit (Log (LOG_unregistered_peer_dropped (get_device_id vsm_msg))) s)
      end
  end.

Definition Read_completed (buffer : list Z) (result : Io_result) (sid : Z)
  (now : Z) (s : Cucs_processor) : Outcome :=
  match Assoc.find sid (ucs_connections s) with
  | None => Returned s
  | Some connection =>
      match result with
      | Io_OK =>
          if reading_header (framing connection) then
            match buffer with
            | [byte] =>
                match Read_header (framing connection) byte with
                | Header_undefined => Undefined_behaviour
                | Header_too_long f =>
                    let s := store sid (set_framing f connection) s in
                    let s :=
                      emit (Log (LOG_message_too_long (message_size f))) s in
                    Returned (Close_ucs_stream sid s)
                | Header_next f =>
                    let connection := set_framing f connection in
                    Returned
                      (Schedule_next_read connection (store sid connection s))
                end
            | _ => Thrown Internal_error_exception s
            end
          else
            match ParseFromArray buffer with
            | Some vsm_msg =>
                let '(continue, s) :=
                  Message_parsed sid connection vsm_msg now s in
                if continue then
                  match Assoc.find sid (ucs_connections s) with
                  | Some connection =>
                      let connection :=
                        set_framing (wait_for_next_header (framing connection))
                          connection in
                      Returned
                        (Schedule_next_read connection
                           (store sid connection s))
                  | None => Returned s
                  end
                else Returned s
            | None =>
                Returned (Close_ucs_stream sid (emit (Log LOG_parse_failed) s))
            end
      | _ => Returned (Close_ucs_stream sid s)
      end
  end.

(** ** Device registration and device-originated messages *)

Definition On_register_vehicle (vehicle : Device) (s : Cucs_processor)
  : Outcome :=
  let device_id := Get_session_id vehicle in
  match Assoc.find device_id (vehicles s) with
  | Some _ => Thrown Exception s
  | None =>
      let ctx :=
        {| vehicle := vehicle;
           registration_message :=
             Register vehicle (set_device_id device_id empty_message);
           telemetry_cache := []; availability_cache := [] |} in
      let s := set_vehicles (Assoc.emplace device_id ctx (vehicles s)) s in
      let '(m, s) := Broadcast_message_to_ucs (registration_message ctx) s in
      Returned
        (set_vehicles
           (Assoc.replace device_id (set_registration_message m ctx)
              (vehicles s)) s)
  end.

Definition unregister_notice (device_id : Z) : Vsm_message :=
  {| device_id := Some device_id; message_id := None;
     response_required := None; register_peer := None;
     register_device := None; unregister_device := Some tt;
     device_status := None; device_response := None |}.

Definition On_unregister_vehicle (device_id : Z) (s : Cucs_processor)
  : Outcome :=
  match Assoc.find device_id (vehicles s) with
  | None => Thrown Invalid_param_exception s
  | Some _ =>
      let reg := unregister_notice device_id in
      let s := set_vehicles (Assoc.erase device_id (vehicles s)) s in
      Returned (snd (Broadcast_message_to_ucs reg s))
  end.

Definition set_caches (t : list (Z * Telemetry_field))
  (a : list (Z * Command_availability)) (v : Vehicle_context)
  : Vehicle_context :=
  {| vehicle := vehicle v; registration_message := registration_message v;
     telemetry_cache := t; availability_cache := a |}.

Definition On_send_ucs_message (device_id : Z) (message : Vsm_message)
  (sid : Z) (s : Cucs_processor) : Cucs_processor :=
  match Assoc.find device_id (vehicles s) with
  | Some v =>
      let fields :=
        match device_status message with
        | Some d => telemetry_fields d
        | None => []
        end in
      let commands :=
        match device_status message with
        | Some d => command_availability d
        | None => []
        end in
      let t :=
        fold_left (fun c f => Assoc.put (field_id f) f c) fields
          (telemetry_cache v) in
      let a :=
        fold_left (fun c f => Assoc.put (command_id f) f c) commands
          (availability_cache v) in
      let s :=
        set_vehicles (Assoc.replace device_id (set_caches t a v) (vehicles s))
          s in
      let message := set_device_id device_id message in
      if negb (sid =? 0) then Send_ucs_message_ptr sid message s
      else snd (Broadcast_message_to_ucs message s)
  | None => s
  end.

(** ** Keep-alive timer *)

Definition ping_msg : Vsm_message :=
  set_response_required true (set_device_id 0 empty_message).

(** What the timer does on the connection under key [k]; [now] is the
    clock reading taken for it. *)
Definition On_timer_visit (now : Z) (k : Z) (c : Server_context)
  (s : Cucs_processor) : Cucs_processor :=
  if has (ucs_id c) then
    if negb (keep_alive_timeout s =? 0) then
      if last_message_time c + keep_alive_timeout s <? now then
        emit (Stream_close k) (emit (Log LOG_timed_out) s)
      else Send_ucs_message_ptr k ping_msg s
    else s
  else
    if (last_message_time c + REGISTER_PEER_TIMEOUT <? now)
       && negb (has (ucs_id c))
    then emit (Stream_close k) (emit (Log LOG_timed_out) s)
    else s.

Fixpoint On_timer_loop (clock : Z -> Z) (ks : list Z) (s : Cucs_processor)
  : Cucs_processor :=
  match ks with
  | [] => s
  | k :: ks' =>
      match Assoc.find k (ucs_connections s) with
      | Some c => On_timer_loop clock ks' (On_timer_visit (clock k) k c s)
      | None => On_timer_loop clock ks' s
      end
  end.

(** [clock k] is the reading of the steady clock taken when the loop
    visits the connection under key [k]. *)
Definition On_timer (clock : Z -> Z) (s : Cucs_processor)
  : bool * Cucs_processor :=
  (true, On_timer_loop clock (Assoc.keys (ucs_connections s)) s).

(** ** Accepting a connection *)

Definition register_peer_msg : Vsm_message :=
  set_device_id 0
    {| device_id := None; message_id := None; response_required := None;
       register_peer :=
         Some {| peer_id := Get_application_instance_id;
                 peer_type := Some PEER_TYPE_VSM;
                 name := Get_vsm_name;
                 version_major := Some SDK_VERSION_MAJOR;
                 version_minor := Some SDK_VERSION_MINOR;
                 version_build := Some SDK_VERSION_BUILD |};
       register_device := None; unregister_device := None;
       device_status := None; device_response := None |}.

Definition On_incoming_connection (is_tcp : bool) (addr : Socket_address)
  (now : Z) (s : Cucs_processor) : Cucs_processor :=
  if negb is_tcp then emit Incoming_stream_close s
  else
    let '(new_id, s) := Get_next_id s in
    let sc := new_Server_context new_id addr now in
    let s := Schedule_next_read sc s in
    let s :=
      set_ucs_connections (Assoc.emplace new_id sc (ucs_connections s)) s in
    Send_ucs_message_ptr new_id register_peer_msg s.

(** ** The processor as a machine

    One request of the processing context at a time; the clock readings a
    handler takes are part of its input. *)
Inductive Request :=
  | Incoming_connection (is_tcp : bool) (addr : Socket_address) (now : Z)
  | Read_done (buffer : list Z) (result : Io_result) (sid : Z) (now : Z)
  | Write_done (result : Io_result) (sid : Z)
  | Timer (clock : Z -> Z)
  | Register_device (vehicle : Device)
  | Unregister_device (handle : Z)
  | Send_message (handle : Z) (message : Vsm_message) (sid : Z)
  | Device_completion (sid : Z) (resp : Vsm_message).

Definition process (r : Request) (s : Cucs_processor) : Outcome :=
  match r with
  | Incoming_connection is_tcp addr now =>
      Returned (On_incoming_connection is_tcp addr now s)
  | Read_done buffer result sid now => Read_completed buffer result sid now s
  | Write_done result sid => Returned (Write_completed result sid s)
  | Timer clock => Returned (snd (On_timer clock s))
  | Register_device vehicle => On_register_vehicle vehicle s
  | Unregister_device d => On_unregister_vehicle d s
  | Send_message d message sid => Returned (On_send_ucs_message d message sid s)
  | Device_completion sid resp => Returned (Send_ucs_message_ptr sid resp s)
  end.

Fixpoint run (rs : list Request) (s : Cucs_processor) : Outcome :=
  match rs with
  | [] => Returned s
  | r :: rs' =>
      match process r s with
      | Returned s' => run rs' s'
      | o => o
      end
  end.

(** The processor once enabled: no connection, no device, the id counter
    at 1 as the constructor leaves it. *)
Definition enabled (keep_alive : Z) (detector_pinned : bool) : Cucs_processor :=
  {| ucs_connections := []; vehicles := []; ucs_id_counter := 1;
     keep_alive_timeout := keep_alive;
     transport_detector_on_when_diconnected := detector_pinned;
     trace := [] |}.

Definition reachable (s : Cucs_processor) : Prop :=
  exists keep_alive detector_pinned rs,
    run rs (enabled keep_alive detector_pinned) = Returned s.

(** ** The frame decoder on a byte stream

    [Schedule_next_read] asks the stream for exactly [to_read] bytes, so
    [Read_completed] runs once [to_read] bytes have arrived, however the
    peer's bytes were split on the way.  The receiver below is the decoder
    of the length prefix in that loop: it follows the header branch, and it
    stops where the bytes of a body are handed to [ParseFromArray]; what
    follows there is the handler's, and it is the read loop of a connection
    further down that goes on. *)

Inductive Frame_step :=
  | Frame_undefined
  | Frame_internal_error
  | Frame_too_long
  | Frame_header (f : Framing)
  | Frame_body (payload : list Z).

(** The framing decisions of [Read_completed] on a successful read: the
    header branch, and in body state the buffer that goes to the parser. *)
Definition Read_frame (f : Framing) (buffer : list Z) : Frame_step :=
  if reading_header f then
    match buffer with
    | [byte] =>
        match Read_header f byte with
        | Header_undefined => Frame_undefined
        | Header_too_long _ => Frame_too_long
        | Header_next f' => Frame_header f'
        end
    | _ => Frame_internal_error
    end
  else Frame_body buffer.

Inductive Receiver_status :=
  | Receiving
  | Handed_over
  | Failed_too_long
  | Failed_undefined
  | Failed_internal_error.

Record Receiver := {
  rx_framing : Framing;
  rx_inbox : list Z;
  rx_frames : list (list Z);
  rx_status : Receiver_status
}.

Definition new_receiver : Receiver :=
  {| rx_framing := initial_framing; rx_inbox := []; rx_frames := [];
     rx_status := Receiving |}.

(** One completed read, if the bytes at hand satisfy the pending request
    of [to_read] bytes. *)
Definition rx_step (r : Receiver) : option Receiver :=
  match rx_status r with
  | Receiving =>
      let n := Z.to_nat (to_read (rx_framing r)) in
      if (0 <? n)%nat && (n <=? length (rx_inbox r))%nat then
        let rest := drop n (rx_inbox r) in
        Some
          match Read_frame (rx_framing r) (take n (rx_inbox r)) with
          | Frame_header f =>
              {| rx_framing := f; rx_inbox := rest;
                 rx_frames := rx_frames r; rx_status := Receiving |}
          | Frame_body payload =>
              {| rx_framing := rx_framing r; rx_inbox := rest;
                 rx_frames := rx_frames r ++ [payload];
                 rx_status := Handed_over |}
          | Frame_too_long =>
              {| rx_framing := rx_framing r; rx_inbox := rest;
                 rx_frames := rx_frames r; rx_status := Failed_too_long |}
          | Frame_undefined =>
              {| rx_framing := rx_framing r; rx_inbox := rest;
                 rx_frames := rx_frames r; rx_status := Failed_undefined |}
          | Frame_internal_error =>
              {| rx_framing := rx_framing r; rx_inbox := rest;
                 rx_frames := rx_frames r;
                 rx_status := Failed_internal_error |}
          end
      else None
  | _ => None
  end.

(** Completes reads as long as one can complete.  Every read takes at
    least one byte, so the number of bytes at hand bounds the rounds. *)
Fixpoint drain (fuel : nat) (r : Receiver) : Receiver :=
  match fuel with
  | O => r
  | S fuel' =>
      match rx_step r with
      | Some r' => drain fuel' r'
      | None => r
      end
  end.

Definition push (r : Receiver) (chunk : list Z) : Receiver :=
  {| rx_framing := rx_framing r; rx_inbox := rx_inbox r ++ chunk;
     rx_frames := rx_frames r; rx_status := rx_status r |}.

Definition settle (r : Receiver) : Receiver :=
  drain (length (rx_inbox r)) r.

(** [chunk] arrives on the stream. *)
Definition receive (r : Receiver) (chunk : list Z) : Receiver :=
  settle (push r chunk).

Definition receive_all (r : Receiver) (chunks : list (list Z)) : Receiver :=
  fold_left receive chunks r.

Definition rx (f : Framing) (inbox : list Z) (frames : list (list Z))
  : Receiver :=
  {| rx_framing := f; rx_inbox := inbox; rx_frames := frames;
     rx_status := Receiving |}.

(** Header state with [acc] accumulated so far, and body state. *)
Definition header_state (acc sh : Z) : Framing :=
  {| to_read := 1; message_size := acc; reading_header := true; shift := sh |}.

Definition body_state (size : Z) : Framing :=
  {| to_read := size; message_size := size; reading_header := false;
     shift := 0 |}.

(** A run of header bytes: [header_run f bytes f'] when the header branch
    takes [bytes] one at a time from framing state [f], every read but the
    last leaving the decoder in header state, and ends in [f']. *)
Inductive header_run : Framing -> list Z -> Framing -> Prop :=
  | header_run_last f byte f' :
      reading_header f = true -> to_read f = 1 ->
      Read_header f byte = Header_next f' ->
      header_run f [byte] f'
  | header_run_more f byte f1 bytes f' :
      reading_header f = true -> to_read f = 1 ->
      Read_header f byte = Header_next f1 ->
      header_run f1 bytes f' ->
      header_run f (byte :: bytes) f'.

(** ** The read loop of a connection

    The processor together with the bytes that have arrived for connection
    [sid] and are not read yet.  [line_frames] lists the buffers of the
    reads completed in body state: the frames handed to [ParseFromArray]. *)
Record Line := {
  line_outcome : Outcome;
  line_inbox : list Z;
  line_frames : list (list Z)
}.

Definition new_line (s : Cucs_processor) : Line :=
  {| line_outcome := Returned s; line_inbox := []; line_frames := [] |}.

(** Modelled from the spec: the stream class is declared outside the
    sources.  [Schedule_next_read] calls [Read] with [to_read] as both the
    largest and the smallest number of bytes to hand over, so a read
    completes with [Io_result::OK], and [Read_completed] runs on its
    bytes, once [to_read] bytes are at hand, and it takes exactly these.
    No read is pending once the connection is gone or a handler has not
    returned.  [now] is the clock reading the handler takes. *)
Definition line_step (sid now : Z) (l : Line) : option Line :=
  match line_outcome l with
  | Returned s =>
      match Assoc.find sid (ucs_connections s) with
      | Some connection =>
          let n := Z.to_nat (to_read (framing connection)) in
          if (0 <? n)%nat && (n <=? length (line_inbox l))%nat then
            let buffer := take n (line_inbox l) in
            Some
              {| line_outcome := Read_completed buffer Io_OK sid now s;
                 line_inbox := drop n (line_inbox l);
                 line_frames :=
                   if reading_header (framing connection) then line_frames l
                   else line_frames l ++ [buffer] |}
          else None
      | None => None
      end
  | _ => None
  end.

Fixpoint line_drain (fuel : nat) (sid now : Z) (l : Line) : Line :=
  match fuel with
  | O => l
  | S fuel' =>
      match line_step sid now l with
      | Some l' => line_drain fuel' sid now l'
      | None => l
      end
  end.

Definition line_push (l : Line) (chunk : list Z) : Line :=
  {| line_outcome := line_outcome l; line_inbox := line_inbox l ++ chunk;
     line_frames := line_frames l |}.

Definition line_settle (sid now : Z) (l : Line) : Line :=
  line_drain (length (line_inbox l)) sid now l.

(** [chunk] arrives on the stream of connection [sid]. *)
Definition arrive (sid now : Z) (l : Line) (chunk : list Z) : Line :=
  line_settle sid now (line_push l chunk).

Definition arrive_all (sid now : Z) (l : Line) (chunks : list (list Z))
  : Line :=
  fold_left (arrive sid now) chunks l.

(** The reads asked for while the length prefix [header] was taken, the
    last one for what framing state [f] wants. *)
Definition header_reads (connection : Server_context) (header : list Z)
  (f : Framing) : list Event :=
  repeat (Stream_read (stream_id connection) 1) (length header - 1)
  ++ [Stream_read (stream_id connection) (to_read f)].

(** The processor once the length prefix [header] of a frame has been
    read on connection [sid]: the connection is in framing state [f], and
    one read was asked for after each byte. *)
Definition header_taken (sid : Z) (connection : Server_context)
  (header : list Z) (f : Framing) (s : Cucs_processor) : Cucs_processor :=
  emit_all (header_reads connection header f)
    (store sid (set_framing f connection) s).

(** The round trip of message [M] on connection [sid] when its encoding
    arrives split into [chunks]: exactly one frame, the serialization of
    [M], is handed over, and the decoder is back in its initial state. *)
Definition round_trip (sid now : Z) (s : Cucs_processor) (M : Vsm_message)
  (chunks : list (list Z)) : Prop :=
  concat chunks = encode_user_data (SerializeToArray M) ->
  let l := arrive_all sid now (new_line s) chunks in
  line_frames l = [SerializeToArray M]
  /\ line_inbox l = []
  /\ exists s' connection',
       line_outcome l = Returned s'
       /\ Assoc.find sid (ucs_connections s') = Some connection'
       /\ framing connection' = initial_framing.

(** ** Vocabulary of the properties *)

(** What the first failover loop makes of a connection. *)
Definition promoted_loopback (peer : Z) (u : Server_context) : Server_context :=
  if same_ucs peer u && Is_loopback_address (address u)
  then set_primary true u else u.

(** The first connection of [peer] in iteration order. *)
Fixpoint first_sibling_of (peer : Z) (l : list (Z * Server_context))
  : option (Z * Server_context) :=
  match l with
  | [] => None
  | (k, u) :: l' =>
      if same_ucs peer u then Some (k, u) else first_sibling_of peer l'
  end.

(** The first connection of [peer], in iteration order, that is primary. *)
Fixpoint first_primary_of (peer : Z) (l : list (Z * Server_context))
  : option (Z * Server_context) :=
  match l with
  | [] => None
  | (k, u) :: l' =>
      if same_ucs peer u && primary u then Some (k, u)
      else first_primary_of peer l'
  end.

Definition has_sibling (peer : Z) (l : list (Z * Server_context)) : bool :=
  existsb (fun kv => same_ucs peer (snd kv)) l.

(** The test under which a handshake takes the primary role from [old]. *)
Definition takes_over (old connection : Server_context) : bool :=
  negb (Is_loopback_address (address old))
  || Is_loopback_address (address connection).

(** What the send path leaves alone in a connection. *)
Definition session (c : Server_context) :=
  (stream_id c, address c, ucs_id c, framing c, primary c,
   last_message_time c, is_compatible c).

Definition sessions (l : list (Z * Server_context)) :=
  map (fun kv => (fst kv, session (snd kv))) l.

(** Key and stream id of every connection. *)
Definition idents (l : list (Z * Server_context)) : list (Z * Z) :=
  map (fun kv => (fst kv, stream_id (snd kv))) l.

(** The keys of [ucs_connections] are distinct, every connection is
    stored under its own stream id, and every stream id was handed out by
    the counter. *)
Definition well_formed (s : Cucs_processor) : Prop :=
  NoDup (map fst (idents (ucs_connections s)))
  /\ forall k i, In (k, i) (idents (ucs_connections s)) ->
       i = k /\ k < ucs_id_counter s.

(** What no handler changes in a connection, the frame decoder apart. *)
Definition anchor (c : Server_context) : Z * Framing :=
  (stream_id c, framing c).

Definition anchors (l : list (Z * Server_context))
  : list (Z * (Z * Framing)) :=
  map (fun kv => (fst kv, anchor (snd kv))) l.

(** A step that neither adds nor removes a connection and leaves the
    framing state of every connection alone. *)
Definition steady (s s' : Cucs_processor) : Prop :=
  anchors (ucs_connections s') = anchors (ucs_connections s)
  /\ ucs_id_counter s <= ucs_id_counter s'.

(** The events of a trace that close stream [k] or write on it. *)
Definition on_stream (k : Z) (e : Event) : bool :=
  match e with
  | Stream_close k' => k' =? k
  | Stream_write k' _ _ => k' =? k
  | _ => false
  end.

Definition stream_events (k : Z) (evs : list Event) : list Event :=
  List.filter (on_stream k) evs.

(** What one tick does on the stream of connection [c] under key [k],
    with message ids allocated from [lo] up to [hi]. *)
Definition tick_outcome (now k : Z) (c : Server_context) (keep_alive lo hi : Z)
  (evs : list Event) : Prop :=
  match ucs_id c with
  | Some _ =>
      if keep_alive =? 0 then evs = []
      else if keep_alive <? now - last_message_time c then
        evs = [Stream_close k]
      else if is_compatible c then
        exists i,
          lo <= i < hi
          /\ evs =
             [Stream_write k (set_message_id i ping_msg)
                (encode_user_data
                   (SerializeToArray (set_message_id i ping_msg)))]
      else evs = []
  | None =>
      evs =
      if REGISTER_PEER_TIMEOUT <? now - last_message_time c
      then [Stream_close k] else []
  end.

(** The state after a registration acknowledgement. *)
Definition after_registration_response (sid : Z) (connection : Server_context)
  (ucs device : Z) (vsm_msg : Vsm_message) (response : Device_response)
  (now : Z) (s : Cucs_processor) : Cucs_processor :=
  let c0 := set_last_message_time now connection in
  let erased c :=
    set_pending_registrations
      (Assoc.erase (get_message_id vsm_msg) (pending_registrations c)) c in
  let result c evs :=
    {| ucs_connections := Assoc.replace sid c (ucs_connections s);
       vehicles := vehicles s;
       ucs_id_counter := ucs_id_counter s;
       keep_alive_timeout := keep_alive_timeout s;
       transport_detector_on_when_diconnected :=
         transport_detector_on_when_diconnected s;
       trace := trace s ++ evs |} in
  match code response with
  | STATUS_OK =>
      match Assoc.find device (vehicles s) with
      | Some v =>
          let c1 :=
            set_registered_devices ({[device]} ∪ registered_devices c0) c0 in
          result (erased c1)
            ([Log (LOG_registered device ucs);
              Handle_ucs_info device
                (ucs_data_of device
                   (Assoc.replace sid c1 (ucs_connections s)))]
             ++ (if is_compatible connection then
                   [Stream_write sid (cached_status device v)
                      (encode_user_data
                         (SerializeToArray (cached_status device v)))]
                 else []))
      | None => result (erased c0) [Log (LOG_registered device ucs)]
      end
  | STATUS_IN_PROGRESS =>
      result c0 [Log (LOG_registration_in_progress device ucs)]
  | c => result (erased c0) [Log (LOG_registration_failed device ucs c)]
  end.

(** ** Vocabulary of the further properties *)

(** The number a length prefix stands for: seven bits a byte, least
    significant group first. *)
Fixpoint varint_value (header : list Z) : Z :=
  match header with
  | [] => 0
  | b :: header' => Z.land b 0x7f + 128 * varint_value header'
  end.

(** The test under which [Send_ucs_message] allocates a message id. *)
Definition needs_message_id (m : Vsm_message) : bool :=
  negb (has (message_id m)) && bool_decide (response_required m = Some true).

(** The gates a message that is not a [register_device] passes on a
    connection whose peer is known: the connection is compatible, and the
    message is for the peer itself or for a device registered there. *)
Definition admits (m : Vsm_message) (ctx : Server_context) : bool :=
  is_compatible ctx
  && ((get_device_id m =? 0)
      || bool_decide (get_device_id m ∈ registered_devices ctx)).

(** The response template [On_ucs_message] prepares, completed with
    [code]. *)
Definition response_to (message : Vsm_message) (code : Status_code)
  : Vsm_message :=
  set_device_response code
    (set_device_id (get_device_id message)
       (set_message_id (get_message_id message) empty_message)).

(** The last element of [l] whose key is [i]. *)
Fixpoint latest {A : Type} (key : A -> Z) (i : Z) (l : list A) : option A :=
  match l with
  | [] => None
  | x :: l' =>
      match latest key i l' with
      | Some y => Some y
      | None => if key x =? i then Some x else None
      end
  end.

(** The telemetry fields and the command availabilities a message
    carries; both lists are empty without a [device_status]. *)
Definition fields_of (message : Vsm_message) : list Telemetry_field :=
  match device_status message with
  | Some d => telemetry_fields d
  | None => []
  end.

Definition commands_of (message : Vsm_message) : list Command_availability :=
  match device_status message with
  | Some d => command_availability d
  | None => []
  end.

(** *** Connections over time *)

(** The failover of [Close_ucs_stream] on the connections that are left. *)
Definition failover (peer : Z) (l : list (Z * Server_context))
  : list (Z * Server_context) :=
  let '(l1, _, loopback_found) := Promote_loopback peer l in
  if negb loopback_found then (Promote_first peer l1).1 else l1.

(** The connections [Close_ucs_stream] leaves. *)
Definition closed_connections (sid : Z) (l : list (Z * Server_context))
  : list (Z * Server_context) :=
  match Assoc.find sid l with
  | None => l
  | Some c =>
      if primary c then failover (default 0 (ucs_id c)) (Assoc.erase sid l)
      else Assoc.erase sid l
  end.

(** What the handshake writes into the connection it runs on, after a
    duplicate scan that ended with [dupe] and [switched]. *)
Definition registered_as (reg_peer : Register_peer) (dupe switched : bool)
  (c : Server_context) : Server_context :=
  let c := if switched then set_primary true c else c in
  let c := set_ucs_id (Some (peer_id reg_peer)) c in
  let c := if dupe then c else set_primary true c in
  if (default 0 (version_major reg_peer) <? SUPPORTED_UCS_VERSION_MAJOR)
     || ((default 0 (version_major reg_peer) =? SUPPORTED_UCS_VERSION_MAJOR)
         && (default 0 (version_minor reg_peer) <? SUPPORTED_UCS_VERSION_MINOR))
  then set_is_compatible false c
  else c.

(** The connections after the handshake of [reg_peer] on connection
    [sid], before the registrations are sent. *)
Definition handshaken (sid : Z) (connection : Server_context)
  (reg_peer : Register_peer) (l : list (Z * Server_context))
  : list (Z * Server_context) :=
  let '(l1, dupe, switched, _) :=
    Duplicate_scan (peer_id reg_peer) connection l in
  match Assoc.find sid l1 with
  | Some c => Assoc.replace sid (registered_as reg_peer dupe switched c) l1
  | None => l1
  end.

(** Two tables with the same keys in the same order whose connections are
    related by [R] one by one. *)
Definition linked (R : Server_context -> Server_context -> Prop)
  (l l' : list (Z * Server_context)) : Prop :=
  Forall2 (fun a b => fst a = fst b /\ R (snd a) (snd b)) l l'.

(** A step from [s] to [s'] that keeps the connections in place, each
    related to what it was by [R], and takes ids from the counter only. *)
Definition tied (R : Server_context -> Server_context -> Prop)
  (s s' : Cucs_processor) : Prop :=
  linked R (ucs_connections s) (ucs_connections s')
  /\ ucs_id_counter s <= ucs_id_counter s'.

(** A relation between a connection and a later state of it that the
    send path and the frame decoder respect: they write the pending
    registrations, the time of the last message and the framing fields,
    take devices out of [registered_devices], and add a device there only
    once the peer is known. *)
Class Frame_relation (R : Server_context -> Server_context -> Prop) := {
  frame_refl : forall c, R c c;
  frame_trans : forall c1 c2 c3, R c1 c2 -> R c2 c3 -> R c1 c3;
  frame_pending : forall c p, R c (set_pending_registrations p c);
  frame_time : forall c t, R c (set_last_message_time t c);
  frame_framing : forall c f, R c (set_framing f c);
  frame_shrink :
    forall c r, r ⊆ registered_devices c -> R c (set_registered_devices r c);
  frame_register :
    forall c r, ucs_id c <> None -> R c (set_registered_devices r c)
}.

(** [c'] is a later state of connection [c]: the stream and the address
    are the same, a peer id that was set is the same, a connection flagged
    incompatible stays so, and as long as the peer is unknown the
    connection keeps its [primary] flag and gains no registered device. *)
Definition ages (c c' : Server_context) : Prop :=
  stream_id c' = stream_id c
  /\ address c' = address c
  /\ (ucs_id c <> None -> ucs_id c' = ucs_id c)
  /\ (is_compatible c = false -> is_compatible c' = false)
  /\ (ucs_id c' = None ->
      primary c' = primary c /\ registered_devices c' ⊆ registered_devices c).

(** [c'] has the role of [c]: same stream, address, peer, [primary] flag
    and compatibility, and no device registered before the peer is
    known. *)
Definition same_role (c c' : Server_context) : Prop :=
  stream_id c' = stream_id c
  /\ address c' = address c
  /\ ucs_id c' = ucs_id c
  /\ primary c' = primary c
  /\ is_compatible c' = is_compatible c
  /\ (ucs_id c = None -> registered_devices c' ⊆ registered_devices c).

(** [f] applied to the connection under [sid], if there is one. *)
Definition update_in (sid : Z) (f : Server_context -> Server_context)
  (l : list (Z * Server_context)) : list (Z * Server_context) :=
  match Assoc.find sid l with
  | Some c => Assoc.replace sid (f c) l
  | None => l
  end.

(** The steps a handler is made of, as far as the connection table and
    the id counter go: a step that keeps every role, the teardown of a
    connection, a new connection under the next id, and a handshake. *)
Inductive move (s s' : Cucs_processor) : Prop :=
  | move_quiet :
      tied same_role s s' -> move s s'
  | move_close (sid : Z) :
      ucs_connections s' = closed_connections sid (ucs_connections s) ->
      ucs_id_counter s' = ucs_id_counter s ->
      move s s'
  | move_accept (addr : Socket_address) (now : Z) :
      ucs_connections s' =
      ucs_connections s
      ++ [(ucs_id_counter s,
           new_Server_context (ucs_id_counter s) addr now)] ->
      ucs_id_counter s' = ucs_id_counter s + 1 ->
      move s s'
  | move_handshake (sid : Z) (connection : Server_context)
      (reg_peer : Register_peer) :
      Assoc.find sid (ucs_connections s) = Some connection ->
      ucs_id connection = None ->
      ucs_connections s' =
      handshaken sid connection reg_peer (ucs_connections s) ->
      ucs_id_counter s' = ucs_id_counter s ->
      move s s'.

Inductive evolves : Cucs_processor -> Cucs_processor -> Prop :=
  | evolves_refl s : evolves s s
  | evolves_step s s1 s' : move s s1 -> evolves s1 s' -> evolves s s'.

(** [c'] is [c], or [c] demoted, which the duplicate scan does to a
    connection of [peer] only. *)
Definition demoted (peer : Z) (c c' : Server_context) : Prop :=
  c' = c \/ (ucs_id c = Some peer /\ c' = set_primary false c).

(** [c'] is [c], or [c] promoted, which the failover does to a connection
    of [peer] only. *)
Definition promoted (peer : Z) (c c' : Server_context) : Prop :=
  c' = c \/ (ucs_id c = Some peer /\ c' = set_primary true c).

(** The connection table is in order: the ids start at 1, the keys are
    distinct, every connection is stored under its own stream id, and
    every stream id is a positive id the counter has handed out. *)
Definition table_in_order (l : list (Z * Server_context)) (n : Z) : Prop :=
  1 <= n
  /\ NoDup (Assoc.keys l)
  /\ forall k c, In (k, c) l -> stream_id c = k /\ 1 <= k < n.

(** A connection whose peer is unknown is not primary and has no device
    registered. *)
Definition passive_until_registered (l : list (Z * Server_context)) : Prop :=
  forall k c, In (k, c) l -> ucs_id c = None ->
    primary c = false /\ registered_devices c = ∅.

(** Every peer with a connection has a primary one. *)
Definition peers_have_primary (l : list (Z * Server_context)) : Prop :=
  forall k c peer, In (k, c) l -> ucs_id c = Some peer ->
    exists k' c', In (k', c') l /\ ucs_id c' = Some peer /\ primary c' = true.

(** Events that are neither on a stream nor for the transport detector. *)
Definition silent (e : Event) : Prop :=
  match e with
  | Log _ | Handle_ucs_info _ _ => True
  | _ => False
  end.

(** The writes by which the registrations of the devices in [vs] go out on
    stream [sid], with message ids from [n] on. *)
Fixpoint registrations_sent (sid n : Z) (vs : list (Z * Vehicle_context))
  : list Event :=
  match vs with
  | [] => []
  | (_, v) :: vs' =>
      let m :=
        set_message_id n
          (set_response_required true (registration_message v)) in
      Stream_write sid m (encode_user_data (SerializeToArray m))
      :: registrations_sent sid (n + 1) vs'
  end.

(** The pending registrations these writes leave on the connection. *)
Fixpoint registrations_pending (n : Z) (vs : list (Z * Vehicle_context))
  (pending : list (Z * Z)) : list (Z * Z) :=
  match vs with
  | [] => pending
  | (_, v) :: vs' =>
      registrations_pending (n + 1) vs'
        (Assoc.emplace n (get_device_id (registration_message v)) pending)
  end.

(** The devices of the vehicles table under their keys. *)
Definition fleet (s : Cucs_processor) : list (Z * Device) :=
  map (fun dv => (fst dv, vehicle (snd dv))) (vehicles s).

End Model.

(** ** A platform to run the model on *)

Module Demo.

(** A toy wire format, enough to carry a handshake and a registration
    acknowledgement: [0; p] and [0; p; v] are a [register_peer] of peer
    [p] without a peer type, of version 3.0 or [v].0; [2; i; c] is a
    [device_response] to message [i] with code OK (0), IN_PROGRESS (1) or
    FAILED; [3; d] is a message for device [d]. *)
Definition demo_message : Vsm_message :=
  {| device_id := Some 0; message_id := None; response_required := None;
     register_peer := None; register_device := None;
     unregister_device := None; device_status := None;
     device_response := None |}.

Definition demo_register_peer (p v : Z) : Vsm_message :=
  {| device_id := Some 0; message_id := None; response_required := None;
     register_peer :=
       Some {| peer_id := p; peer_type := None; name := 0;
               version_major := Some v; version_minor := Some 0;
               version_build := None |};
     register_device := None; unregister_device := None;
     device_status := None; device_response := None |}.

Definition demo_code (c : Z) : Status_code :=
  if c =? 0 then STATUS_OK
  else if c =? 1 then STATUS_IN_PROGRESS
  else STATUS_FAILED.

Definition demo_parse (buffer : list Z) : option Vsm_message :=
  match buffer with
  | [0; p] => Some (demo_register_peer p 3)
  | [0; p; v] => Some (demo_register_peer p v)
  | [2; i; c] =>
      Some (set_device_response (demo_code c) (set_message_id i demo_message))
  | [3; d] => Some (set_device_id d demo_message)
  | _ => None
  end.

(** Set fields take bytes; a message with no field set takes none. *)
Definition demo_serialize (m : Vsm_message) : list Z :=
  match register_peer m with
  | Some r => [0; peer_id r]
  | None =>
      match device_id m with
      | Some d => [1; d]
      | None => []
      end
  end.

Definition platform : Platform :=
  {| PROTO_MAX_MESSAGE_LEN := 1000000;
     REGISTER_PEER_TIMEOUT := 10;
     SUPPORTED_UCS_VERSION_MAJOR := 3;
     SUPPORTED_UCS_VERSION_MINOR := 0;
     SDK_VERSION_MAJOR := 3;
     SDK_VERSION_MINOR := 0;
     SDK_VERSION_BUILD := 0;
     Get_application_instance_id := 42;
     Get_vsm_name := 0;
     SerializeToArray := demo_serialize;
     ParseFromArray := demo_parse |}.

#[export] Existing Instance platform.

Definition loopback_address (n : Z) : Socket_address :=
  {| Get_as_string := n; Is_loopback_address := true |}.

Definition remote_address (n : Z) : Socket_address :=
  {| Get_as_string := n; Is_loopback_address := false |}.

(** A device with session id 5 whose registration message is a
    [register_device]. *)
Definition device_5 : Device :=
  {| Get_session_id := 5; Register := set_register_device 0 |}.

Definition state_after (keep_alive : Z) (rs : list Request) : Cucs_processor :=
  match run rs (enabled keep_alive false) with
  | Returned s => s
  | _ => enabled keep_alive false
  end.

(** The connection under key [k], for states that have one. *)
Definition connection_of (k : Z) (s : Cucs_processor) : Server_context :=
  default (new_Server_context 0 (remote_address 0) 0)
    (Assoc.find k (ucs_connections s)).

(** A connection from [addr] is accepted as stream [sid] and completes
    the handshake as peer 7. *)
Definition handshake (sid : Z) (addr : Socket_address) : list Request :=
  [Incoming_connection true addr 0;
   Read_done [2] Io_OK sid 1; Read_done [0; 7] Io_OK sid 1].

(** Three loopback connections of peer 7; the last one is primary. *)
Definition three_loopback_connections : list Request :=
  handshake 1 (loopback_address 1) ++ handshake 2 (loopback_address 2)
  ++ handshake 3 (loopback_address 3).

(** A remote connection of peer 7 is primary, a second remote connection
    is accepted and has sent its header byte. *)
Definition second_remote_connection : list Request :=
  handshake 1 (remote_address 1)
  ++ [Incoming_connection true (remote_address 2) 2; Read_done [2] Io_OK 2 3].

(** Device 5 is registered while peer 7 is connected, then unregistered
    before the peer has answered: the request with message id 2 is still
    pending. *)
Definition unregistered_while_pending : list Request :=
  handshake 1 (loopback_address 1)
  ++ [Register_device device_5; Unregister_device 5].

(** Device 5 is registered three times; the peer acknowledges the first
    request (message id 2) after the third. *)
Definition registered_three_times : list Request :=
  handshake 1 (loopback_address 1)
  ++ [Register_device device_5; Unregister_device 5;
      Register_device device_5; Unregister_device 5;
      Register_device device_5;
      Read_done [3] Io_OK 1 2; Read_done [2; 2; 0] Io_OK 1 2].

(** Device 5 is registered and the peer has not answered yet. *)
Definition registration_pending : list Request :=
  handshake 1 (loopback_address 1) ++ [Register_device device_5].

(** The vehicle context under key [d], for states that have one. *)
Definition vehicle_of (d : Z) (s : Cucs_processor) : Vehicle_context :=
  default
    {| vehicle := device_5; registration_message := demo_message;
       telemetry_cache := []; availability_cache := [] |}
    (Assoc.find d (vehicles s)).

Definition field_1 : Telemetry_field :=
  {| field_id := 1; value := {| meta_value := None; plain_value := 10 |} |}.

(** Telemetry field 2, reported as not available. *)
Definition field_2_NA : Telemetry_field :=
  {| field_id := 2;
     value := {| meta_value := Some META_VALUE_NA; plain_value := 0 |} |}.

Definition command_3 : Command_availability :=
  {| command_id := 3; availability := 1 |}.

(** A status report of a device: a value for field 1, field 2 not
    available, command 3 available. *)
Definition status_report : Vsm_message :=
  {| device_id := None; message_id := None; response_required := None;
     register_peer := None; register_device := None;
     unregister_device := None;
     device_status :=
       Some {| telemetry_fields := [field_1; field_2_NA];
               command_availability := [command_3] |};
     device_response := None |}.

(** Device 5 is registered and reports its status; the peer has not
    answered the registration yet. *)
Definition reported_while_pending : list Request :=
  handshake 1 (loopback_address 1)
  ++ [Register_device device_5; Send_message 5 status_report 0].

(** A connection from a loopback address is accepted as stream 1. *)
Definition accepted : list Request :=
  [Incoming_connection true (loopback_address 1) 0].

(** A connection is accepted and the header of a two-byte message has
    arrived; the peer has not registered. *)
Definition header_before_handshake : list Request :=
  [Incoming_connection true (loopback_address 1) 0; Read_done [2] Io_OK 1 1].

(** A connection is accepted and sends five continuation bytes that carry
    no length bits. *)
Definition five_empty_continuations : list Request :=
  [Incoming_connection true (loopback_address 1) 0;
   Read_done [0x80] Io_OK 1 1; Read_done [0x80] Io_OK 1 1;
   Read_done [0x80] Io_OK 1 1; Read_done [0x80] Io_OK 1 1;
   Read_done [0x80] Io_OK 1 1].

(** A peer of version 2.0 completes the handshake: it is incompatible. *)
Definition incompatible_peer : list Request :=
  [Incoming_connection true (loopback_address 1) 0;
   Read_done [3] Io_OK 1 1; Read_done [0; 7; 2] Io_OK 1 1].

(** The state a run from [s] ends in, for runs that return. *)
Definition state_from (s : Cucs_processor) (rs : list Request)
  : Cucs_processor :=
  match run rs s with
  | Returned s' => s'
  | _ => s
  end.

(** A request of the peer for device [d] that wants an answer under
    message id 9. *)
Definition demo_request (d : Z) : Vsm_message :=
  set_response_required true (set_message_id 9 (set_device_id d demo_message)).

(** A status report with two values for telemetry field 1 and one for
    field 2. *)
Definition demo_report : Vsm_message :=
  {| device_id := None; message_id := None; response_required := None;
     register_peer := None; register_device := None;
     unregister_device := None;
     device_status :=
       Some {| telemetry_fields :=
                 [{| field_id := 1;
                     value := {| meta_value := None; plain_value := 10 |} |};
                  {| field_id := 2;
                     value := {| meta_value := None; plain_value := 20 |} |};
                  {| field_id := 1;
                     value := {| meta_value := None; plain_value := 11 |} |}];
               command_availability := [] |};
     device_response := None |}.

(** The [register_peer] of another VSM. *)
Definition demo_vsm_peer : Register_peer :=
  {| peer_id := 8; peer_type := Some PEER_TYPE_VSM; name := 0;
     version_major := Some 3; version_minor := Some 0;
     version_build := None |}.

Definition demo_register_vsm : Vsm_message :=
  {| device_id := Some 0; message_id := None; response_required := None;
     register_peer := Some demo_vsm_peer;
     register_device := None; unregister_device := None;
     device_status := None; device_response := None |}.

(** The [register_peer] of a server of version 2.0. *)
Definition demo_old_peer : Register_peer :=
  {| peer_id := 7; peer_type := None; name := 0;
     version_major := Some 2; version_minor := Some 0;
     version_build := None |}.

End Demo.

(** * Properties *)

(** ** Association lists *)

Module AssocFacts.
Section AssocFacts.
Context {V : Type}.
Implicit Types (l : list (Z * V)) (k : Z) (v : V).

Lemma find_replace l k v :
  Assoc.find k (Assoc.replace k v l) =
  match Assoc.find k l with Some _ => Some v | None => None end.
Proof.
  induction l as [|[k' v'] l IH]; cbn; [reflexivity|].
  destruct (k' =? k) eqn:E; cbn; rewrite E; [reflexivity|exact IH].
Qed.

Lemma find_replace_ne l k k' v :
  k <> k' -> Assoc.find k' (Assoc.replace k v l) = Assoc.find k' l.
Proof.
  intros Hne. induction l as [|[k0 v0] l IH]; cbn; [reflexivity|].
  destruct (k0 =? k) eqn:E; cbn.
  - apply Z.eqb_eq in E. subst k0.
    now replace (k =? k') with false by (symmetry; apply Z.eqb_neq; lia).
  - destruct (k0 =? k'); [reflexivity|exact IH].
Qed.

Lemma replace_same l k v : Assoc.find k l = Some v -> Assoc.replace k v l = l.
Proof.
  induction l as [|[k' v'] l IH]; cbn; [reflexivity|].
  destruct (k' =? k) eqn:E.
  - now intros [= ->].
  - intros Hf. now rewrite IH.
Qed.

Lemma replace_replace l k v v' :
  Assoc.replace k v' (Assoc.replace k v l) = Assoc.replace k v' l.
Proof.
  induction l as [|[k0 v0] l IH]; cbn; [reflexivity|].
  destruct (k0 =? k) eqn:E; cbn; rewrite E; [reflexivity|now rewrite IH].
Qed.

Lemma keys_replace l k v : Assoc.keys (Assoc.replace k v l) = Assoc.keys l.
Proof.
  unfold Assoc.keys.
  induction l as [|[k0 v0] l IH]; cbn; [reflexivity|].
  destruct (k0 =? k); cbn; [reflexivity|now rewrite IH].
Qed.

Lemma find_In l k v : Assoc.find k l = Some v -> In (k, v) l.
Proof.
  induction l as [|[k0 v0] l IH]; cbn; [discriminate|].
  destruct (k0 =? k) eqn:E.
  - apply Z.eqb_eq in E. intros [= ->]. left. now subst.
  - intros Hf. right. now apply IH.
Qed.

Lemma In_find l k v :
  NoDup (Assoc.keys l) -> In (k, v) l -> Assoc.find k l = Some v.
Proof.
  unfold Assoc.keys.
  induction l as [|[k0 v0] l IH]; cbn; [intros _ []|].
  intros Hnd [Heq|Hin].
  - injection Heq as -> ->. now rewrite Z.eqb_refl.
  - apply NoDup_cons in Hnd as [Hk Hnd].
    destruct (k0 =? k) eqn:E.
    + apply Z.eqb_eq in E. subst k0. exfalso. apply Hk.
      apply list_elem_of_In. change k with (fst (k, v)). now apply in_map.
    + now apply IH.
Qed.

Lemma find_app l l' k :
  Assoc.find k (l ++ l') =
  match Assoc.find k l with Some v => Some v | None => Assoc.find k l' end.
Proof.
  induction l as [|[k0 v0] l IH]; cbn; [reflexivity|].
  destruct (k0 =? k); [reflexivity|exact IH].
Qed.

Lemma find_emplace_fresh l k v :
  Assoc.find k l = None -> Assoc.find k (Assoc.emplace k v l) = Some v.
Proof.
  intros Hf. unfold Assoc.emplace. rewrite Hf, find_app, Hf. cbn.
  now rewrite Z.eqb_refl.
Qed.

Lemma find_erase_ne l k k' :
  k <> k' -> Assoc.find k' (Assoc.erase k l) = Assoc.find k' l.
Proof.
  intros Hne. induction l as [|[k0 v0] l IH]; cbn; [reflexivity|].
  destruct (k0 =? k) eqn:E; cbn.
  - apply Z.eqb_eq in E. subst k0.
    now replace (k =? k') with false by (symmetry; apply Z.eqb_neq; lia).
  - destruct (k0 =? k'); [reflexivity|exact IH].
Qed.

Lemma keys_erase_NoDup sid l :
  NoDup (Assoc.keys l) -> NoDup (Assoc.keys (Assoc.erase sid l)).
Proof.
  unfold Assoc.keys.
  induction l as [|[k0 u] l IH]; cbn; [auto|].
  intros Hnd. apply NoDup_cons in Hnd as [Hk Hnd].
  destruct (k0 =? sid); cbn; [exact Hnd|].
  apply NoDup_cons. split; [|auto].
  intros Hin. apply Hk. apply list_elem_of_In in Hin. apply list_elem_of_In.
  apply in_map_iff in Hin as ([k v] & Hf & Hin). cbn in Hf. subst k.
  apply in_map_iff. exists (k0, v). split; [reflexivity|].
  clear -Hin. induction l as [|[k1 u1] l IH]; cbn in *; [tauto|].
  destruct (k1 =? sid); cbn in *; tauto.
Qed.

Lemma find_Some_In_keys l k v :
  Assoc.find k l = Some v -> In k (Assoc.keys l).
Proof.
  intros Hf. apply find_In in Hf. unfold Assoc.keys.
  change k with (fst (k, v)). now apply in_map.
Qed.
Lemma find_emplace_ne l k k' v :
  k <> k' -> Assoc.find k' (Assoc.emplace k v l) = Assoc.find k' l.
Proof.
  intros Hne. unfold Assoc.emplace.
  destruct (Assoc.find k l); [reflexivity|].
  rewrite find_app. destruct (Assoc.find k' l); [reflexivity|]. cbn.
  now replace (k =? k') with false by (symmetry; apply Z.eqb_neq; lia).
Qed.

Lemma find_erase_same l k :
  NoDup (Assoc.keys l) -> Assoc.find k (Assoc.erase k l) = None.
Proof.
  unfold Assoc.keys.
  induction l as [|[k0 v0] l IH]; cbn; [reflexivity|].
  intros Hnd. apply NoDup_cons in Hnd as [Hk Hnd].
  destruct (k0 =? k) eqn:E; cbn.
  - apply Z.eqb_eq in E. subst k0.
    destruct (Assoc.find k l) as [v|] eqn:Hf; [|reflexivity].
    exfalso. apply Hk. apply list_elem_of_In.
    exact (find_Some_In_keys _ _ _ Hf).
  - rewrite E. now apply IH.
Qed.
End AssocFacts.
End AssocFacts.

Import AssocFacts.

(** ** The frame codec *)

Section Codec.
Context `{Platform}.

Lemma rx_step_shrinks r r' :
  rx_step r = Some r' -> (length (rx_inbox r') < length (rx_inbox r))%nat.
Proof.
  unfold rx_step. destruct (rx_status r); try discriminate.
  destruct (_ && _) eqn:E; try discriminate.
  apply andb_true_iff in E as [E1 E2].
  apply Nat.ltb_lt in E1. apply Nat.leb_le in E2.
  intros [= <-].
  destruct (Read_frame _ _); cbn; rewrite length_drop; lia.
Qed.

Lemma drain_stuck fuel r : rx_step r = None -> drain fuel r = r.
Proof. destruct fuel; cbn; [reflexivity|]. now intros ->. Qed.

Lemma drain_enough fuel r :
  (length (rx_inbox r) <= fuel)%nat -> rx_step (drain fuel r) = None.
Proof.
  revert r. induction fuel as [|fuel IH]; intros r Hlen; cbn.
  - unfold rx_step. destruct (rx_status r); try reflexivity.
    destruct (0 <? _)%nat eqn:E1; cbn; [|reflexivity].
    apply Nat.ltb_lt in E1.
    destruct (_ <=? _)%nat eqn:E2; [|reflexivity].
    apply Nat.leb_le in E2. lia.
  - destruct (rx_step r) as [r'|] eqn:E; [|exact E].
    apply IH. apply rx_step_shrinks in E. lia.
Qed.

Lemma settle_stuck r : rx_step r = None -> settle r = r.
Proof. apply drain_stuck. Qed.

Lemma drain_more fuel r :
  (length (rx_inbox r) <= fuel)%nat -> drain fuel r = settle r.
Proof.
  unfold settle. revert r.
  induction fuel as [fuel IH] using lt_wf_ind. intros r Hlen.
  destruct (rx_step r) as [r'|] eqn:E.
  - pose proof (rx_step_shrinks _ _ E) as Hs.
    destruct fuel as [|fuel]; [lia|].
    destruct (length (rx_inbox r)) as [|n] eqn:En; [lia|].
    cbn. rewrite E.
    rewrite (IH fuel) by lia. rewrite (IH n) by lia. reflexivity.
  - now rewrite !drain_stuck.
Qed.

Lemma settle_step r r' : rx_step r = Some r' -> settle r = settle r'.
Proof.
  intros E. pose proof (rx_step_shrinks _ _ E) as Hs.
  unfold settle at 1.
  destruct (length (rx_inbox r)) as [|n] eqn:En; [lia|].
  cbn. rewrite E. apply drain_more. lia.
Qed.

Lemma settle_settled r : rx_step (settle r) = None.
Proof. apply drain_enough. lia. Qed.

Lemma rx_step_push r r' extra :
  rx_step r = Some r' -> rx_step (push r extra) = Some (push r' extra).
Proof.
  unfold rx_step, push.
  cbn [rx_status rx_framing rx_inbox rx_frames].
  destruct (rx_status r); try discriminate.
  destruct (_ && _) eqn:E; try discriminate.
  apply andb_true_iff in E as [E1 E2].
  apply Nat.ltb_lt in E1. apply Nat.leb_le in E2.
  intros [= <-].
  rewrite length_app.
  replace ((0 <? _)%nat && _) with true.
  2:{ symmetry. apply andb_true_iff. split;
      [apply Nat.ltb_lt|apply Nat.leb_le]; lia. }
  rewrite take_app_le, drop_app_le by lia.
  destruct (Read_frame _ _); reflexivity.
Qed.

Lemma settle_push_settle r extra :
  settle (push (settle r) extra) = settle (push r extra).
Proof.
  remember (length (rx_inbox r)) as n eqn:En.
  revert r En. induction n as [n IH] using lt_wf_ind. intros r ->.
  destruct (rx_step r) as [r'|] eqn:E.
  - rewrite (settle_step _ _ E).
    rewrite (settle_step _ _ (rx_step_push _ _ extra E)).
    eapply IH; [|reflexivity]. now apply rx_step_shrinks.
  - now rewrite (settle_stuck _ E).
Qed.

Lemma push_push r a b : push (push r a) b = push r (a ++ b).
Proof. unfold push; cbn. now rewrite app_assoc. Qed.

Lemma receive_receive r a b : receive (receive r a) b = receive r (a ++ b).
Proof.
  unfold receive. now rewrite settle_push_settle, push_push.
Qed.

Lemma receive_all_concat r chunks :
  rx_step r = None ->
  receive_all r chunks = receive r (concat chunks).
Proof.
  unfold receive_all. revert r.
  induction chunks as [|c cs IH]; intros r Hr; cbn [fold_left concat].
  - assert (Hp : push r [] = r)
      by (destruct r; unfold push; cbn; now rewrite app_nil_r).
    unfold receive. rewrite Hp. symmetry. now apply settle_stuck.
  - rewrite IH by apply settle_settled. apply receive_receive.
Qed.

(** *** The length prefix *)

Lemma lor_shift_add acc v sh :
  0 <= sh -> 0 <= acc < 2 ^ sh -> 0 <= v ->
  Z.lor acc (v * 2 ^ sh) = acc + v * 2 ^ sh.
Proof.
  intros Hsh Hacc Hv. symmetry. apply Z.add_nocarry_lor.
  apply Z.bits_inj'. intros i Hi.
  rewrite Z.land_spec, Z.bits_0.
  destruct (Z.lt_ge_cases i sh) as [Hlt|Hge].
  - rewrite (Z.mul_pow2_bits_low v sh i) by lia. apply andb_false_r.
  - replace (Z.testbit acc i) with false; [reflexivity|].
    symmetry. destruct (Z.eq_dec acc 0) as [->|Hne]; [apply Z.bits_0|].
    apply Z.bits_above_log2; [lia|].
    apply Z.log2_lt_pow2; [lia|].
    eapply Z.lt_le_trans; [apply Hacc|]. apply Z.pow_le_mono_r; lia.
Qed.

Lemma low7 n : Z.land n 0x7f = n mod 128.
Proof. change 0x7f with (Z.ones 7). now rewrite Z.land_ones by lia. Qed.

Lemma low7_of_last n : Z.land (Z.land n 0x7f) 0x7f = n mod 128.
Proof.
  rewrite <- Z.land_assoc. change (Z.land 0x7f 0x7f) with 0x7f. apply low7.
Qed.

Lemma low7_of_more n : Z.land (Z.lor (Z.land n 0x7f) 0x80) 0x7f = n mod 128.
Proof.
  rewrite Z.land_lor_distr_l, <- Z.land_assoc.
  change (Z.land 0x7f 0x7f) with 0x7f. change (Z.land 0x80 0x7f) with 0.
  rewrite Z.lor_0_r. apply low7.
Qed.

Lemma more_flag_set n : Z.land (Z.lor (Z.land n 0x7f) 0x80) 0x80 = 0x80.
Proof.
  rewrite Z.land_lor_distr_l, <- Z.land_assoc.
  change (Z.land 0x7f 0x80) with 0. now rewrite Z.land_0_r.
Qed.

Lemma more_flag_clear n : Z.land (Z.land n 0x7f) 0x80 = 0.
Proof.
  rewrite <- Z.land_assoc. change (Z.land 0x7f 0x80) with 0.
  apply Z.land_0_r.
Qed.

(** One header byte of a prefix that stays within [int] and within the
    cap: the seven bits are added above the ones already read. *)
Lemma Read_header_digit acc sh b v :
  0 <= sh < INT_BITS -> 0 <= acc < 2 ^ sh -> 0 <= v ->
  Z.land b 0x7f = v ->
  acc + v * 2 ^ sh <= INT_MAX ->
  acc + v * 2 ^ sh <= PROTO_MAX_MESSAGE_LEN ->
  Read_header (header_state acc sh) b =
  Header_next
    (if negb (Z.land b 0x80 =? 0)
     then header_state (acc + v * 2 ^ sh) (sh + 7)
     else if negb (acc + v * 2 ^ sh =? 0)
          then body_state (acc + v * 2 ^ sh)
          else header_state (acc + v * 2 ^ sh) 0).
Proof.
  intros Hsh Hacc Hv Hb Hint Hmax. unfold Read_header. cbn [shift message_size header_state to_read reading_header].
  rewrite Hb. unfold shift_left_int.
  replace ((0 <=? sh) && (sh <? INT_BITS)) with true
    by (symmetry; apply andb_true_iff; split; [apply Z.leb_le|apply Z.ltb_lt]; lia).
  rewrite Z.shiftl_mul_pow2 by lia.
  assert (Hp : 0 < 2 ^ sh) by (apply Z.pow_pos_nonneg; lia).
  assert (Hr : 0 <= v * 2 ^ sh <= INT_MAX) by nia.
  unfold INT_MAX, INT_BITS in *.
  replace (to_int (v * 2 ^ sh)) with (v * 2 ^ sh).
  2:{ unfold to_int, INT_BITS. rewrite Z.mod_small; lia. }
  replace (to_size_t (v * 2 ^ sh)) with (v * 2 ^ sh).
  2:{ unfold to_size_t, SIZE_BITS. rewrite Z.mod_small; lia. }
  rewrite lor_shift_add by lia.
  replace (PROTO_MAX_MESSAGE_LEN <? acc + v * 2 ^ sh) with false
    by (symmetry; apply Z.ltb_ge; lia).
  unfold header_state, body_state.
  destruct (negb (Z.land b 128 =? 0)); [reflexivity|].
  destruct (negb (acc + v * 2 ^ sh =? 0)); reflexivity.
Qed.


Lemma encode_header_loop_S fuel n :
  encode_header_loop (S fuel) n =
  if Z.shiftr n 7 =? 0 then [Z.land n 0x7f]
  else Z.lor (Z.land n 0x7f) 0x80 :: encode_header_loop fuel (Z.shiftr n 7).
Proof. reflexivity. Qed.

Lemma rx_step_header f b rest frames f' :
  reading_header f = true -> to_read f = 1 ->
  Read_header f b = Header_next f' ->
  rx_step (rx f (b :: rest) frames) = Some (rx f' rest frames).
Proof.
  intros Hh Hr E. unfold rx_step, rx.
  cbn [rx_status rx_framing rx_inbox rx_frames]. rewrite Hr.
  change (Z.to_nat 1) with 1%nat. cbn [length Nat.ltb Nat.leb andb take drop].
  unfold Read_frame. now rewrite Hh, E.
Qed.

(** The bytes the encoder loop writes for [n] are a run of header bytes
    that adds [n] above the bits already read. *)
Lemma encode_header_run fuel : forall n acc sh,
  0 <= n < 2 ^ (7 * Z.of_nat (S fuel)) ->
  0 <= sh < INT_BITS -> 0 <= acc < 2 ^ sh ->
  acc + n * 2 ^ sh <= INT_MAX ->
  acc + n * 2 ^ sh <= PROTO_MAX_MESSAGE_LEN ->
  header_run (header_state acc sh) (encode_header_loop (S fuel) n)
    (if negb (acc + n * 2 ^ sh =? 0)
     then body_state (acc + n * 2 ^ sh)
     else header_state (acc + n * 2 ^ sh) 0).
Proof.
  induction fuel as [|fuel IH]; intros n acc sh Hn Hsh Hacc Hint Hmax.
  all: assert (Hp : 0 < 2 ^ sh) by (apply Z.pow_pos_nonneg; lia).
  all: assert (Hdm : n = 128 * (n / 128) + n mod 128) by (apply Z.div_mod; lia).
  all: assert (Hm : 0 <= n mod 128 < 128) by (apply Z.mod_pos_bound; lia).
  all: assert (Hd : 0 <= n / 128) by (apply Z.div_pos; lia).
  all: assert (Hdigit : forall b, Z.land b 0x7f = n mod 128 ->
         Read_header (header_state acc sh) b =
         Header_next
           (if negb (Z.land b 0x80 =? 0)
            then header_state (acc + n mod 128 * 2 ^ sh) (sh + 7)
            else if negb (acc + n mod 128 * 2 ^ sh =? 0)
                 then body_state (acc + n mod 128 * 2 ^ sh)
                 else header_state (acc + n mod 128 * 2 ^ sh) 0))
       by (intros b Hb; apply Read_header_digit; [lia|lia|lia|exact Hb|nia|nia]).
  all: rewrite encode_header_loop_S, Z.shiftr_div_pow2 by lia;
       change (2 ^ 7) with 128.
  - assert (n / 128 = 0) as Hz by (apply Z.div_small; cbn in Hn; lia).
    rewrite Hz. cbn [Z.eqb].
    specialize (Hdigit _ (low7_of_last n)). rewrite more_flag_clear in Hdigit.
    cbn [Z.eqb negb] in Hdigit.
    replace (n mod 128) with n in Hdigit by lia.
    now apply header_run_last.
  - destruct (n / 128 =? 0) eqn:Ez.
    + apply Z.eqb_eq in Ez.
      specialize (Hdigit _ (low7_of_last n)). rewrite more_flag_clear in Hdigit.
      cbn [Z.eqb negb] in Hdigit.
      replace (n mod 128) with n in Hdigit by lia.
      now apply header_run_last.
    + apply Z.eqb_neq in Ez.
      assert (Hbig : 2 ^ (sh + 7) <= INT_MAX).
      { rewrite Z.pow_add_r by lia. change (2 ^ 7) with 128. nia. }
      assert (Hsh7 : sh + 7 < INT_BITS).
      { unfold INT_MAX, INT_BITS in *.
        destruct (Z.lt_ge_cases (sh + 7) 31) as [?|Hge]; [lia|].
        apply (Z.pow_le_mono_r 2) in Hge; lia. }
      specialize (Hdigit _ (low7_of_more n)). rewrite more_flag_set in Hdigit.
      cbn [Z.eqb negb] in Hdigit.
      assert (Hpow : 2 ^ (sh + 7) = 128 * 2 ^ sh)
        by (rewrite Z.pow_add_r by lia; change (2 ^ 7) with 128; lia).
      eapply header_run_more; [reflexivity|reflexivity|exact Hdigit|].
      replace (acc + n * 2 ^ sh)
        with (acc + n mod 128 * 2 ^ sh + n / 128 * 2 ^ (sh + 7)) by nia.
      apply IH.
      * split; [lia|].
        apply Z.div_lt_upper_bound; [lia|].
        replace (7 * Z.of_nat (S (S fuel))) with (7 + 7 * Z.of_nat (S fuel)) in Hn by lia.
        rewrite Z.pow_add_r in Hn by lia. change (2 ^ 7) with 128 in Hn. lia.
      * lia.
      * split; [nia|]. nia.
      * nia.
      * nia.
Qed.

(** The length prefix of a payload the decoder accepts, from the initial
    state. *)
Lemma encode_header_initial L :
  0 <= L <= PROTO_MAX_MESSAGE_LEN -> L <= INT_MAX ->
  header_run initial_framing (encode_header L)
    (if negb (L =? 0) then body_state L else initial_framing).
Proof.
  intros [Hpos Hmax] Hint.
  pose proof (encode_header_run 31 L 0 0) as Hrun.
  replace (0 + L * 2 ^ 0) with L in Hrun by lia.
  change (header_state L 0) with
    {| to_read := 1; message_size := L; reading_header := true; shift := 0 |}
    in Hrun.
  unfold encode_header. change (Z.to_nat INT_BITS) with (S 31).
  change initial_framing with (header_state 0 0).
  destruct (L =? 0) eqn:E.
  - apply Z.eqb_eq in E. subst L. apply Hrun; cbn; unfold INT_BITS, INT_MAX in *; lia.
  - apply Hrun.
    + unfold INT_MAX, INT_BITS in Hint. split; [lia|].
      eapply Z.le_lt_trans; [apply Hint|]. reflexivity.
    + unfold INT_BITS; lia.
    + change (2 ^ 0) with 1. lia.
    + lia.
    + lia.
Qed.

(** The receiver follows a run of header bytes. *)
Lemma settle_header_run f bytes f' :
  header_run f bytes f' ->
  forall rest frames,
    settle (rx f (bytes ++ rest) frames) = settle (rx f' rest frames).
Proof.
  induction 1 as [f b f' Hh Hr E|f b f1 bytes f' Hh Hr E _ IH];
    intros rest frames; cbn [app].
  - now rewrite (settle_step _ _ (rx_step_header _ _ rest frames _ Hh Hr E)).
  - rewrite (settle_step _ _ (rx_step_header _ _ _ frames _ Hh Hr E)).
    apply IH.
Qed.

Lemma new_receiver_idle : rx_step new_receiver = None.
Proof. reflexivity. Qed.

(** The whole encoding of a non-empty payload, arriving at once: the
    receiver takes the prefix and hands over the payload. *)
Lemma receive_user_data payload :
  0 < Z.of_nat (length payload) <= PROTO_MAX_MESSAGE_LEN ->
  Z.of_nat (length payload) <= INT_MAX ->
  receive new_receiver (encode_user_data payload) =
  {| rx_framing := body_state (Z.of_nat (length payload)); rx_inbox := [];
     rx_frames := [payload]; rx_status := Handed_over |}.
Proof.
  intros [Hpos Hmax] Hint. set (L := Z.of_nat (length payload)) in *.
  pose proof (encode_header_initial L ltac:(lia) Hint) as Hrun.
  replace (negb (L =? 0)) with true in Hrun
    by (symmetry; apply negb_true_iff, Z.eqb_neq; lia).
  unfold receive, push, new_receiver, encode_user_data.
  cbn [rx_framing rx_inbox rx_frames rx_status app]. fold L.
  fold (rx initial_framing (encode_header L ++ payload) []).
  rewrite (settle_header_run _ _ _ Hrun).
  assert (Hn : Z.to_nat L = length payload) by (unfold L; lia).
  assert (Hstep : rx_step (rx (body_state L) payload []) =
                  Some {| rx_framing := body_state L; rx_inbox := [];
                          rx_frames := [payload]; rx_status := Handed_over |}).
  { unfold rx_step, rx.
    cbn [rx_status rx_framing rx_inbox rx_frames body_state to_read].
    rewrite Hn.
    replace ((0 <? length payload)%nat && (length payload <=? length payload)%nat)
      with true
      by (symmetry; apply andb_true_iff; split;
          [apply Nat.ltb_lt|apply Nat.leb_le]; lia).
    now rewrite firstn_all, skipn_all. }
  rewrite (settle_step _ _ Hstep). now apply settle_stuck.
Qed.

(** Five continuation bytes that carry no length bits pass the size check
    and leave the decoder in header state with a shift count of 35. *)
Lemma five_continuation_bytes :
  0 <= PROTO_MAX_MESSAGE_LEN ->
  receive new_receiver (repeat 0x80 5) = rx (header_state 0 35) [] [].
Proof.
  intros Hmax.
  assert (Hstep : forall sh rest, 0 <= sh < INT_BITS ->
            rx_step (rx (header_state 0 sh) (0x80 :: rest) []) =
            Some (rx (header_state 0 (sh + 7)) rest [])).
  { intros sh rest Hsh. apply rx_step_header; [reflexivity|reflexivity|].
    assert (Hp : 0 < 2 ^ sh) by (apply Z.pow_pos_nonneg; lia).
    rewrite (Read_header_digit 0 sh 0x80 0).
    - reflexivity.
    - exact Hsh.
    - lia.
    - lia.
    - reflexivity.
    - unfold INT_MAX, INT_BITS. cbn. lia.
    - cbn. exact Hmax. }
  unfold receive, push, new_receiver.
  cbn [rx_framing rx_inbox rx_frames rx_status app repeat].
  change initial_framing with (header_state 0 0).
  fold (rx (header_state 0 0) [0x80; 0x80; 0x80; 0x80; 0x80] []).
  unfold INT_BITS in Hstep.
  rewrite (settle_step _ _ (Hstep 0 _ ltac:(lia))).
  rewrite (settle_step _ _ (Hstep 7 _ ltac:(lia))).
  rewrite (settle_step _ _ (Hstep 14 _ ltac:(lia))).
  rewrite (settle_step _ _ (Hstep 21 _ ltac:(lia))).
  rewrite (settle_step _ _ (Hstep 28 _ ltac:(lia))).
  now apply settle_stuck.
Qed.

(** C8: the decoder does not bound the length prefix.  After five
    continuation bytes [0x80] the connection is neither failed nor past
    its header, and whatever the sixth byte is, [(byte & 0x7f) << shift]
    is evaluated with a shift count of 35 on an [int]: the expression is
    undefined. *)
Theorem header_shift_unbounded (byte : Z) :
  0 <= PROTO_MAX_MESSAGE_LEN ->
  receive new_receiver (repeat 0x80 5) = rx (header_state 0 35) [] []
  /\ rx_status (receive new_receiver (repeat 0x80 5 ++ [byte]))
     = Failed_undefined.
Proof.
  intros Hmax. split; [now apply five_continuation_bytes|].
  rewrite <- receive_receive, five_continuation_bytes by assumption.
  reflexivity.
Qed.

End Codec.

(** ** Sending on one connection *)

Section Router.
Context `{Platform}.

Lemma store_same sid ctx s :
  Assoc.find sid (ucs_connections s) = Some ctx -> store sid ctx s = s.
Proof.
  intros Hf. unfold store, set_ucs_connections.
  rewrite replace_same by assumption. now destruct s.
Qed.

Lemma find_store sid ctx ctx' s :
  Assoc.find sid (ucs_connections s) = Some ctx ->
  Assoc.find sid (ucs_connections (store sid ctx' s)) = Some ctx'.
Proof. intros Hf. cbn. now rewrite find_replace, Hf. Qed.

(** What the tail of a send does. *)
Lemma Send_ucs_message_write_spec sid ctx0 ctx m s :
  Assoc.find sid (ucs_connections s) = Some ctx0 ->
  let m' := fst (Send_ucs_message_write sid ctx m s) in
  let s' := snd (Send_ucs_message_write sid ctx m s) in
  transmitted sid m' s s'
  /\ Assoc.find sid (ucs_connections s') = Some ctx
  /\ ucs_connections s' = Assoc.replace sid ctx (ucs_connections s)
  /\ vehicles s' = vehicles s
  /\ m' = (if negb (has (message_id m))
              && bool_decide (response_required m = Some true)
           then set_message_id (ucs_id_counter s) m else m).
Proof.
  intros Hf. unfold Send_ucs_message_write, transmitted.
  destruct (negb (has (message_id m)) && _); cbn;
    rewrite find_replace, Hf; auto.
Qed.

Lemma first_pending_of_None d l :
  first_pending_of d l = None -> forall k, Assoc.find k l <> Some d.
Proof.
  induction l as [|[k0 v0] l IH]; cbn; intros Hn k; [discriminate|].
  destruct (v0 =? d) eqn:E; [discriminate|].
  destruct (k0 =? k); [|now apply IH].
  intros [= ->]. now rewrite Z.eqb_refl in E.
Qed.

Lemma first_pending_of_Some d l k0 :
  NoDup (Assoc.keys l) ->
  first_pending_of d l = Some k0 -> Assoc.find k0 l = Some d.
Proof.
  unfold Assoc.keys.
  induction l as [|[k1 v1] l IH]; cbn; intros Hnd; [discriminate|].
  apply NoDup_cons in Hnd as [Hk Hnd].
  destruct (v1 =? d) eqn:E.
  - intros [= <-]. rewrite Z.eqb_refl. apply Z.eqb_eq in E. now subst.
  - intros Hfp. specialize (IH Hnd Hfp).
    destruct (k1 =? k0) eqn:Ek; [|exact IH].
    apply Z.eqb_eq in Ek. subst k1. exfalso. apply Hk.
    apply list_elem_of_In. exact (find_Some_In_keys _ _ _ IH).
Qed.

(** The loop over the pending registrations on [unregister_device]
    erases one entry of the device, if it has one, and nothing else. *)
Lemma erase_first_pending_spec d l :
  NoDup (Assoc.keys l) ->
  ((forall k, Assoc.find k l <> Some d) -> erase_first_pending d l = l)
  /\ ((exists k, Assoc.find k l = Some d) ->
      exists k0,
        Assoc.find k0 l = Some d
        /\ Assoc.find k0 (erase_first_pending d l) = None
        /\ forall k, k <> k0 ->
             Assoc.find k (erase_first_pending d l) = Assoc.find k l).
Proof.
  intros Hnd. unfold erase_first_pending.
  destruct (first_pending_of d l) as [k0|] eqn:Hfp.
  - pose proof (first_pending_of_Some _ _ _ Hnd Hfp) as Hk0. split.
    + intros Hnone. now destruct (Hnone k0).
    + intros _. exists k0. split; [exact Hk0|]. split.
      * now apply find_erase_same.
      * intros k Hne. apply find_erase_ne. congruence.
  - split; [reflexivity|].
    intros [k Hk]. now destruct (first_pending_of_None _ _ Hfp k).
Qed.

(** C6: a send on a connection whose peer is known and which is
    compatible; [pending_registrations] is a map, so its keys are distinct.
    - A [register_device] message is always transmitted, as the caller's
      message with [response_required] set and the next id as its
      [message_id]; that id is mapped to the device in
      [pending_registrations] unless it was a key already, and nothing else
      in the connection changes.
    - Any other message with a non-zero [device_id] that is not in
      [registered_devices] is dropped: neither the state nor the message
      changes.
    - If the [device_id] is in [registered_devices], the message is
      transmitted: as it is, or with the next id as its [message_id] when
      a response is required and no id is set.  When it is an
      [unregister_device], the device leaves [registered_devices] and ONE
      pending registration of the device is erased, if there is one; every
      other entry stays.  So the code does not do what the claim says:
      when two pending registrations map to the device, one of them still
      maps to it after the send, whichever order the map is iterated
      in. *)
Theorem Send_ucs_message_device_gate sid ctx u m s :
  Assoc.find sid (ucs_connections s) = Some ctx ->
  ucs_id ctx = Some u ->
  is_compatible ctx = true ->
  NoDup (Assoc.keys (pending_registrations ctx)) ->
  let d := get_device_id m in
  let next_id := ucs_id_counter s in
  let m' := fst (Send_ucs_message sid m s) in
  let s' := snd (Send_ucs_message sid m s) in
  (register_device m <> None ->
     m' = set_message_id next_id (set_response_required true m)
     /\ transmitted sid m' s s'
     /\ exists ctx',
          Assoc.find sid (ucs_connections s') = Some ctx'
          /\ session ctx' = session ctx
          /\ registered_devices ctx' = registered_devices ctx
          /\ (forall k, k <> next_id ->
                Assoc.find k (pending_registrations ctx')
                = Assoc.find k (pending_registrations ctx))
          /\ (Assoc.find next_id (pending_registrations ctx) = None ->
              Assoc.find next_id (pending_registrations ctx') = Some d))
  /\ (register_device m = None -> d <> 0 ->
      d ∉ registered_devices ctx -> m' = m /\ s' = s)
  /\ (register_device m = None -> d <> 0 ->
      d ∈ registered_devices ctx ->
      (message_id m <> None \/ response_required m <> Some true -> m' = m)
      /\ (message_id m = None -> response_required m = Some true ->
          m' = set_message_id next_id m)
      /\ transmitted sid m' s s'
      /\ exists ctx',
           Assoc.find sid (ucs_connections s') = Some ctx'
           /\ session ctx' = session ctx
           /\ (unregister_device m = None -> ctx' = ctx)
           /\ (unregister_device m <> None ->
               registered_devices ctx' = registered_devices ctx ∖ {[d]}
               /\ ((forall k, Assoc.find k (pending_registrations ctx)
                              <> Some d) ->
                   pending_registrations ctx' = pending_registrations ctx)
               /\ ((exists k, Assoc.find k (pending_registrations ctx)
                              = Some d) ->
                   exists k0,
                     Assoc.find k0 (pending_registrations ctx) = Some d
                     /\ Assoc.find k0 (pending_registrations ctx') = None
                     /\ forall k, k <> k0 ->
                          Assoc.find k (pending_registrations ctx')
                          = Assoc.find k (pending_registrations ctx))
               /\ (forall k1 k2, k1 <> k2 ->
                     Assoc.find k1 (pending_registrations ctx) = Some d ->
                     Assoc.find k2 (pending_registrations ctx) = Some d ->
                     Assoc.find k1 (pending_registrations ctx') = Some d
                     \/ Assoc.find k2 (pending_registrations ctx') = Some d))).
Proof.
  intros Hf Hu Hc Hnd d next_id m' s'. subst m' s'.
  unfold Send_ucs_message. rewrite Hf, Hu, Hc. cbn [has negb andb].
  split; [|split].
  - intros Hreg.
    destruct (register_device m) as [r|] eqn:Er; [clear Hreg|congruence].
    cbn [has Get_next_id].
    set (m1 := set_message_id _ _).
    set (s1 := Build_Cucs_processor _ _ _ _ _ _).
    set (c1 := set_pending_registrations _ _).
    assert (Hf1 : Assoc.find sid (ucs_connections s1) = Some ctx) by exact Hf.
    destruct (Send_ucs_message_write_spec sid ctx c1 m1 s1 Hf1)
      as (Ht & Hfc & _ & _ & Hm).
    cbn [has message_id m1 set_message_id negb andb] in Hm.
    split; [exact Hm|]. split; [exact Ht|].
    exists c1. split; [exact Hfc|]. split; [reflexivity|].
    split; [reflexivity|]. subst c1 m1. cbn. split.
    + intros k Hne. apply find_emplace_ne. fold next_id. congruence.
    + apply find_emplace_fresh.
  - intros -> Hd Hnin. cbn [has].
    replace (negb (get_device_id m =? 0)) with true
      by (symmetry; apply negb_true_iff, Z.eqb_neq; exact Hd).
    now rewrite bool_decide_eq_false_2.
  - intros Hreg Hd Hin. rewrite Hreg. cbn [has].
    replace (negb (get_device_id m =? 0)) with true
      by (symmetry; apply negb_true_iff, Z.eqb_neq; exact Hd).
    rewrite bool_decide_eq_true_2 by exact Hin.
    assert (Hid : forall c,
      let m' := fst (Send_ucs_message_write sid c m s) in
      (message_id m <> None \/ response_required m <> Some true -> m' = m)
      /\ (message_id m = None -> response_required m = Some true ->
          m' = set_message_id next_id m)
      /\ transmitted sid m' s (snd (Send_ucs_message_write sid c m s))
      /\ Assoc.find sid
           (ucs_connections (snd (Send_ucs_message_write sid c m s)))
         = Some c).
    { intros c.
      destruct (Send_ucs_message_write_spec sid ctx c m s Hf)
        as (Ht & Hfc & _ & _ & Hm).
      cbv zeta. rewrite Hm. repeat split; try assumption.
      - intros [Hset|Hrr].
        + destruct (message_id m); [reflexivity|congruence].
        + rewrite (bool_decide_eq_false_2 _ Hrr). now rewrite andb_false_r.
      - intros -> Hrr. now rewrite (bool_decide_eq_true_2 _ Hrr).
      - now rewrite <- Hm. }
    destruct (unregister_device m) as [[]|] eqn:Eu; cbn [has].
    + match goal with
      | |- context [Send_ucs_message_write sid ?c m s] =>
          destruct (Hid c) as (Hkeep & Hnew & Ht & Hfc); set (c1 := c) in *
      end.
      split; [exact Hkeep|]. split; [exact Hnew|]. split; [exact Ht|].
      exists c1. split; [exact Hfc|]. split; [reflexivity|].
      split; [discriminate|]. intros _.
      destruct (erase_first_pending_spec d (pending_registrations ctx) Hnd)
        as [Hnone Hsome].
      split; [reflexivity|]. split; [exact Hnone|]. split; [exact Hsome|].
      intros k1 k2 Hne H1 H2.
      destruct (Hsome (ex_intro _ k1 H1)) as (k0 & _ & _ & Hrest).
      subst c1. cbn [pending_registrations set_pending_registrations].
      destruct (Z.eq_dec k1 k0) as [->|Hk].
      * right. rewrite Hrest by congruence. exact H2.
      * left. rewrite Hrest by exact Hk. exact H1.
    + destruct (Hid ctx) as (Hkeep & Hnew & Ht & Hfc).
      split; [exact Hkeep|]. split; [exact Hnew|]. split; [exact Ht|].
      exists ctx. split; [exact Hfc|]. split; [reflexivity|].
      split; [reflexivity|]. intros Hx. now destruct Hx.
Qed.


(** A [device_response] whose [message_id] is a pending registration, on a
    connection of a known peer that is stored under its own stream id:
    the state the handler leaves, by status code. *)
Lemma Message_parsed_registration_response sid connection ucs device vsm_msg
  response now s :
  Assoc.find sid (ucs_connections s) = Some connection ->
  stream_id connection = sid ->
  ucs_id connection = Some ucs ->
  device_response vsm_msg = Some response ->
  Assoc.find (get_message_id vsm_msg) (pending_registrations connection)
  = Some device ->
  Message_parsed sid connection vsm_msg now s =
  (true,
   after_registration_response sid connection ucs device vsm_msg response
     now s).
Proof.
  intros Hf Hsid Hu Hresp Hpend.
  unfold Message_parsed. rewrite Hu, Hresp, Hpend. f_equal.
  set (c0 := set_last_message_time now connection).
  assert (Hf0 : Assoc.find sid (ucs_connections (store sid c0 s)) = Some c0)
    by (eapply find_store; eassumption).
  unfold Registration_response, after_registration_response. fold c0.
  assert (Herase : forall c evs s0,
    Assoc.find sid (ucs_connections s0) = Some c ->
    ucs_connections s0 = Assoc.replace sid c (ucs_connections s) ->
    vehicles s0 = vehicles s -> ucs_id_counter s0 = ucs_id_counter s ->
    keep_alive_timeout s0 = keep_alive_timeout s ->
    transport_detector_on_when_diconnected s0
    = transport_detector_on_when_diconnected s ->
    trace s0 = trace s ++ evs ->
    update_connection sid (fun c =>
      set_pending_registrations
        (Assoc.erase (get_message_id vsm_msg) (pending_registrations c)) c) s0
    = {| ucs_connections :=
           Assoc.replace sid
             (set_pending_registrations
                (Assoc.erase (get_message_id vsm_msg) (pending_registrations c))
                c) (ucs_connections s);
         vehicles := vehicles s;
         ucs_id_counter := ucs_id_counter s;
         keep_alive_timeout := keep_alive_timeout s;
         transport_detector_on_when_diconnected :=
           transport_detector_on_when_diconnected s;
         trace := trace s ++ evs |}).
  { intros c evs s0 Hfc Hcs Hv Hn Hk Ht Htr.
    unfold update_connection. rewrite Hfc. unfold store, set_ucs_connections.
    rewrite Hcs, replace_replace, Hv, Hn, Hk, Ht, Htr. reflexivity. }
  destruct (code response) eqn:Ecode.
  - (* STATUS_OK *)
    cbn [emit vehicles store set_ucs_connections].
    destruct (Assoc.find device (vehicles s)) as [v|] eqn:Ev.
    + set (s1 := emit (Log (LOG_registered device ucs)) (store sid c0 s)).
      assert (Hf1 : Assoc.find sid (ucs_connections s1) = Some c0) by exact Hf0.
      unfold update_connection at 2. rewrite Hf1.
      set (c1 := set_registered_devices _ c0).
      set (s2 := store sid c1 s1).
      assert (Hf2 : Assoc.find sid (ucs_connections s2) = Some c1)
        by (eapply find_store; eassumption).
      unfold Notify_device_about_ucs_connections, Get_device.
      replace (vehicles s2) with (vehicles s) by reflexivity. rewrite Ev.
      set (s3 := emit _ s2).
      assert (Hf3 : Assoc.find sid (ucs_connections s3) = Some c1) by exact Hf2.
      rewrite Hsid.
      assert (Hsend : Send_ucs_message_ptr sid (cached_status device v) s3 =
                if is_compatible connection then
                  emit (Stream_write sid (cached_status device v)
                          (encode_user_data
                             (SerializeToArray (cached_status device v)))) s3
                else s3).
      { unfold Send_ucs_message_ptr, Send_ucs_message. rewrite Hf3.
        replace (ucs_id c1) with (Some ucs) by (symmetry; exact Hu).
        change (is_compatible c1) with (is_compatible connection).
        cbn [has negb andb].
        destruct (is_compatible connection); [|reflexivity].
        cbn [has negb andb cached_status register_device unregister_device].
        change (get_device_id _) with device.
        assert (Hin : device ∈ registered_devices c1)
          by (subst c1; cbn; set_solver).
        rewrite (bool_decide_eq_true_2 _ Hin).
        assert (Hw : Send_ucs_message_write sid c1 (cached_status device v) s3
                     = (cached_status device v,
                        emit (Stream_write sid (cached_status device v)
                                (encode_user_data
                                   (SerializeToArray (cached_status device v))))
                          s3)).
        { unfold Send_ucs_message_write. rewrite (store_same _ _ _ Hf3).
          reflexivity. }
        fold (cached_status device v). rewrite Hw.
        now destruct (negb (device =? 0)). }
      rewrite Hsend.
      erewrite Herase; [reflexivity|..].
      * destruct (is_compatible connection); exact Hf3.
      * subst s3 s2 s1. destruct (is_compatible connection); cbn;
          now rewrite replace_replace.
      * now destruct (is_compatible connection).
      * now destruct (is_compatible connection).
      * now destruct (is_compatible connection).
      * now destruct (is_compatible connection).
      * subst s3 s2 s1. destruct (is_compatible connection); cbn;
          rewrite <- !app_assoc; cbn; rewrite ?app_nil_r;
          now rewrite replace_replace.
    + erewrite Herase; [reflexivity|exact Hf0|reflexivity..].
  - erewrite Herase; [reflexivity|exact Hf0|reflexivity..].
  - erewrite Herase; [reflexivity|exact Hf0|reflexivity..].
  - cbn. now destruct s.
  - erewrite Herase; [reflexivity|exact Hf0|reflexivity..].
Qed.

Lemma filter_not_NA (l : list Telemetry_field) :
  List.filter not_NA l
  = filter (fun e => meta_value (value e) <> Some META_VALUE_NA) l.
Proof.
  induction l as [|e l IH]; [reflexivity|].
  cbn [List.filter]. rewrite filter_cons, IH. unfold not_NA.
  destruct (meta_value (value e)) as [[|n]|];
    destruct (decide _) as [Hd|Hd]; try reflexivity.
  - now destruct Hd.
  - destruct Hd. discriminate.
  - destruct Hd. discriminate.
Qed.

Lemma ucs_data_of_filter d (l : list (Z * Server_context)) :
  ucs_data_of d l
  = map (fun kv => peer_info kv.2)
      (filter (fun kv => d ∈ registered_devices kv.2) l).
Proof.
  induction l as [|[k c] l IH]; [reflexivity|].
  cbn [ucs_data_of]. rewrite filter_cons. cbn [snd].
  destruct (decide (d ∈ registered_devices c)) as [Hd|Hd].
  - rewrite (bool_decide_eq_true_2 _ Hd). cbn [map snd]. now rewrite IH.
  - now rewrite (bool_decide_eq_false_2 _ Hd).
Qed.

Lemma ucs_data_of_pending d sid p c (l : list (Z * Server_context)) :
  ucs_data_of d (Assoc.replace sid (set_pending_registrations p c) l)
  = ucs_data_of d (Assoc.replace sid c l).
Proof.
  induction l as [|[k0 c0] l IH]; [reflexivity|].
  cbn [Assoc.replace]. destruct (k0 =? sid); cbn [ucs_data_of];
    [reflexivity|]. now rewrite IH.
Qed.

(** C5, as amended: a [device_response] on a connection of a known peer,
    stored under its own stream id, whose [message_id] is a pending
    registration of [device].  The handler goes on to the next header;
    in the processor only this connection and the trace change, and in
    the connection only [last_message_time], which is set to the time of
    the message, [registered_devices] and [pending_registrations].  By
    status code:
    - STATUS_OK and the device is still in [vehicles]: the device is
      inserted in [registered_devices] and the pending entry is erased;
      the registration is logged, the device is told its peer set, one
      record for each connection on which it is registered now, and on a
      compatible connection a message for the device is written to this
      stream that carries nothing but a [device_status]: the entries of
      the telemetry cache whose meta value is not N/A, in cache order, and
      every entry of the availability cache (nothing is written on an
      incompatible connection);
    - STATUS_OK and the device is no longer in [vehicles]: the pending
      entry is erased, the registration is logged, and that is all;
    - STATUS_IN_PROGRESS: the pending entry is kept;
    - any other code: the pending entry is erased and the device is not
      registered. *)
Theorem registration_response_handled sid connection ucs device vsm_msg
  response now s :
  Assoc.find sid (ucs_connections s) = Some connection ->
  stream_id connection = sid ->
  ucs_id connection = Some ucs ->
  device_response vsm_msg = Some response ->
  Assoc.find (get_message_id vsm_msg) (pending_registrations connection)
  = Some device ->
  exists connection' events,
    Message_parsed sid connection vsm_msg now s
    = (true,
       {| ucs_connections := Assoc.replace sid connection' (ucs_connections s);
          vehicles := vehicles s;
          ucs_id_counter := ucs_id_counter s;
          keep_alive_timeout := keep_alive_timeout s;
          transport_detector_on_when_diconnected :=
            transport_detector_on_when_diconnected s;
          trace := trace s ++ events |})
    /\ session connection' = session (set_last_message_time now connection)
    /\ let erased :=
         Assoc.erase (get_message_id vsm_msg)
           (pending_registrations connection) in
       match code response with
       | STATUS_OK =>
           match Assoc.find device (vehicles s) with
           | Some v =>
               let peers :=
                 map (fun kv => peer_info kv.2)
                   (filter (fun kv => device ∈ registered_devices kv.2)
                      (Assoc.replace sid connection' (ucs_connections s))) in
               let replay :=
                 {| device_id := Some device; message_id := None;
                    response_required := None; register_peer := None;
                    register_device := None; unregister_device := None;
                    device_status :=
                      Some
                        {| telemetry_fields :=
                             filter
                               (fun e =>
                                  meta_value (value e) <> Some META_VALUE_NA)
                               (map snd (telemetry_cache v));
                           command_availability :=
                             map snd (availability_cache v) |};
                    device_response := None |} in
               registered_devices connection'
               = {[device]} ∪ registered_devices connection
               /\ pending_registrations connection' = erased
               /\ events
                  = [Log (LOG_registered device ucs);
                     Handle_ucs_info device peers]
                    ++ (if is_compatible connection then
                          [Stream_write sid replay
                             (encode_user_data (SerializeToArray replay))]
                        else [])
           | None =>
               registered_devices connection' = registered_devices connection
               /\ pending_registrations connection' = erased
               /\ events = [Log (LOG_registered device ucs)]
           end
       | STATUS_IN_PROGRESS =>
           registered_devices connection' = registered_devices connection
           /\ pending_registrations connection'
              = pending_registrations connection
           /\ events = [Log (LOG_registration_in_progress device ucs)]
       | c =>
           registered_devices connection' = registered_devices connection
           /\ pending_registrations connection' = erased
           /\ events = [Log (LOG_registration_failed device ucs c)]
       end.
Proof.
  intros Hf Hsid Hu Hresp Hpend.
  rewrite (Message_parsed_registration_response sid connection ucs device
             vsm_msg response now s Hf Hsid Hu Hresp Hpend).
  unfold after_registration_response.
  destruct (code response).
  - destruct (Assoc.find device (vehicles s)) as [v|].
    + eexists _, _. split; [reflexivity|]. split; [reflexivity|].
      cbv zeta. split; [reflexivity|]. split; [reflexivity|].
      rewrite <- ucs_data_of_filter, ucs_data_of_pending.
      unfold cached_status. now rewrite filter_not_NA.
    + eexists _, _. repeat split; reflexivity.
  - eexists _, _. repeat split; reflexivity.
  - eexists _, _. repeat split; reflexivity.
  - eexists _, _. repeat split; reflexivity.
  - eexists _, _. repeat split; reflexivity.
Qed.

End Router.

(** ** Teardown *)

Section Teardown.
Context `{Platform}.

Lemma ucs_connections_emit_all evs s :
  ucs_connections (emit_all evs s) = ucs_connections s.
Proof.
  unfold emit_all. revert s. induction evs as [|e evs IH]; intros s; cbn;
    [reflexivity|]. now rewrite IH.
Qed.

Lemma ucs_connections_notify d s :
  ucs_connections (Notify_device_about_ucs_connections d s) = ucs_connections s.
Proof.
  unfold Notify_device_about_ucs_connections. now destruct (Get_device d s).
Qed.

Lemma ucs_connections_notify_all ds s :
  ucs_connections
    (fold_left (fun s d => Notify_device_about_ucs_connections d s) ds s)
  = ucs_connections s.
Proof.
  revert s. induction ds as [|d ds IH]; intros s; cbn; [reflexivity|].
  now rewrite IH, ucs_connections_notify.
Qed.

Lemma Promote_loopback_find peer l k :
  Assoc.find k (Promote_loopback peer l).1.1 =
  promoted_loopback peer <$> Assoc.find k l.
Proof.
  induction l as [|[k0 u0] l IH]; cbn; [reflexivity|].
  destruct (Promote_loopback peer l) as [[l' evs] found].
  unfold promoted_loopback at 1.
  destruct (same_ucs peer u0 && _) eqn:E; cbn;
    destruct (k0 =? k); cbn; try exact IH.
  - unfold promoted_loopback. now rewrite E.
  - unfold promoted_loopback. now rewrite E.
Qed.

Lemma Promote_loopback_found peer l k u :
  Assoc.find k l = Some u -> same_ucs peer u = true ->
  Is_loopback_address (address u) = true ->
  (Promote_loopback peer l).2 = true.
Proof.
  induction l as [|[k0 u0] l IH]; cbn; [discriminate|].
  destruct (Promote_loopback peer l) as [[l' evs] found].
  destruct (k0 =? k).
  - intros [= ->] -> ->. reflexivity.
  - intros Hf Hs Hl. destruct (same_ucs peer u0 && _); cbn; [reflexivity|].
    now apply IH.
Qed.

(** C2: when a primary connection is closed, every surviving connection of
    the same peer that has a loopback address becomes primary, not just
    one of them. *)
Theorem failover_promotes_every_loopback sid c peer s k u :
  Assoc.find sid (ucs_connections s) = Some c ->
  primary c = true ->
  ucs_id c = Some peer ->
  k <> sid ->
  Assoc.find k (ucs_connections s) = Some u ->
  ucs_id u = Some peer ->
  Is_loopback_address (address u) = true ->
  Assoc.find k (ucs_connections (Close_ucs_stream sid s))
  = Some (set_primary true u).
Proof.
  intros Hf Hp Hu Hk Hfk Huk Hlo.
  assert (Hsame : same_ucs peer u = true)
    by (unfold same_ucs; rewrite Huk; apply Z.eqb_refl).
  unfold Close_ucs_stream. rewrite Hf, Hp, Hu.
  change (default 0 (Some peer)) with peer.
  cbn [emit set_ucs_connections ucs_connections].
  assert (Hfk' : Assoc.find k (Assoc.erase sid (ucs_connections s)) = Some u)
    by (rewrite find_erase_ne by congruence; exact Hfk).
  pose proof (Promote_loopback_find peer (Assoc.erase sid (ucs_connections s)) k)
    as Hfind.
  pose proof (Promote_loopback_found peer _ k u Hfk' Hsame Hlo) as Hfound.
  destruct (Promote_loopback peer (Assoc.erase sid (ucs_connections s)))
    as [[l evs] found].
  cbn in Hfind, Hfound. subst found. cbv beta iota zeta. cbn [negb].
  match goal with
  | |- context [if ?b then emit (Activate false) ?s0 else ?s0] =>
      replace (ucs_connections (if b then emit (Activate false) s0 else s0))
        with (ucs_connections s0) by (now destruct b)
  end.
  rewrite ucs_connections_notify_all, ucs_connections_emit_all.
  cbn [ucs_connections set_ucs_connections]. rewrite Hfind, Hfk'. cbn.
  unfold promoted_loopback. now rewrite Hsame, Hlo.
Qed.

(** C10: unregistering a device id that is not in [vehicles] throws
    [Invalid_param_exception]; the state at the throw is the state before
    the call, so [vehicles] is unchanged and nothing was broadcast. *)
Theorem Unregister_unknown_device_throws device_id s :
  Assoc.find device_id (vehicles s) = None ->
  On_unregister_vehicle device_id s = Thrown Invalid_param_exception s
  /\ process (Unregister_device device_id) s = Thrown Invalid_param_exception s.
Proof.
  intros Hf. unfold process, On_unregister_vehicle. now rewrite Hf.
Qed.

Lemma Promote_loopback_none peer l :
  (Promote_loopback peer l).2 = false -> (Promote_loopback peer l).1.1 = l.
Proof.
  induction l as [|[k u] l IH]; cbn; [reflexivity|].
  destruct (Promote_loopback peer l) as [[l' evs] found]. cbn in *.
  destruct (same_ucs peer u && _); cbn; [discriminate|].
  intros Hf. now rewrite IH.
Qed.

Lemma first_sibling_of_In peer l k u :
  first_sibling_of peer l = Some (k, u) -> In (k, u) l.
Proof.
  induction l as [|[k0 u0] l IH]; cbn; [discriminate|].
  destruct (same_ucs peer u0); [intros [= -> ->]; now left|].
  intros Hf. right. now apply IH.
Qed.

Lemma Promote_first_find peer l k :
  NoDup (Assoc.keys l) ->
  Assoc.find k (Promote_first peer l).1 =
  match first_sibling_of peer l with
  | Some (k0, u0) =>
      if k0 =? k then Some (set_primary true u0) else Assoc.find k l
  | None => Assoc.find k l
  end.
Proof.
  unfold Assoc.keys.
  induction l as [|[k1 u] l IH]; cbn [map fst]; intros Hnd; [reflexivity|].
  apply NoDup_cons in Hnd as [Hk1 Hnd]. specialize (IH Hnd).
  cbn [Promote_first first_sibling_of].
  destruct (same_ucs peer u).
  - cbn. now destruct (k1 =? k).
  - destruct (Promote_first peer l) as [l' evs]. cbn [fst Assoc.find] in *.
    destruct (k1 =? k) eqn:Ek; [|exact IH].
    apply Z.eqb_eq in Ek. subst k1.
    destruct (first_sibling_of peer l) as [[k0 u0]|] eqn:Efs; [|reflexivity].
    apply first_sibling_of_In in Efs.
    replace (k0 =? k) with false; [reflexivity|].
    symmetry. apply Z.eqb_neq. intros ->. apply Hk1.
    apply list_elem_of_In. change k with (fst (k, u0)). now apply in_map.
Qed.

(** The connections that survive the closing of a primary connection:
    with a loopback connection of the peer among them, every such
    connection is promoted; without one, the first connection of the
    peer is. *)
Lemma Close_ucs_stream_failover sid c peer s k :
  NoDup (Assoc.keys (ucs_connections s)) ->
  Assoc.find sid (ucs_connections s) = Some c ->
  primary c = true ->
  ucs_id c = Some peer ->
  let l := Assoc.erase sid (ucs_connections s) in
  Assoc.find k (ucs_connections (Close_ucs_stream sid s)) =
  if (Promote_loopback peer l).2
  then promoted_loopback peer <$> Assoc.find k l
  else match first_sibling_of peer l with
       | Some (k0, u0) =>
           if k0 =? k then Some (set_primary true u0) else Assoc.find k l
       | None => Assoc.find k l
       end.
Proof.
  intros Hnd Hf Hp Hu l.
  unfold Close_ucs_stream. rewrite Hf, Hp, Hu.
  change (default 0 (Some peer)) with peer.
  cbn [emit set_ucs_connections ucs_connections]. fold l.
  pose proof (Promote_loopback_find peer l k) as Hfind.
  pose proof (Promote_loopback_none peer l) as Hnone.
  destruct (Promote_loopback peer l) as [[l1 evs] found].
  cbn [fst snd] in *. cbv beta iota zeta.
  match goal with
  | |- context [if ?b then emit (Activate false) ?s0 else ?s0] =>
      replace (ucs_connections (if b then emit (Activate false) s0 else s0))
        with (ucs_connections s0) by (now destruct b)
  end.
  rewrite ucs_connections_notify_all.
  destruct found; cbn [negb].
  - rewrite ucs_connections_emit_all. exact Hfind.
  - rewrite ucs_connections_emit_all. cbn [set_ucs_connections ucs_connections].
    rewrite (Hnone eq_refl).
    pose proof (Promote_first_find peer l k (keys_erase_NoDup sid _ Hnd)) as Hpf.
    destruct (Promote_first peer l) as [l2 evs2]. cbn [fst] in Hpf.
    rewrite ucs_connections_emit_all. exact Hpf.
Qed.

End Teardown.

(** ** Handshake *)

Section Handshake.
Context `{Platform}.

Lemma sessions_replace l k c c' :
  Assoc.find k l = Some c -> session c' = session c ->
  sessions (Assoc.replace k c' l) = sessions l.
Proof.
  intros Hf Hs. unfold sessions.
  induction l as [|[k0 c0] l IH]; cbn in *; [reflexivity|].
  destruct (k0 =? k); cbn.
  - injection Hf as ->. now rewrite Hs.
  - now rewrite IH.
Qed.

Lemma sessions_find l l' k :
  sessions l = sessions l' ->
  session <$> Assoc.find k l = session <$> Assoc.find k l'.
Proof.
  unfold sessions.
  revert l'. induction l as [|[k0 c0] l IH]; intros [|[k1 c1] l']; cbn;
    try discriminate; [reflexivity|].
  intros Heq.
  assert (Hk : k0 = k1) by congruence.
  assert (Hs : session c0 = session c1) by congruence.
  assert (Hl : map (fun kv => (fst kv, session (snd kv))) l
               = map (fun kv => (fst kv, session (snd kv))) l') by congruence.
  subst k1. destruct (k0 =? k); cbn; [now rewrite Hs|now apply IH].
Qed.

Lemma Send_ucs_message_write_sessions sid ctx0 ctx m s s0 :
  Assoc.find sid (ucs_connections s) = Some ctx0 ->
  session ctx = session ctx0 ->
  ucs_connections s = ucs_connections s0 ->
  sessions (ucs_connections (snd (Send_ucs_message_write sid ctx m s)))
  = sessions (ucs_connections s0).
Proof.
  intros Hf Hs <-.
  destruct (Send_ucs_message_write_spec sid ctx0 ctx m s Hf)
    as (_ & _ & -> & _).
  now apply (sessions_replace _ _ ctx0).
Qed.

Lemma Send_ucs_message_sessions sid m s :
  sessions (ucs_connections (snd (Send_ucs_message sid m s)))
  = sessions (ucs_connections s).
Proof.
  unfold Send_ucs_message.
  destruct (Assoc.find sid (ucs_connections s)) as [ctx|] eqn:Hf;
    [|reflexivity].
  cbn [Get_next_id].
  repeat match goal with
         | |- context [if ?b then _ else _] => destruct b
         end;
    try reflexivity;
    (eapply Send_ucs_message_write_sessions; [exact Hf|reflexivity..]).
Qed.

Lemma Send_ucs_message_vehicles sid m s :
  vehicles (snd (Send_ucs_message sid m s)) = vehicles s.
Proof.
  unfold Send_ucs_message.
  destruct (Assoc.find sid (ucs_connections s)) as [ctx|] eqn:Hf;
    [|reflexivity].
  repeat match goal with
         | |- context [if ?b then _ else _] => destruct b
         end;
    try reflexivity;
    unfold Send_ucs_message_write;
    repeat match goal with
         | |- context [if ?b then _ else _] => destruct b
         end; reflexivity.
Qed.

Lemma Send_vehicle_registrations_loop_sessions sid ks s :
  sessions (ucs_connections (Send_vehicle_registrations_loop sid ks s))
  = sessions (ucs_connections s).
Proof.
  revert s. induction ks as [|k ks IH]; intros s; cbn; [reflexivity|].
  destruct (Assoc.find k (vehicles s)) as [v|]; [|apply IH].
  pose proof (Send_ucs_message_sessions sid (registration_message v) s) as Hs.
  destruct (Send_ucs_message sid (registration_message v) s) as [m s1].
  rewrite IH. exact Hs.
Qed.


Lemma Send_vehicle_registrations_sessions sid s :
  sessions (ucs_connections (Send_vehicle_registrations sid s))
  = sessions (ucs_connections s).
Proof. apply Send_vehicle_registrations_loop_sessions. Qed.

Lemma first_primary_of_In peer l k old :
  first_primary_of peer l = Some (k, old) ->
  In (k, old) l /\ same_ucs peer old = true /\ primary old = true.
Proof.
  induction l as [|[k0 u0] l IH]; cbn; [discriminate|].
  destruct (same_ucs peer u0 && primary u0) eqn:E.
  - intros [= -> ->]. apply andb_true_iff in E. tauto.
  - intros Hfp. destruct (IH Hfp) as (? & ? & ?). tauto.
Qed.

Lemma Duplicate_scan_dupe peer c l :
  (Duplicate_scan peer c l).1.1.2 = has_sibling peer l.
Proof.
  unfold has_sibling.
  induction l as [|[k u] l IH]; cbn; [reflexivity|].
  destruct (same_ucs peer u); cbn.
  - destruct (primary u); [now destruct (_ || _)|].
    now destruct (Duplicate_scan peer c l) as [[[? ?] ?] ?].
  - destruct (Duplicate_scan peer c l) as [[[? ?] ?] ?]. exact IH.
Qed.

Lemma Duplicate_scan_switched peer c l :
  (Duplicate_scan peer c l).1.2 =
  match first_primary_of peer l with
  | Some (_, old) => takes_over old c
  | None => false
  end.
Proof.
  induction l as [|[k u] l IH]; cbn; [reflexivity|].
  destruct (same_ucs peer u); cbn.
  - destruct (primary u); cbn.
    + unfold takes_over. now destruct (_ || _).
    + now destruct (Duplicate_scan peer c l) as [[[? ?] ?] ?].
  - now destruct (Duplicate_scan peer c l) as [[[? ?] ?] ?].
Qed.

Lemma Duplicate_scan_find peer c l k :
  NoDup (Assoc.keys l) ->
  Assoc.find k (Duplicate_scan peer c l).1.1.1 =
  match first_primary_of peer l with
  | Some (k0, old) =>
      if (k0 =? k) && takes_over old c then Some (set_primary false old)
      else Assoc.find k l
  | None => Assoc.find k l
  end.
Proof.
  unfold Assoc.keys.
  induction l as [|[k1 u] l IH]; cbn [map fst]; intros Hnd; [reflexivity|].
  apply NoDup_cons in Hnd as [Hk1 Hnd]. specialize (IH Hnd).
  cbn [Duplicate_scan first_primary_of].
  assert (Htail :
    (let '(l'', _, _, _) := Duplicate_scan peer c l in
     Assoc.find k ((k1, u) :: l''))
    = match first_primary_of peer l with
      | Some (k0, old) =>
          if (k0 =? k) && takes_over old c then Some (set_primary false old)
          else Assoc.find k ((k1, u) :: l)
      | None => Assoc.find k ((k1, u) :: l)
      end).
  { destruct (Duplicate_scan peer c l) as [[[l'' ?] ?] ?]. cbn in IH.
    cbn [Assoc.find]. destruct (k1 =? k) eqn:Ek.
    - apply Z.eqb_eq in Ek. subst k1.
      destruct (first_primary_of peer l) as [[k0 old]|] eqn:Efp;
        [|reflexivity].
      apply first_primary_of_In in Efp as (Hin & _).
      replace (k0 =? k) with false; [reflexivity|].
      symmetry. apply Z.eqb_neq. intros ->. apply Hk1.
      apply list_elem_of_In. change k with (fst (k, old)). now apply in_map.
    - exact IH. }
  destruct (same_ucs peer u); cbn [andb].
  - destruct (primary u).
    + unfold takes_over. destruct (_ || _); cbn [Assoc.find fst];
        destruct (k1 =? k); reflexivity.
    + destruct (Duplicate_scan peer c l) as [[[l'' ?] ?] ?]. exact Htail.
  - destruct (Duplicate_scan peer c l) as [[[l'' ?] ?] ?]. exact Htail.
Qed.

Lemma first_primary_of_replace peer l sid c c0 :
  Assoc.find sid l = Some c ->
  same_ucs peer c = false -> same_ucs peer c0 = false ->
  first_primary_of peer (Assoc.replace sid c0 l) = first_primary_of peer l.
Proof.
  intros Hf Hc Hc0. induction l as [|[k u] l IH]; cbn in *; [reflexivity|].
  destruct (k =? sid); cbn.
  - injection Hf as ->. now rewrite Hc, Hc0.
  - now rewrite IH.
Qed.

Lemma has_sibling_replace peer l sid c c0 :
  Assoc.find sid l = Some c ->
  same_ucs peer c = false -> same_ucs peer c0 = false ->
  has_sibling peer (Assoc.replace sid c0 l) = has_sibling peer l.
Proof.
  unfold has_sibling.
  intros Hf Hc Hc0. induction l as [|[k u] l IH]; cbn in *; [reflexivity|].
  destruct (k =? sid); cbn.
  - injection Hf as ->. now rewrite Hc, Hc0.
  - now rewrite IH.
Qed.

Lemma update_connection_found sid f c s :
  Assoc.find sid (ucs_connections s) = Some c ->
  update_connection sid f s = store sid (f c) s.
Proof. intros Hf. unfold update_connection. now rewrite Hf. Qed.

(** The connections once the handshake has chosen the primary, before the
    device catalogue is replayed. *)
Lemma Register_peer_accepted_sessions sid connection reg_peer s :
  NoDup (Assoc.keys (ucs_connections s)) ->
  Assoc.find sid (ucs_connections s) = Some connection ->
  ucs_id connection = None ->
  let new_peer := peer_id reg_peer in
  let l := ucs_connections s in
  let s' := Register_peer_accepted sid connection reg_peer s in
  exists l1 connection',
    sessions (ucs_connections s') = sessions (Assoc.replace sid connection' l1)
    /\ Assoc.find sid l1 = Some connection
    /\ (forall k,
          Assoc.find k l1 =
          match first_primary_of new_peer l with
          | Some (k0, old) =>
              if (k0 =? k) && takes_over old connection
              then Some (set_primary false old)
              else Assoc.find k l
          | None => Assoc.find k l
          end)
    /\ ucs_id connection' = Some new_peer
    /\ primary connection' =
       (if has_sibling new_peer l then
          match first_primary_of new_peer l with
          | Some (_, old) =>
              if takes_over old connection then true else primary connection
          | None => primary connection
          end
        else true).
Proof.
  intros Hnd Hf Hu new_peer l s'. subst s'.
  unfold Register_peer_accepted. fold new_peer. fold l.
  pose proof (Duplicate_scan_dupe new_peer connection l) as Hdupe.
  pose proof (Duplicate_scan_switched new_peer connection l) as Hsw.
  pose proof (fun k => Duplicate_scan_find new_peer connection l k Hnd) as Hfind.
  destruct (Duplicate_scan new_peer connection l) as [[[l1 dupe] switched] evs].
  cbn [fst snd] in Hdupe, Hsw, Hfind.
  assert (Hsid : Assoc.find sid l1 = Some connection).
  { rewrite Hfind.
    destruct (first_primary_of new_peer l) as [[k0 old]|] eqn:Efp; [|exact Hf].
    apply first_primary_of_In in Efp as (Hin & Hsame & _).
    replace (k0 =? sid) with false; [exact Hf|].
    symmetry. apply Z.eqb_neq. intros ->.
    apply (In_find _ _ _ Hnd) in Hin. rewrite Hf in Hin.
    injection Hin as <-. unfold same_ucs in Hsame. now rewrite Hu in Hsame. }
  set (s1 := emit_all evs (set_ucs_connections l1 s)).
  assert (Hc1 : ucs_connections s1 = l1)
    by (subst s1; now rewrite ucs_connections_emit_all).
  set (cA := if switched then set_primary true connection else connection).
  set (s2 := if switched then update_connection sid (set_primary true) s1 else s1).
  assert (Hc2 : ucs_connections s2 = Assoc.replace sid cA l1).
  { subst s2 cA. destruct switched.
    - rewrite (update_connection_found _ _ connection) by (now rewrite Hc1).
      cbn. now rewrite Hc1.
    - rewrite Hc1. symmetry. now apply replace_same. }
  set (cB := set_ucs_id (Some new_peer) cA).
  set (s3 := update_connection sid (set_ucs_id (Some new_peer)) s2).
  assert (Hc3 : ucs_connections s3 = Assoc.replace sid cB l1).
  { subst s3. rewrite (update_connection_found _ _ cA)
      by (now rewrite Hc2, find_replace, Hsid).
    cbn. now rewrite Hc2, replace_replace. }
  set (cC := if dupe then cB else set_primary true cB).
  match goal with
  | |- context [Send_vehicle_registrations _
                  (if _ then _ else ?s5)] =>
      match s5 with
      | context [if dupe then ?a else ?b] => set (s4 := if dupe then a else b)
      end
  end.
  assert (Hc4 : ucs_connections s4 = Assoc.replace sid cC l1).
  { subst s4 cC. destruct dupe.
    - exact Hc3.
    - cbn [emit ucs_connections].
      rewrite (update_connection_found _ _ cB)
        by (now rewrite Hc3, find_replace, Hsid).
      cbn. now rewrite Hc3, replace_replace. }
  match goal with
  | |- context [Send_vehicle_registrations _ ?t] => set (s5 := t)
  end.
  assert (Hc5 : exists cD, ucs_connections s5 = Assoc.replace sid cD l1
                 /\ ucs_id cD = ucs_id cC /\ primary cD = primary cC).
  { subst s5. match goal with |- context [if ?b then _ else _] => destruct b end.
    - exists (set_is_compatible false cC). split; [|split; reflexivity].
      cbn [emit ucs_connections].
      rewrite (update_connection_found _ _ cC)
        by (now rewrite Hc4, find_replace, Hsid).
      cbn. now rewrite Hc4, replace_replace.
    - exists cC. auto. }
  destruct Hc5 as (cD & Hc5 & HuD & HpD).
  exists l1, cD. rewrite Send_vehicle_registrations_sessions, Hc5.
  split; [reflexivity|]. split; [exact Hsid|]. split; [exact Hfind|]. split.
  - rewrite HuD. subst cC cB. now destruct dupe.
  - rewrite HpD. subst cC cB cA. rewrite <- Hdupe.
    destruct dupe; [|reflexivity]. cbn.
    destruct (first_primary_of new_peer l) as [[k0 old]|];
      rewrite Hsw.
    + now destruct (takes_over old connection).
    + reflexivity.
Qed.


Lemma sessions_find_Some l l' k c :
  sessions l = sessions l' -> Assoc.find k l' = Some c ->
  exists c', Assoc.find k l = Some c' /\ session c' = session c.
Proof.
  intros Hs Hf. pose proof (sessions_find l l' k Hs) as Hk.
  rewrite Hf in Hk. destruct (Assoc.find k l) as [c'|]; [|discriminate].
  exists c'. split; [reflexivity|]. cbn in Hk. congruence.
Qed.

Lemma same_ucs_true peer u : same_ucs peer u = true -> ucs_id u = Some peer.
Proof.
  unfold same_ucs. destruct (ucs_id u); [|discriminate].
  intros E. apply Z.eqb_eq in E. now subst.
Qed.

(** C3, as amended: a [register_peer] of an acceptable peer type arrives
    on a connection whose peer is unknown.  The connection gets the peer
    id, and
    - if no other connection carries that peer id, it becomes primary;
    - if a primary connection of the peer is found (the first one in
      iteration order) and that one is not loopback or the new one is
      loopback, the old primary is demoted and the new connection
      becomes primary;
    - otherwise (the old primary is loopback and the new connection is
      not, or no connection of the peer is primary) the new connection
      keeps its flag and the old primary stays primary.
    No other connection changes its flag. *)
Theorem register_peer_primary_selection sid connection reg_peer vsm_msg now
  s :
  NoDup (Assoc.keys (ucs_connections s)) ->
  Assoc.find sid (ucs_connections s) = Some connection ->
  ucs_id connection = None ->
  register_peer vsm_msg = Some reg_peer ->
  acceptable_peer_type (peer_type reg_peer) = true ->
  let new_peer := peer_id reg_peer in
  let l := ucs_connections s in
  let s' := snd (Message_parsed sid connection vsm_msg now s) in
  exists connection',
    Assoc.find sid (ucs_connections s') = Some connection'
    /\ ucs_id connection' = Some new_peer
    /\ primary connection' =
       (if has_sibling new_peer l then
          match first_primary_of new_peer l with
          | Some (_, old) =>
              if takes_over old connection then true else primary connection
          | None => primary connection
          end
        else true)
    /\ (forall k old,
          first_primary_of new_peer l = Some (k, old) ->
          exists old',
            Assoc.find k (ucs_connections s') = Some old'
            /\ ucs_id old' = Some new_peer
            /\ primary old' = negb (takes_over old connection))
    /\ (forall k u,
          k <> sid -> Assoc.find k l = Some u ->
          (forall old, first_primary_of new_peer l <> Some (k, old)) ->
          exists u',
            Assoc.find k (ucs_connections s') = Some u'
            /\ ucs_id u' = ucs_id u /\ primary u' = primary u).
Proof.
  intros Hnd Hf Hu Hreg Hacc new_peer l s'. subst s'.
  unfold Message_parsed. rewrite Hu, Hreg, Hacc. cbn [snd].
  set (c0 := set_last_message_time now connection).
  set (s0 := store sid c0 s).
  assert (Hf0 : Assoc.find sid (ucs_connections s0) = Some c0)
    by (eapply find_store; eassumption).
  assert (Hnd0 : NoDup (Assoc.keys (ucs_connections s0)))
    by (subst s0; unfold store, set_ucs_connections;
        cbn [ucs_connections]; now rewrite keys_replace).
  assert (Hns : forall c, ucs_id c = None -> same_ucs new_peer c = false)
    by (intros c Hc; unfold same_ucs; now rewrite Hc).
  assert (Hfp0 : first_primary_of new_peer (ucs_connections s0)
                 = first_primary_of new_peer l)
    by (apply (first_primary_of_replace _ _ _ connection); auto).
  assert (Hhs0 : has_sibling new_peer (ucs_connections s0)
                 = has_sibling new_peer l)
    by (apply (has_sibling_replace _ _ _ connection); auto).
  assert (Hne : forall k, k <> sid ->
            Assoc.find k (ucs_connections s0) = Assoc.find k l)
    by (intros k Hk; subst s0; unfold store, set_ucs_connections;
        cbn [ucs_connections]; apply find_replace_ne; congruence).
  destruct (Register_peer_accepted_sessions sid c0 reg_peer s0 Hnd0 Hf0 Hu)
    as (l1 & cD & Hsess & Hsid & Hfind & HuD & HpD).
  fold new_peer in Hsess, Hfind, HuD, HpD.
  rewrite Hfp0 in Hfind, HpD. rewrite Hhs0 in HpD.
  change (takes_over ?o c0) with (takes_over o connection) in *.
  change (primary c0) with (primary connection) in HpD.
  assert (Hget : forall k c, Assoc.find k (Assoc.replace sid cD l1) = Some c ->
            exists c', Assoc.find k
                         (ucs_connections
                            (Register_peer_accepted sid c0 reg_peer s0))
                       = Some c' /\ session c' = session c)
    by (intros k c; apply sessions_find_Some; exact Hsess).
  destruct (Hget sid cD) as (c' & Hfc' & Hsc');
    [now rewrite find_replace, Hsid|].
  exists c'. split; [exact Hfc'|].
  split; [unfold session in Hsc'; congruence|].
  split; [unfold session in Hsc'; congruence|].
  split.
  - intros k old Hfp.
    pose proof (first_primary_of_In _ _ _ _ Hfp) as (Hin & Hsame & Hprim).
    assert (Hk : k <> sid).
    { intros ->. apply (In_find _ _ _ Hnd) in Hin.
      unfold l in Hin. rewrite Hf in Hin. injection Hin as <-.
      rewrite Hns in Hsame by assumption. discriminate. }
    apply (In_find _ _ _ Hnd) in Hin.
    destruct (Hget k (if takes_over old connection
                      then set_primary false old else old))
      as (old' & Hfo & Hso).
    { rewrite find_replace_ne by congruence. rewrite Hfind, Hfp.
      rewrite Z.eqb_refl. cbn [andb].
      destruct (takes_over old connection); [reflexivity|].
      rewrite Hne by assumption. exact Hin. }
    exists old'. split; [exact Hfo|].
    apply same_ucs_true in Hsame.
    unfold session in Hso.
    destruct (takes_over old connection); cbn in Hso; cbn [negb];
      split; congruence.
  - intros k u Hk Hfk Hnfp.
    destruct (Hget k u) as (u' & Hfu & Hsu).
    { rewrite find_replace_ne by congruence. rewrite Hfind.
      destruct (first_primary_of new_peer l) as [[k0 old]|] eqn:Efp.
      - destruct (k0 =? k) eqn:Ek.
        + apply Z.eqb_eq in Ek. subst k0. exfalso. now apply (Hnfp old).
        + cbn [andb]. rewrite Hne by assumption. exact Hfk.
      - rewrite Hne by assumption. exact Hfk. }
    exists u'. split; [exact Hfu|]. unfold session in Hsu. split; congruence.
Qed.

End Handshake.

(** ** Keep-alive timer *)

Section Timer.
Context `{Platform}.

Lemma tick_outcome_mono now k c ka lo hi lo' hi' evs :
  lo' <= lo -> hi <= hi' ->
  tick_outcome now k c ka lo hi evs -> tick_outcome now k c ka lo' hi' evs.
Proof.
  intros Hlo Hhi. unfold tick_outcome.
  destruct (ucs_id c); [|auto].
  destruct (ka =? 0); [auto|].
  destruct (ka <? _); [auto|].
  destruct (is_compatible c); [|auto].
  intros (i & Hi & ->). exists i. split; [lia|reflexivity].
Qed.

Lemma ltb_sub a b n : (a + b <? n) = (b <? n - a).
Proof.
  destruct (Z.ltb_spec (a + b) n), (Z.ltb_spec b (n - a)); (reflexivity || lia).
Qed.

Lemma stream_events_app k a b :
  stream_events k (a ++ b) = stream_events k a ++ stream_events k b.
Proof. apply List.filter_app. Qed.

Lemma On_timer_visit_spec now k c s :
  Assoc.find k (ucs_connections s) = Some c ->
  let s' := On_timer_visit now k c s in
  ucs_connections s' = ucs_connections s
  /\ keep_alive_timeout s' = keep_alive_timeout s
  /\ ucs_id_counter s <= ucs_id_counter s'
  /\ exists evs,
       trace s' = trace s ++ evs
       /\ (forall k', k' <> k -> stream_events k' evs = [])
       /\ tick_outcome now k c (keep_alive_timeout s)
            (ucs_id_counter s) (ucs_id_counter s') (stream_events k evs).
Proof.
  intros Hf s'. subst s'. unfold On_timer_visit, tick_outcome.
  assert (Hne : forall k', k' <> k -> (k =? k') = false)
    by (intros; apply Z.eqb_neq; congruence).
  assert (Hnone :
            ucs_connections s = ucs_connections s
            /\ keep_alive_timeout s = keep_alive_timeout s
            /\ ucs_id_counter s <= ucs_id_counter s
            /\ exists evs, trace s = trace s ++ evs
                 /\ (forall k', k' <> k -> stream_events k' evs = [])
                 /\ stream_events k evs = []).
  { split; [reflexivity|]. split; [reflexivity|].
    split; [lia|]. exists []. rewrite app_nil_r. auto. }
  assert (Hclose :
            let s' := emit (Stream_close k) (emit (Log LOG_timed_out) s) in
            ucs_connections s' = ucs_connections s
            /\ keep_alive_timeout s' = keep_alive_timeout s
            /\ ucs_id_counter s <= ucs_id_counter s'
            /\ exists evs, trace s' = trace s ++ evs
                 /\ (forall k', k' <> k -> stream_events k' evs = [])
                 /\ stream_events k evs = [Stream_close k]).
  { cbn. split; [reflexivity|]. split; [reflexivity|].
    split; [lia|]. exists [Log LOG_timed_out; Stream_close k].
    rewrite <- app_assoc. split; [reflexivity|]. cbn. rewrite Z.eqb_refl.
    split; [|reflexivity]. intros k' Hk. now rewrite Hne. }
  destruct (ucs_id c) as [u|] eqn:Hu; cbn [has negb andb].
  - destruct (keep_alive_timeout s =? 0) eqn:Eka; cbn [negb].
    + exact Hnone.
    + rewrite ltb_sub.
      destruct (keep_alive_timeout s <? now - last_message_time c).
      * exact Hclose.
      * unfold Send_ucs_message_ptr, Send_ucs_message.
        rewrite Hf, Hu. cbn [has negb andb].
        destruct (is_compatible c); cbn [negb].
        -- change (has (register_device ping_msg)) with false.
           change (get_device_id ping_msg) with 0. cbn [Z.eqb negb].
           unfold Send_ucs_message_write. rewrite (store_same _ _ _ Hf).
           change (message_id ping_msg) with (@None Z).
           change (response_required ping_msg) with (Some true).
           rewrite (bool_decide_eq_true_2 _ eq_refl).
           cbn. split; [reflexivity|]. split; [reflexivity|].
           split; [lia|].
           eexists. split; [reflexivity|]. cbn. rewrite Z.eqb_refl.
           split.
           ++ intros k' Hk. now rewrite Hne.
           ++ exists (ucs_id_counter s). split; [lia|reflexivity].
        -- cbn [snd]. exact Hnone.
  - rewrite ltb_sub. rewrite andb_true_r.
    destruct (REGISTER_PEER_TIMEOUT <? now - last_message_time c).
    + exact Hclose.
    + exact Hnone.
Qed.

Lemma On_timer_loop_spec clock ks : forall s,
  NoDup ks ->
  let s' := On_timer_loop clock ks s in
  ucs_connections s' = ucs_connections s
  /\ keep_alive_timeout s' = keep_alive_timeout s
  /\ ucs_id_counter s <= ucs_id_counter s'
  /\ exists evs,
       trace s' = trace s ++ evs
       /\ (forall k, ~ In k ks -> stream_events k evs = [])
       /\ (forall k c, In k ks ->
             Assoc.find k (ucs_connections s) = Some c ->
             tick_outcome (clock k) k c (keep_alive_timeout s)
               (ucs_id_counter s) (ucs_id_counter s') (stream_events k evs)).
Proof.
  induction ks as [|k ks IH]; intros s Hnd s'; subst s'.
  - cbn. split; [reflexivity|]. split; [reflexivity|]. split; [lia|].
    exists []. rewrite app_nil_r. split; [reflexivity|].
    split; [reflexivity|]. intros k c [].
  - apply NoDup_cons in Hnd as [Hk Hnd]. rewrite list_elem_of_In in Hk.
    cbn [On_timer_loop].
    destruct (Assoc.find k (ucs_connections s)) as [c|] eqn:Hf.
    + destruct (On_timer_visit_spec (clock k) k c s Hf)
        as (Hc1 & Hka1 & Hn1 & evs1 & Ht1 & Ho1 & Hk1).
      destruct (IH (On_timer_visit (clock k) k c s) Hnd)
        as (Hc2 & Hka2 & Hn2 & evs2 & Ht2 & Ho2 & Hk2).
      split; [congruence|]. split; [congruence|]. split; [lia|].
      exists (evs1 ++ evs2). split; [rewrite Ht2, Ht1; symmetry; apply app_assoc|].
      split.
      * intros k' Hk'. rewrite stream_events_app.
        rewrite Ho1, Ho2; [reflexivity| |]; cbn in Hk'; intuition congruence.
      * intros k' c' [<-|Hin] Hf'.
        -- rewrite Hf in Hf'. injection Hf' as <-.
           rewrite stream_events_app, (Ho2 k Hk), app_nil_r.
           eapply tick_outcome_mono; [| |exact Hk1]; lia.
        -- assert (k' <> k) by (intros ->; contradiction).
           rewrite stream_events_app, (Ho1 k') by assumption. cbn [app].
           rewrite <- Hka1.
           eapply tick_outcome_mono; [| |apply Hk2]; try lia; try assumption.
           now rewrite Hc1.
    + destruct (IH s Hnd) as (Hc2 & Hka2 & Hn2 & evs2 & Ht2 & Ho2 & Hk2).
      split; [assumption|]. split; [assumption|]. split; [assumption|].
      exists evs2. split; [assumption|]. split.
      * intros k' Hk'. apply Ho2. cbn in Hk'. tauto.
      * intros k' c' [<-|Hin] Hf'; [congruence|]. now apply Hk2.
Qed.

(** C9, as amended: one timer tick.  The callback returns [true] and the
    connections are unchanged.  On the stream of each connection
    ([tick_outcome]):
    - peer known and a non-zero [keep_alive_timeout]: the stream is closed
      if [now - last_message_time] exceeds the timeout; otherwise exactly
      one ping (device id 0, response required, a message id allocated
      during this tick) is written if the connection is compatible, and
      nothing happens on an incompatible one;
    - peer known and no timeout configured: nothing happens;
    - peer unknown: the stream is closed if and only if
      [now - last_message_time] exceeds [REGISTER_PEER_TIMEOUT]. *)
Theorem On_timer_keep_alive clock s :
  NoDup (Assoc.keys (ucs_connections s)) ->
  let s' := snd (On_timer clock s) in
  fst (On_timer clock s) = true
  /\ ucs_connections s' = ucs_connections s
  /\ exists evs,
       trace s' = trace s ++ evs
       /\ forall k c,
            Assoc.find k (ucs_connections s) = Some c ->
            tick_outcome (clock k) k c (keep_alive_timeout s)
              (ucs_id_counter s) (ucs_id_counter s') (stream_events k evs).
Proof.
  intros Hnd s'. subst s'. unfold On_timer. cbn [fst snd].
  destruct (On_timer_loop_spec clock _ s Hnd)
    as (Hc & _ & _ & evs & Ht & _ & Hk).
  split; [reflexivity|]. split; [exact Hc|].
  exists evs. split; [exact Ht|].
  intros k c Hf. apply Hk; [|exact Hf]. eapply find_Some_In_keys, Hf.
Qed.

End Timer.

(** ** Well-formed connection tables *)

Section Invariant.
Context `{Platform}.

Lemma steady_refl s : steady s s.
Proof. split; [reflexivity|lia]. Qed.

Lemma steady_trans s1 s2 s3 : steady s1 s2 -> steady s2 s3 -> steady s1 s3.
Proof. intros [H1 H2] [H3 H4]. split; [congruence|lia]. Qed.

Lemma idents_anchors l l' : anchors l = anchors l' -> idents l = idents l'.
Proof.
  unfold anchors, idents. revert l'.
  induction l as [|[k c] l IH]; intros [|[k' c'] l']; cbn; try discriminate;
    [reflexivity|].
  intros Heq. unfold anchor in Heq. inversion Heq.
  f_equal. now apply IH.
Qed.

Lemma steady_well_formed s s' : steady s s' -> well_formed s -> well_formed s'.
Proof.
  intros [Hi Hc] [Hnd Hin]. apply idents_anchors in Hi.
  unfold well_formed. rewrite Hi.
  split; [exact Hnd|]. intros k i Hk. destruct (Hin k i Hk). split; [assumption|lia].
Qed.

Lemma steady_emit e s : steady s (emit e s).
Proof. split; [reflexivity|cbn; lia]. Qed.

Lemma steady_emit_all evs s : steady s (emit_all evs s).
Proof.
  unfold emit_all. revert s. induction evs as [|e evs IH]; intros s; cbn.
  - apply steady_refl.
  - eapply steady_trans; [apply steady_emit|apply IH].
Qed.

Lemma steady_set_vehicles v s : steady s (set_vehicles v s).
Proof. split; [reflexivity|cbn; lia]. Qed.

Lemma anchors_sessions l l' : sessions l = sessions l' -> anchors l = anchors l'.
Proof.
  unfold sessions, anchors, anchor. revert l'.
  induction l as [|[k c] l IH]; intros [|[k' c'] l']; cbn; try discriminate;
    [reflexivity|].
  intros Heq. unfold session in Heq. inversion Heq.
  f_equal. now apply IH.
Qed.

Lemma anchors_replace l k c c' :
  Assoc.find k l = Some c -> anchor c' = anchor c ->
  anchors (Assoc.replace k c' l) = anchors l.
Proof.
  intros Hf Hs. unfold anchors.
  induction l as [|[k0 c0] l IH]; cbn in *; [reflexivity|].
  destruct (k0 =? k); cbn.
  - injection Hf as ->. now rewrite Hs.
  - now rewrite IH.
Qed.

Lemma steady_update_connection sid f s :
  (forall c, anchor (f c) = anchor c) ->
  steady s (update_connection sid f s).
Proof.
  intros Hf. unfold update_connection.
  destruct (Assoc.find sid (ucs_connections s)) as [c|] eqn:E;
    [|apply steady_refl].
  split; [|cbn; lia]. cbn. now apply (anchors_replace _ _ c).
Qed.

Lemma steady_store sid c c' s :
  Assoc.find sid (ucs_connections s) = Some c -> anchor c' = anchor c ->
  steady s (store sid c' s).
Proof.
  intros Hf Hs. split; [|cbn; lia]. cbn. now apply (anchors_replace _ _ c).
Qed.

Lemma Send_ucs_message_counter sid m s :
  ucs_id_counter s <= ucs_id_counter (snd (Send_ucs_message sid m s)).
Proof.
  unfold Send_ucs_message.
  destruct (Assoc.find sid (ucs_connections s)) as [ctx|]; [|cbn; lia].
  cbn [Get_next_id]. unfold Send_ucs_message_write.
  repeat match goal with
         | |- context [if ?b then _ else _] => destruct b
         end; cbn; lia.
Qed.

Lemma steady_Send_ucs_message sid m s :
  steady s (snd (Send_ucs_message sid m s)).
Proof.
  split; [|apply Send_ucs_message_counter].
  apply anchors_sessions, Send_ucs_message_sessions.
Qed.

Lemma steady_Broadcast_loop ks : forall m s,
  steady s (snd (Broadcast_loop ks m s)).
Proof.
  induction ks as [|k ks IH]; intros m s; cbn; [apply steady_refl|].
  destruct (Assoc.find k (ucs_connections s)) as [c|]; [|apply IH].
  destruct (primary c); [|apply IH].
  pose proof (steady_Send_ucs_message k m s) as Hs.
  destruct (Send_ucs_message k m s) as [m' s'].
  eapply steady_trans; [exact Hs|apply IH].
Qed.

Lemma steady_Send_vehicle_registrations_loop sid ks : forall s,
  steady s (Send_vehicle_registrations_loop sid ks s).
Proof.
  induction ks as [|k ks IH]; intros s; cbn; [apply steady_refl|].
  destruct (Assoc.find k (vehicles s)) as [v|]; [|apply IH].
  pose proof (steady_Send_ucs_message sid (registration_message v) s) as Hs.
  destruct (Send_ucs_message sid (registration_message v) s) as [m' s'].
  eapply steady_trans; [exact Hs|].
  eapply steady_trans; [apply steady_set_vehicles|apply IH].
Qed.

Lemma steady_Notify d s : steady s (Notify_device_about_ucs_connections d s).
Proof.
  unfold Notify_device_about_ucs_connections.
  destruct (Get_device d s); [apply steady_emit|apply steady_refl].
Qed.

Lemma steady_On_ucs_message sid m s : steady s (On_ucs_message sid m s).
Proof.
  unfold On_ucs_message, Send_ucs_message_ptr.
  repeat match goal with
         | |- context [if ?b then _ else _] => destruct b
         | |- context [match Get_device ?d ?s with _ => _ end] =>
             destruct (Get_device d s)
         end;
    try apply steady_emit; try apply steady_refl;
    try apply steady_Send_ucs_message.
  eapply steady_trans; [apply steady_emit|apply steady_Send_ucs_message].
Qed.

Lemma steady_Registration_response sid connection ucs device m response s :
  steady s (Registration_response sid connection ucs device m response s).
Proof.
  unfold Registration_response, Send_ucs_message_ptr.
  assert (He : forall s0, steady s0
    (update_connection sid (fun c =>
       set_pending_registrations
         (Assoc.erase (get_message_id m) (pending_registrations c)) c) s0))
    by (intros; now apply steady_update_connection).
  destruct (code response);
    try (eapply steady_trans; [|apply He]; apply steady_emit).
  - eapply steady_trans; [|apply He].
    cbn [emit vehicles].
    destruct (Assoc.find device (vehicles s)); [|apply steady_emit].
    eapply steady_trans; [|apply steady_Send_ucs_message].
    eapply steady_trans; [|apply steady_Notify].
    eapply steady_trans; [|now apply steady_update_connection].
    apply (steady_emit _ s).
  - apply steady_emit.
Qed.

Lemma anchors_Duplicate_scan peer c l :
  anchors (Duplicate_scan peer c l).1.1.1 = anchors l.
Proof.
  unfold anchors, anchor.
  induction l as [|[k u] l IH]; cbn; [reflexivity|].
  destruct (Duplicate_scan peer c l) as [[[l' ?] ?] ?]. cbn in IH.
  destruct (same_ucs peer u); [destruct (primary u); [destruct (_ || _)|]|];
    cbn; congruence.
Qed.

Lemma steady_Register_peer_accepted sid connection reg_peer s :
  steady s (Register_peer_accepted sid connection reg_peer s).
Proof.
  unfold Register_peer_accepted.
  pose proof (anchors_Duplicate_scan (peer_id reg_peer) connection
                (ucs_connections s)) as Hi.
  destruct (Duplicate_scan _ _ _) as [[[l dupe] switched] evs].
  cbn [fst] in Hi.
  assert (Hup : forall f s0, (forall c, anchor (f c) = anchor c) ->
            steady s0 (update_connection sid f s0))
    by (intros; now apply steady_update_connection).
  set (s1 := emit_all evs (set_ucs_connections l s)).
  set (s2 := if switched then _ else s1).
  set (s3 := update_connection sid (set_ucs_id _) s2).
  set (s4 := if dupe then _ else _).
  set (s5 := if _ || _ then _ else s4).
  assert (H1 : steady s s1).
  { apply (steady_trans _ (set_ucs_connections l s));
      [split; [exact Hi|cbn; lia]|apply steady_emit_all]. }
  assert (H2 : steady s1 s2)
    by (subst s2; destruct switched; [now apply Hup|apply steady_refl]).
  assert (H3 : steady s2 s3) by (now apply Hup).
  assert (H4 : steady s3 s4).
  { subst s4. destruct dupe; [apply steady_emit|].
    apply (steady_trans _ (update_connection sid (set_primary true) s3));
      [now apply Hup|].
    eapply steady_trans; apply steady_emit. }
  assert (H5 : steady s4 s5).
  { subst s5. destruct (_ || _); [|apply steady_refl].
    apply (steady_trans _ (update_connection sid (set_is_compatible false) s4));
      [now apply Hup|apply steady_emit]. }
  repeat (eapply steady_trans; [eassumption|]).
  apply steady_Send_vehicle_registrations_loop.
Qed.


Lemma steady_On_timer_loop clock ks : forall s,
  steady s (On_timer_loop clock ks s).
Proof.
  induction ks as [|k ks IH]; intros s; cbn; [apply steady_refl|].
  destruct (Assoc.find k (ucs_connections s)) as [c|]; [|apply IH].
  eapply steady_trans; [|apply IH].
  unfold On_timer_visit, Send_ucs_message_ptr.
  repeat match goal with
         | |- context [if ?b then _ else _] => destruct b
         end;
    try apply steady_refl; try apply steady_Send_ucs_message;
    (eapply steady_trans; apply steady_emit).
Qed.

Lemma anchors_Promote_loopback peer l :
  anchors (Promote_loopback peer l).1.1 = anchors l.
Proof.
  unfold anchors, anchor. induction l as [|[k u] l IH]; cbn; [reflexivity|].
  destruct (Promote_loopback peer l) as [[l' ?] ?]. cbn in IH.
  destruct (same_ucs peer u && _); cbn; congruence.
Qed.

Lemma anchors_Promote_first peer l :
  anchors (Promote_first peer l).1 = anchors l.
Proof.
  unfold anchors, anchor. induction l as [|[k u] l IH]; cbn; [reflexivity|].
  destruct (same_ucs peer u); [reflexivity|].
  destruct (Promote_first peer l) as [l' ?]. cbn in *. congruence.
Qed.

Lemma In_idents_erase sid l k i :
  In (k, i) (idents (Assoc.erase sid l)) -> In (k, i) (idents l).
Proof.
  unfold idents. induction l as [|[k0 u] l IH]; cbn; [tauto|].
  destruct (k0 =? sid); cbn; tauto.
Qed.

Lemma NoDup_idents_erase sid l :
  NoDup (map fst (idents l)) -> NoDup (map fst (idents (Assoc.erase sid l))).
Proof.
  induction l as [|[k0 u] l IH]; cbn; [auto|].
  intros Hnd. apply NoDup_cons in Hnd as [Hk Hnd].
  destruct (k0 =? sid); cbn; [exact Hnd|].
  apply NoDup_cons. split; [|auto].
  intros Hin. apply Hk. apply list_elem_of_In in Hin. apply list_elem_of_In.
  apply in_map_iff in Hin as ([k i] & Hf & Hin). cbn in Hf. subst k.
  apply In_idents_erase in Hin. change k0 with (fst (k0, i)).
  now apply in_map.
Qed.

Lemma well_formed_Close_ucs_stream sid s :
  well_formed s -> well_formed (Close_ucs_stream sid s).
Proof.
  intros Hwf. unfold Close_ucs_stream.
  destruct (Assoc.find sid (ucs_connections s)) as [c|]; [|exact Hwf].
  set (s0 := emit (Stream_close sid) _).
  assert (H0 : steady s s0).
  { subst s0. destruct (ucs_id c); [|apply steady_emit].
    eapply steady_trans; apply steady_emit. }
  apply (steady_well_formed _ _ H0) in Hwf.
  set (s1 := set_ucs_connections (Assoc.erase sid (ucs_connections s0)) s0).
  assert (Hwf1 : well_formed s1).
  { destruct Hwf as [Hnd Hin]. split; cbn.
    - now apply NoDup_idents_erase.
    - intros k i Hk. apply In_idents_erase in Hk. now apply Hin. }
  clearbody s1. clear Hwf H0 s0.
  match goal with
  | |- well_formed (if _ then emit _ ?t else ?t) => set (s3 := t)
  end.
  assert (Hwf3 : well_formed s3).
  { subst s3.
    match goal with
    | |- well_formed (fold_left _ _ ?t) => set (s2 := t)
    end.
    assert (Hwf2 : well_formed s2).
    { subst s2. destruct (primary c); [|exact Hwf1].
      pose proof (anchors_Promote_loopback (default 0 (ucs_id c))
                    (ucs_connections s1)) as Hi.
      destruct (Promote_loopback _ _) as [[l evs] found]. cbn [fst] in Hi.
      set (s2 := emit_all evs (set_ucs_connections l s1)).
      assert (H2 : steady s1 s2).
      { apply (steady_trans _ (set_ucs_connections l s1));
          [split; [exact Hi|cbn; lia]|apply steady_emit_all]. }
      destruct (negb found); [|exact (steady_well_formed _ _ H2 Hwf1)].
      pose proof (anchors_Promote_first (default 0 (ucs_id c))
                    (ucs_connections s2)) as Hi2.
      destruct (Promote_first _ _) as [l2 evs2]. cbn [fst] in Hi2.
      apply (steady_well_formed s2); [|exact (steady_well_formed _ _ H2 Hwf1)].
      apply (steady_trans _ (set_ucs_connections l2 s2));
        [split; [exact Hi2|cbn; lia]|apply steady_emit_all]. }
    clearbody s2. revert s2 Hwf2.
    induction (elements (registered_devices c)) as [|d ds IH]; intros s2 Hwf2;
      cbn; [exact Hwf2|].
    apply IH. exact (steady_well_formed _ _ (steady_Notify d s2) Hwf2). }
  destruct (_ && _); [|exact Hwf3].
  exact (steady_well_formed _ _ (steady_emit _ _) Hwf3).
Qed.

Lemma well_formed_On_incoming_connection is_tcp addr now s :
  well_formed s -> well_formed (On_incoming_connection is_tcp addr now s).
Proof.
  intros Hwf. unfold On_incoming_connection.
  destruct is_tcp; cbn [negb];
    [|exact (steady_well_formed _ _ (steady_emit _ _) Hwf)].
  cbn [Get_next_id]. unfold Send_ucs_message_ptr.
  eapply steady_well_formed; [apply steady_Send_ucs_message|].
  destruct Hwf as [Hnd Hin].
  assert (Hfresh : Assoc.find (ucs_id_counter s) (ucs_connections s) = None).
  { destruct (Assoc.find (ucs_id_counter s) (ucs_connections s)) as [c|] eqn:E;
      [|reflexivity].
    apply find_In in E.
    assert (Hi : In (ucs_id_counter s, stream_id c) (idents (ucs_connections s))).
    { unfold idents. apply in_map_iff. exists (ucs_id_counter s, c). auto. }
    apply Hin in Hi. lia. }
  unfold Assoc.emplace. cbn [Schedule_next_read emit ucs_connections].
  rewrite Hfresh. split; cbn.
  - unfold idents. rewrite !map_app. cbn. apply NoDup_app. split; [exact Hnd|].
    split; [|apply NoDup_singleton].
    intros k Hk Hk1. apply list_elem_of_In in Hk.
    apply in_map_iff in Hk as ([k0 i] & Hf & Hk). cbn in Hf. subst k0.
    apply list_elem_of_singleton in Hk1. subst k.
    apply Hin in Hk. lia.
  - intros k i Hk. unfold idents in Hk. rewrite map_app in Hk.
    apply in_app_iff in Hk as [Hk|Hk].
    + apply Hin in Hk. lia.
    + cbn in Hk. destruct Hk as [[= <- <-]|[]]. lia.
Qed.

Lemma idents_replace l k c c' :
  Assoc.find k l = Some c -> stream_id c' = stream_id c ->
  idents (Assoc.replace k c' l) = idents l.
Proof.
  intros Hf Hs. unfold idents.
  induction l as [|[k0 c0] l IH]; cbn in *; [reflexivity|].
  destruct (k0 =? k); cbn.
  - injection Hf as ->. now rewrite Hs.
  - now rewrite IH.
Qed.

(** The frame decoder rewrites the framing state of its own connection and
    nothing else. *)
Lemma well_formed_store sid c c' s :
  Assoc.find sid (ucs_connections s) = Some c -> stream_id c' = stream_id c ->
  well_formed s -> well_formed (store sid c' s).
Proof.
  intros Hf Hs [Hnd Hin]. unfold well_formed, store.
  cbn [ucs_connections ucs_id_counter set_ucs_connections].
  rewrite (idents_replace _ _ c) by assumption. now split.
Qed.

Lemma well_formed_Read_completed buffer result sid now s s' :
  well_formed s ->
  Read_completed buffer result sid now s = Returned s' ->
  well_formed s'.
Proof.
  intros Hwf. unfold Read_completed.
  destruct (Assoc.find sid (ucs_connections s)) as [connection|] eqn:Hf;
    [|now intros [= <-]].
  destruct result; try (intros [= <-]; now apply well_formed_Close_ucs_stream).
  destruct (reading_header (framing connection)).
  - destruct buffer as [|byte [|? ?]]; try discriminate.
    destruct (Read_header (framing connection) byte) as [|f|f];
      [discriminate| |]; intros [= <-].
    + apply well_formed_Close_ucs_stream.
      apply (steady_well_formed _ _ (steady_emit _ _)).
      now apply (well_formed_store _ connection).
    + apply (steady_well_formed _ _ (steady_emit _ _)).
      now apply (well_formed_store _ connection).
  - destruct (ParseFromArray buffer) as [vsm_msg|].
    2:{ intros [= <-]. apply well_formed_Close_ucs_stream.
        exact (steady_well_formed _ _ (steady_emit _ _) Hwf). }
    assert (Hmp : well_formed (snd (Message_parsed sid connection vsm_msg now s))).
    { unfold Message_parsed.
      assert (Hst : steady s (store sid (set_last_message_time now connection) s))
        by (now apply (steady_store _ connection)).
      destruct (ucs_id connection) as [ucs|].
      - destruct (device_response vsm_msg) as [response|]; cbn [snd].
        + destruct (Assoc.find _ (pending_registrations connection)); cbn [snd];
            (eapply steady_well_formed; [|exact Hwf]);
            (eapply steady_trans; [exact Hst|]).
          * apply steady_Registration_response.
          * apply steady_On_ucs_message.
        + eapply steady_well_formed; [|exact Hwf].
          eapply steady_trans; [exact Hst|apply steady_On_ucs_message].
      - destruct (register_peer vsm_msg) as [reg_peer|]; cbn [snd].
        + destruct (acceptable_peer_type _); cbn [snd].
          * eapply steady_well_formed; [|exact Hwf].
            eapply steady_trans; [exact Hst|apply steady_Register_peer_accepted].
          * apply well_formed_Close_ucs_stream.
            eapply steady_well_formed; [|exact Hwf].
            eapply steady_trans; [exact Hst|apply steady_emit].
        + exact (steady_well_formed _ _ (steady_emit _ _) Hwf). }
    destruct (Message_parsed sid connection vsm_msg now s) as [continue s1].
    cbn [snd] in Hmp.
    destruct continue; [|now intros [= <-]].
    destruct (Assoc.find sid (ucs_connections s1)) as [c1|] eqn:Hf1;
      intros [= <-]; [|exact Hmp].
    apply (steady_well_formed _ _ (steady_emit _ _)).
    now apply (well_formed_store _ c1).
Qed.

Lemma well_formed_process r s s' :
  well_formed s -> process r s = Returned s' -> well_formed s'.
Proof.
  intros Hwf. destruct r; cbn [process].
  - intros [= <-]. now apply well_formed_On_incoming_connection.
  - now apply well_formed_Read_completed.
  - intros [= <-]. unfold Write_completed.
    destruct result; try exact Hwf; now apply well_formed_Close_ucs_stream.
  - intros [= <-]. exact (steady_well_formed _ _ (steady_On_timer_loop _ _ _) Hwf).
  - unfold On_register_vehicle.
    destruct (Assoc.find _ (vehicles s)); [discriminate|].
    match goal with
    | |- context [Broadcast_message_to_ucs ?m ?s0] =>
        pose proof (steady_Broadcast_loop (Assoc.keys (ucs_connections s0)) m s0)
          as Hb;
        fold (Broadcast_message_to_ucs m s0) in Hb;
        destruct (Broadcast_message_to_ucs m s0) as [m' s1]
    end.
    intros [= <-]. eapply steady_well_formed; [|exact Hwf].
    eapply steady_trans; [apply steady_set_vehicles|].
    eapply steady_trans; [exact Hb|apply steady_set_vehicles].
  - unfold On_unregister_vehicle.
    destruct (Assoc.find _ (vehicles s)); [|discriminate].
    intros [= <-]. eapply steady_well_formed; [|exact Hwf].
    eapply steady_trans; [apply steady_set_vehicles|].
    apply steady_Broadcast_loop.
  - intros [= <-]. unfold On_send_ucs_message.
    destruct (Assoc.find _ (vehicles s)); [|exact Hwf].
    eapply steady_well_formed; [|exact Hwf].
    eapply steady_trans; [apply steady_set_vehicles|].
    destruct (negb _); [apply steady_Send_ucs_message|apply steady_Broadcast_loop].
  - intros [= <-]. exact (steady_well_formed _ _ (steady_Send_ucs_message _ _ _) Hwf).
Qed.

Lemma well_formed_run rs : forall s s',
  well_formed s -> run rs s = Returned s' -> well_formed s'.
Proof.
  induction rs as [|r rs IH]; intros s s' Hwf; cbn.
  - now intros [= <-].
  - destruct (process r s) as [s1| |] eqn:Hh; try discriminate.
    apply IH. eapply well_formed_process; eassumption.
Qed.

(** In every reachable state the connections have distinct keys and each
    is stored under its own stream id. *)
Lemma reachable_well_formed s : reachable s -> well_formed s.
Proof.
  intros (keep_alive & pinned & rs & Hrun).
  eapply well_formed_run; [|exact Hrun].
  split; cbn; [constructor|intros k i []].
Qed.

Corollary reachable_keys_NoDup s :
  reachable s -> NoDup (Assoc.keys (ucs_connections s)).
Proof.
  intros Hr. destruct (reachable_well_formed s Hr) as [Hnd _].
  unfold idents in Hnd. rewrite map_map in Hnd. exact Hnd.
Qed.

Corollary reachable_stream_id s k c :
  reachable s -> Assoc.find k (ucs_connections s) = Some c -> stream_id c = k.
Proof.
  intros Hr Hf. destruct (reachable_well_formed s Hr) as [_ Hin].
  apply find_In in Hf. apply (Hin k (stream_id c)).
  unfold idents. apply in_map_iff. exists (k, c). auto.
Qed.

Lemma anchors_find l l' k c :
  anchors l' = anchors l -> Assoc.find k l = Some c ->
  exists c', Assoc.find k l' = Some c' /\ anchor c' = anchor c.
Proof.
  unfold anchors. revert l'.
  induction l as [|[k0 c0] l IH]; intros [|[k1 c1] l'];
    cbn [map fst snd Assoc.find]; try discriminate.
  intros Heq.
  assert (Hk : k1 = k0) by congruence.
  assert (Ha : anchor c1 = anchor c0) by congruence.
  assert (Hl : map (fun kv => (kv.1, anchor kv.2)) l'
               = map (fun kv => (kv.1, anchor kv.2)) l) by congruence.
  subst k1. destruct (k0 =? k).
  - intros [= <-]. now exists c1.
  - now apply IH.
Qed.

(** A message that does not end the connection leaves its framing state
    alone. *)
Lemma steady_Message_parsed sid connection vsm_msg now s s' :
  Assoc.find sid (ucs_connections s) = Some connection ->
  Message_parsed sid connection vsm_msg now s = (true, s') ->
  steady s s'.
Proof.
  intros Hf. unfold Message_parsed.
  assert (Hst : steady s (store sid (set_last_message_time now connection) s))
    by (now apply (steady_store _ connection)).
  destruct (ucs_id connection) as [ucs|].
  - destruct (device_response vsm_msg) as [response|].
    + destruct (Assoc.find _ (pending_registrations connection));
        intros [= <-]; (eapply steady_trans; [exact Hst|]).
      * apply steady_Registration_response.
      * apply steady_On_ucs_message.
    + intros [= <-].
      eapply steady_trans; [exact Hst|apply steady_On_ucs_message].
  - destruct (register_peer vsm_msg) as [reg_peer|].
    + destruct (acceptable_peer_type _); [|discriminate].
      intros [= <-].
      eapply steady_trans; [exact Hst|apply steady_Register_peer_accepted].
    + intros [= <-]. apply steady_emit.
Qed.

(** [Read_completed] decodes as [Read_frame] does: on a successful read for
    a known connection it fails where [Read_frame] fails, leaves the
    connection in the framing state [Read_frame] computes, and asks the
    stream for the number of bytes that state wants; a body is handed to
    [ParseFromArray] as it was read, and the connection is closed unless
    the message parses and its handler goes on: then the decoder waits for
    the next header. *)
Lemma Read_completed_Read_frame buffer sid now s connection :
  Assoc.find sid (ucs_connections s) = Some connection ->
  match Read_frame (framing connection) buffer with
  | Frame_undefined =>
      Read_completed buffer Io_OK sid now s = Undefined_behaviour
  | Frame_internal_error =>
      Read_completed buffer Io_OK sid now s
      = Thrown Internal_error_exception s
  | Frame_too_long =>
      exists s1, Read_completed buffer Io_OK sid now s
                 = Returned (Close_ucs_stream sid s1)
  | Frame_header f =>
      exists s' c',
        Read_completed buffer Io_OK sid now s = Returned s'
        /\ Assoc.find sid (ucs_connections s') = Some c'
        /\ framing c' = f
        /\ trace s' = trace s ++ [Stream_read (stream_id connection) (to_read f)]
  | Frame_body payload =>
      payload = buffer
      /\ match ParseFromArray payload with
         | None =>
             Read_completed buffer Io_OK sid now s
             = Returned (Close_ucs_stream sid (emit (Log LOG_parse_failed) s))
         | Some vsm_msg =>
             match Message_parsed sid connection vsm_msg now s with
             | (false, s1) =>
                 Read_completed buffer Io_OK sid now s = Returned s1
             | (true, s1) =>
                 exists s' c',
                   Read_completed buffer Io_OK sid now s = Returned s'
                   /\ Assoc.find sid (ucs_connections s') = Some c'
                   /\ framing c'
                      = wait_for_next_header (framing connection)
                   /\ trace s'
                      = trace s1 ++ [Stream_read (stream_id connection) 1]
             end
         end
  end.
Proof.
  intros Hf. unfold Read_frame, Read_completed. rewrite Hf.
  destruct (reading_header (framing connection)).
  - destruct buffer as [|byte [|? ?]]; try reflexivity.
    destruct (Read_header (framing connection) byte) as [|f|f].
    + reflexivity.
    + eexists. reflexivity.
    + eexists _, (set_framing f connection).
      split; [reflexivity|].
      split; [cbn; rewrite find_replace, Hf; reflexivity|].
      split; reflexivity.
  - split; [reflexivity|].
    destruct (ParseFromArray buffer) as [vsm_msg|]; [|reflexivity].
    destruct (Message_parsed sid connection vsm_msg now s) as [[|] s1] eqn:Hmp;
      [|reflexivity].
    destruct (steady_Message_parsed _ _ _ _ _ _ Hf Hmp) as [Ha _].
    destruct (anchors_find _ _ _ _ Ha Hf) as (c1 & Hf1 & Hc1).
    rewrite Hf1. unfold anchor in Hc1. injection Hc1 as Hid Hfr.
    eexists _, (set_framing (wait_for_next_header (framing c1)) c1).
    split; [reflexivity|].
    split; [cbn; rewrite find_replace, Hf1; reflexivity|].
    split; [cbn; now rewrite Hfr|].
    cbn. now rewrite Hid.
Qed.

End Invariant.

(** ** The read loop *)

Section Read_loop.
Context `{Platform}.
Variables sid now : Z.

Lemma line_step_shrinks l l' :
  line_step sid now l = Some l' ->
  (length (line_inbox l') < length (line_inbox l))%nat.
Proof.
  unfold line_step. destruct (line_outcome l); try discriminate.
  destruct (Assoc.find _ _); try discriminate.
  destruct (_ && _) eqn:E; try discriminate.
  apply andb_true_iff in E as [E1 E2].
  apply Nat.ltb_lt in E1. apply Nat.leb_le in E2.
  intros [= <-]. cbn. rewrite length_drop. lia.
Qed.

Lemma line_step_empty l : line_inbox l = [] -> line_step sid now l = None.
Proof.
  intros Hi. unfold line_step. rewrite Hi.
  destruct (line_outcome l); try reflexivity.
  destruct (Assoc.find _ _); try reflexivity.
  destruct (0 <? _)%nat eqn:E1; cbn; [|reflexivity].
  apply Nat.ltb_lt in E1.
  destruct (_ <=? _)%nat eqn:E2; [|reflexivity].
  apply Nat.leb_le in E2. lia.
Qed.

Lemma line_drain_stuck fuel l :
  line_step sid now l = None -> line_drain fuel sid now l = l.
Proof. destruct fuel; cbn; [reflexivity|]. now intros ->. Qed.

Lemma line_drain_enough fuel l :
  (length (line_inbox l) <= fuel)%nat ->
  line_step sid now (line_drain fuel sid now l) = None.
Proof.
  revert l. induction fuel as [|fuel IH]; intros l Hlen; cbn.
  - apply line_step_empty. destruct (line_inbox l); [reflexivity|cbn in Hlen; lia].
  - destruct (line_step sid now l) as [l'|] eqn:E; [|exact E].
    apply IH. apply line_step_shrinks in E. lia.
Qed.

Lemma line_settle_stuck l :
  line_step sid now l = None -> line_settle sid now l = l.
Proof. apply line_drain_stuck. Qed.

Lemma line_drain_more fuel l :
  (length (line_inbox l) <= fuel)%nat ->
  line_drain fuel sid now l = line_settle sid now l.
Proof.
  unfold line_settle. revert l.
  induction fuel as [fuel IH] using lt_wf_ind. intros l Hlen.
  destruct (line_step sid now l) as [l'|] eqn:E.
  - pose proof (line_step_shrinks _ _ E) as Hs.
    destruct fuel as [|fuel]; [lia|].
    destruct (length (line_inbox l)) as [|n] eqn:En; [lia|].
    cbn. rewrite E.
    rewrite (IH fuel) by lia. rewrite (IH n) by lia. reflexivity.
  - now rewrite !line_drain_stuck.
Qed.

Lemma line_settle_step l l' :
  line_step sid now l = Some l' -> line_settle sid now l = line_settle sid now l'.
Proof.
  intros E. pose proof (line_step_shrinks _ _ E) as Hs.
  unfold line_settle at 1.
  destruct (length (line_inbox l)) as [|n] eqn:En; [lia|].
  cbn. rewrite E. apply line_drain_more. lia.
Qed.

Lemma line_settle_settled l : line_step sid now (line_settle sid now l) = None.
Proof. apply line_drain_enough. lia. Qed.

(** A read that can complete still completes, and in the same way, when
    more bytes have arrived behind the ones it takes. *)
Lemma line_step_push l l' extra :
  line_step sid now l = Some l' ->
  line_step sid now (line_push l extra) = Some (line_push l' extra).
Proof.
  unfold line_step, line_push.
  cbn [line_outcome line_inbox line_frames].
  destruct (line_outcome l) as [s| |]; try discriminate.
  destruct (Assoc.find _ _) as [c|]; try discriminate.
  destruct (_ && _) eqn:E; try discriminate.
  apply andb_true_iff in E as [E1 E2].
  apply Nat.ltb_lt in E1. apply Nat.leb_le in E2.
  intros [= <-].
  rewrite length_app.
  replace ((0 <? _)%nat && _) with true.
  2:{ symmetry. apply andb_true_iff. split;
      [apply Nat.ltb_lt|apply Nat.leb_le]; lia. }
  cbn [line_outcome line_inbox line_frames].
  now rewrite take_app_le, drop_app_le by lia.
Qed.

Lemma line_settle_push_settle l extra :
  line_settle sid now (line_push (line_settle sid now l) extra)
  = line_settle sid now (line_push l extra).
Proof.
  remember (length (line_inbox l)) as n eqn:En.
  revert l En. induction n as [n IH] using lt_wf_ind. intros l ->.
  destruct (line_step sid now l) as [l'|] eqn:E.
  - rewrite (line_settle_step _ _ E).
    rewrite (line_settle_step _ _ (line_step_push _ _ extra E)).
    eapply IH; [|reflexivity]. now apply line_step_shrinks.
  - now rewrite (line_settle_stuck _ E).
Qed.

Lemma line_push_push l a b :
  line_push (line_push l a) b = line_push l (a ++ b).
Proof. unfold line_push; cbn. now rewrite app_assoc. Qed.

Lemma arrive_arrive l a b :
  arrive sid now (arrive sid now l a) b = arrive sid now l (a ++ b).
Proof.
  unfold arrive. now rewrite line_settle_push_settle, line_push_push.
Qed.

(** How the bytes were split on the way makes no difference. *)
Lemma arrive_all_concat l chunks :
  line_step sid now l = None ->
  arrive_all sid now l chunks = arrive sid now l (concat chunks).
Proof.
  unfold arrive_all. revert l.
  induction chunks as [|c cs IH]; intros l Hl; cbn [fold_left concat].
  - assert (Hp : line_push l [] = l)
      by (destruct l; unfold line_push; cbn; now rewrite app_nil_r).
    unfold arrive. rewrite Hp. symmetry. now apply line_settle_stuck.
  - rewrite IH by apply line_settle_settled. apply arrive_arrive.
Qed.

Lemma header_run_length f bytes f' :
  header_run f bytes f' -> (0 < length bytes)%nat.
Proof. destruct 1; cbn; lia. Qed.

Lemma header_run_start f bytes f' :
  header_run f bytes f' -> reading_header f = true /\ to_read f = 1.
Proof. destruct 1; auto. Qed.

Lemma line_step_header s connection b f' rest frames :
  Assoc.find sid (ucs_connections s) = Some connection ->
  reading_header (framing connection) = true ->
  to_read (framing connection) = 1 ->
  Read_header (framing connection) b = Header_next f' ->
  line_step sid now
    {| line_outcome := Returned s; line_inbox := b :: rest;
       line_frames := frames |}
  = Some {| line_outcome :=
              Returned (emit (Stream_read (stream_id connection) (to_read f'))
                          (store sid (set_framing f' connection) s));
            line_inbox := rest; line_frames := frames |}.
Proof.
  intros Hf Hh Hr E. unfold line_step.
  cbn [line_outcome line_inbox line_frames]. rewrite Hf, Hr, Hh.
  change (Z.to_nat 1) with 1%nat. cbn [length Nat.ltb Nat.leb andb take drop].
  unfold Read_completed. now rewrite Hf, Hh, E.
Qed.

Lemma header_taken_step connection b bytes f1 f' s :
  (0 < length bytes)%nat -> to_read f1 = 1 ->
  header_taken sid (set_framing f1 connection) bytes f'
    (emit (Stream_read (stream_id connection) (to_read f1))
       (store sid (set_framing f1 connection) s))
  = header_taken sid connection (b :: bytes) f' s.
Proof.
  intros Hlen ->. unfold header_taken, header_reads.
  cbn [stream_id set_framing length].
  replace (S (length bytes) - 1)%nat with (S (length bytes - 1)) by lia.
  cbn [repeat app emit_all fold_left]. f_equal.
  unfold store, emit, set_ucs_connections. cbn.
  now rewrite replace_replace.
Qed.

(** The read loop follows a run of header bytes: the connection takes
    the framing state the run ends in, and a read was asked for after
    each byte. *)
Lemma line_header_run f bytes f' :
  header_run f bytes f' ->
  forall s connection rest frames,
    Assoc.find sid (ucs_connections s) = Some connection ->
    framing connection = f ->
    line_settle sid now
      {| line_outcome := Returned s; line_inbox := bytes ++ rest;
         line_frames := frames |}
    = line_settle sid now
        {| line_outcome := Returned (header_taken sid connection bytes f' s);
           line_inbox := rest; line_frames := frames |}.
Proof.
  induction 1 as [f b f' Hh Hr E|f b f1 bytes f' Hh Hr E Hrun IH];
    intros s connection rest frames Hf Hfr; subst f; cbn [app].
  - now rewrite (line_settle_step _ _
                   (line_step_header _ _ _ _ rest frames Hf Hh Hr E)).
  - rewrite (line_settle_step _ _
               (line_step_header _ _ _ _ (bytes ++ rest) frames Hf Hh Hr E)).
    rewrite (IH _ (set_framing f1 connection)).
    + rewrite (header_taken_step _ b); [reflexivity|..].
      * exact (header_run_length _ _ _ Hrun).
      * exact (proj2 (header_run_start _ _ _ Hrun)).
    + cbn. now rewrite find_replace, Hf.
    + reflexivity.
Qed.

Lemma find_header_taken connection header f s :
  Assoc.find sid (ucs_connections s) = Some connection ->
  Assoc.find sid (ucs_connections (header_taken sid connection header f s))
  = Some (set_framing f connection).
Proof.
  intros Hf. unfold header_taken.
  rewrite ucs_connections_emit_all. cbn. now rewrite find_replace, Hf.
Qed.

(** The read of a body: its bytes go to [Read_completed] as they are and
    count as a frame, and nothing is left to read. *)
Lemma line_settle_body s connection payload frames :
  Assoc.find sid (ucs_connections s) = Some connection ->
  reading_header (framing connection) = false ->
  to_read (framing connection) = Z.of_nat (length payload) ->
  (0 < length payload)%nat ->
  line_settle sid now
    {| line_outcome := Returned s; line_inbox := payload;
       line_frames := frames |}
  = {| line_outcome := Read_completed payload Io_OK sid now s;
       line_inbox := []; line_frames := frames ++ [payload] |}.
Proof.
  intros Hf Hh Hr Hlen.
  assert (Hstep :
    line_step sid now
      {| line_outcome := Returned s; line_inbox := payload;
         line_frames := frames |}
    = Some {| line_outcome := Read_completed payload Io_OK sid now s;
              line_inbox := []; line_frames := frames ++ [payload] |}).
  { unfold line_step. cbn [line_outcome line_inbox line_frames].
    rewrite Hf, Hr, Hh, Nat2Z.id.
    replace ((0 <? length payload)%nat && (length payload <=? length payload)%nat)
      with true
      by (symmetry; apply andb_true_iff; split;
          [apply Nat.ltb_lt|apply Nat.leb_le]; lia).
    now rewrite firstn_all, skipn_all. }
  rewrite (line_settle_step _ _ Hstep).
  apply line_settle_stuck. now apply line_step_empty.
Qed.

(** C4, as amended: a message [M] whose serialization has length [L], no
    longer than [PROTO_MAX_MESSAGE_LEN] and within the [int] that
    [ByteSize] returns, is sent to a connection that waits for a header in
    its initial framing state; the encoder output arrives split in any way
    (one byte at a time included).

    - If [L = 0], the encoder output is the single byte 0: the read loop
      takes it, hands no frame to the parser and asks for the next header
      byte; the processor is otherwise as it was.
    - If [0 < L], the read loop takes the length prefix and then completes
      exactly one read in body state, whose buffer is the serialization of
      [M]: that one frame goes to [ParseFromArray], and no byte is left.
      What the decoder is left in depends on the message: if it does not
      parse, the connection is closed; if its handler ends the connection
      (a [register_peer] of an unacceptable peer type), nothing more is
      read; otherwise the connection is back in its initial header state
      and the next header byte is asked for. *)
Theorem frame_round_trip (s : Cucs_processor) (connection : Server_context)
  (M : Vsm_message) (chunks : list (list Z)) :
  Assoc.find sid (ucs_connections s) = Some connection ->
  framing connection = initial_framing ->
  Z.of_nat (length (SerializeToArray M)) <= PROTO_MAX_MESSAGE_LEN ->
  Z.of_nat (length (SerializeToArray M)) <= INT_MAX ->
  concat chunks = encode_user_data (SerializeToArray M) ->
  (length (SerializeToArray M) = 0%nat ->
   arrive_all sid now (new_line s) chunks
   = {| line_outcome :=
          Returned (emit (Stream_read (stream_id connection) 1) s);
        line_inbox := []; line_frames := [] |})
  /\ ((0 < length (SerializeToArray M))%nat ->
      let payload := SerializeToArray M in
      let size := Z.of_nat (length payload) in
      let awaiting := set_framing (body_state size) connection in
      let s_body :=
        header_taken sid connection (encode_header size) (body_state size) s in
      arrive_all sid now (new_line s) chunks
      = {| line_outcome := Read_completed payload Io_OK sid now s_body;
           line_inbox := []; line_frames := [payload] |}
      /\ match ParseFromArray payload with
         | None =>
             Read_completed payload Io_OK sid now s_body
             = Returned
                 (Close_ucs_stream sid (emit (Log LOG_parse_failed) s_body))
         | Some vsm_msg =>
             match Message_parsed sid awaiting vsm_msg now s_body with
             | (false, s1) =>
                 Read_completed payload Io_OK sid now s_body = Returned s1
             | (true, s1) =>
                 exists s' connection',
                   Read_completed payload Io_OK sid now s_body = Returned s'
                   /\ Assoc.find sid (ucs_connections s') = Some connection'
                   /\ framing connection' = initial_framing
                   /\ trace s'
                      = trace s1 ++ [Stream_read (stream_id connection) 1]
             end
         end).
Proof.
  intros Hf Hfr Hmax Hint Hchunks.
  set (payload := SerializeToArray M) in *.
  set (size := Z.of_nat (length payload)) in *.
  assert (Hnn : 0 <= size) by apply Nat2Z.is_nonneg.
  pose proof (encode_header_initial size (conj Hnn Hmax) Hint) as Hrun.
  assert (Harrive :
    arrive_all sid now (new_line s) chunks
    = line_settle sid now
        {| line_outcome :=
             Returned
               (header_taken sid connection (encode_header size)
                  (if negb (size =? 0) then body_state size
                   else initial_framing) s);
           line_inbox := payload; line_frames := [] |}).
  { rewrite arrive_all_concat by (now apply line_step_empty).
    rewrite Hchunks. unfold arrive, line_push, new_line, encode_user_data.
    cbn [line_outcome line_inbox line_frames app]. fold size.
    now apply line_header_run with (f := initial_framing). }
  split.
  - intros Hzero. rewrite Harrive.
    assert (Hp : payload = []) by (now destruct payload).
    assert (Hs : size = 0) by (unfold size; lia).
    rewrite Hp, Hs. cbn [Z.eqb negb].
    rewrite line_settle_stuck by (now apply line_step_empty).
    f_equal. f_equal. unfold header_taken, header_reads.
    change (encode_header 0) with [0].
    cbn [length Nat.sub repeat app emit_all fold_left stream_id set_framing
         initial_framing to_read].
    f_equal. apply store_same. rewrite Hf. f_equal.
    rewrite <- Hfr. now destruct connection.
  - intros Hpos payload' size' awaiting s_body.
    subst payload' size'. fold payload. fold size in awaiting, s_body |- *.
    assert (Hnz : negb (size =? 0) = true)
      by (apply negb_true_iff, Z.eqb_neq; unfold size; lia).
    rewrite Hnz in Harrive. fold s_body in Harrive.
    assert (Hfb : Assoc.find sid (ucs_connections s_body) = Some awaiting)
      by (now apply find_header_taken).
    split.
    + rewrite Harrive. now apply (line_settle_body _ awaiting).
    + pose proof (Read_completed_Read_frame payload sid now s_body awaiting Hfb)
        as Hrc.
      unfold Read_frame in Hrc.
      cbn [awaiting framing set_framing body_state reading_header] in Hrc.
      destruct Hrc as [_ Hrc].
      destruct (ParseFromArray payload) as [vsm_msg|]; [|exact Hrc].
      destruct (Message_parsed sid awaiting vsm_msg now s_body) as [[|] s1];
        [|exact Hrc].
      destruct Hrc as (s' & c' & Hr & Hf' & Hfr' & Htr).
      exists s', c'. repeat split; assumption.
Qed.

End Read_loop.


(** ** More on the frame codec *)

Section Codec_more.
Context `{Platform}.

Lemma encode_header_loop_shape k : forall fuel n,
  (k <= fuel)%nat -> 0 <= n < 2 ^ (7 * Z.of_nat (S k)) ->
  let h := encode_header_loop (S fuel) n in
  (1 <= length h <= S k)%nat
  /\ varint_value h = n
  /\ exists body last,
       h = body ++ [last] /\ 0 <= last < 128
       /\ forall b, In b body -> 128 <= b < 256.
Proof.
  induction k as [|k IH]; intros fuel n Hk Hn h; subst h.
  all: assert (Hdm : n = 128 * (n / 128) + n mod 128) by (apply Z.div_mod; lia).
  all: assert (Hm : 0 <= n mod 128 < 128) by (apply Z.mod_pos_bound; lia).
  all: assert (Hd : 0 <= n / 128) by (apply Z.div_pos; lia).
  all: rewrite encode_header_loop_S, Z.shiftr_div_pow2 by lia;
       change (2 ^ 7) with 128.
  - assert (n / 128 = 0) as Hz by (apply Z.div_small; cbn in Hn; lia).
    rewrite Hz. cbn [Z.eqb length varint_value].
    rewrite low7_of_last. split; [lia|]. split; [lia|].
    exists [], (Z.land n 0x7f). rewrite low7.
    split; [reflexivity|]. split; [lia|]. intros b [].
  - destruct (n / 128 =? 0) eqn:Ez.
    + apply Z.eqb_eq in Ez. cbn [length varint_value].
      rewrite low7_of_last. split; [lia|]. split; [lia|].
      exists [], (Z.land n 0x7f). rewrite low7.
      split; [reflexivity|]. split; [lia|]. intros b [].
    + apply Z.eqb_neq in Ez.
      destruct fuel as [|fuel]; [lia|].
      destruct (IH fuel (n / 128)) as (Hlen & Hval & body & last & Hh & Hlast & Hbody).
      * lia.
      * split; [lia|]. apply Z.div_lt_upper_bound; [lia|].
        replace (7 * Z.of_nat (S (S k))) with (7 + 7 * Z.of_nat (S k)) in Hn by lia.
        rewrite Z.pow_add_r in Hn by lia. change (2 ^ 7) with 128 in Hn. lia.
      * cbn [length varint_value]. rewrite low7_of_more, Hval.
        split; [lia|]. split; [lia|].
        exists (Z.lor (Z.land n 0x7f) 0x80 :: body), last.
        split; [now rewrite Hh|]. split; [exact Hlast|].
        intros b [<-|Hb]; [|now apply Hbody].
        rewrite low7.
        assert (Hor : Z.lor (n mod 128) 128 = n mod 128 + 128).
        { rewrite Z.lor_comm. change 128 with (1 * 2 ^ 7) at 1.
          rewrite Z.lor_comm.
          rewrite (lor_shift_add (n mod 128) 1 7); [lia|lia| |lia].
          change (2 ^ 7) with 128. lia. }
        rewrite Hor. lia.
Qed.

(** X1: the length prefix written by [Send_ucs_message] for a payload
    length that an [int] holds has between one and five bytes, so it stays
    within the ten bytes reserved in front of the payload; every byte but
    the last has the continuation bit set, the last has it clear, and the
    seven-bit groups, least significant first, spell the payload length. *)
Theorem encode_header_shape n :
  0 <= n <= INT_MAX ->
  (1 <= length (encode_header n) <= 5)%nat
  /\ varint_value (encode_header n) = n
  /\ exists body last,
       encode_header n = body ++ [last] /\ 0 <= last < 128
       /\ forall b, In b body -> 128 <= b < 256.
Proof.
  intros Hn. unfold encode_header. change (Z.to_nat INT_BITS) with (S 31).
  apply (encode_header_loop_shape 4 31 n); [lia|].
  unfold INT_MAX, INT_BITS in Hn. split; [lia|].
  eapply Z.le_lt_trans; [apply Hn|]. reflexivity.
Qed.

(** One header byte that takes the accumulated size over the cap. *)
Lemma Read_header_over acc sh b v :
  0 <= sh < INT_BITS -> 0 <= acc < 2 ^ sh -> 0 <= v ->
  Z.land b 0x7f = v ->
  acc + v * 2 ^ sh <= INT_MAX ->
  PROTO_MAX_MESSAGE_LEN < acc + v * 2 ^ sh ->
  exists f, Read_header (header_state acc sh) b = Header_too_long f.
Proof.
  intros Hsh Hacc Hv Hb Hint Hmax. unfold Read_header.
  cbn [shift message_size header_state to_read reading_header].
  rewrite Hb. unfold shift_left_int.
  replace ((0 <=? sh) && (sh <? INT_BITS)) with true
    by (symmetry; apply andb_true_iff; split; [apply Z.leb_le|apply Z.ltb_lt]; lia).
  rewrite Z.shiftl_mul_pow2 by lia.
  assert (Hp : 0 < 2 ^ sh) by (apply Z.pow_pos_nonneg; lia).
  assert (Hr : 0 <= v * 2 ^ sh <= INT_MAX) by nia.
  unfold INT_MAX, INT_BITS in *.
  replace (to_int (v * 2 ^ sh)) with (v * 2 ^ sh).
  2:{ unfold to_int, INT_BITS. rewrite Z.mod_small; lia. }
  replace (to_size_t (v * 2 ^ sh)) with (v * 2 ^ sh).
  2:{ unfold to_size_t, SIZE_BITS. rewrite Z.mod_small; lia. }
  rewrite lor_shift_add by lia.
  replace (PROTO_MAX_MESSAGE_LEN <? acc + v * 2 ^ sh) with true
    by (symmetry; apply Z.ltb_lt; lia).
  eexists. reflexivity.
Qed.

Lemma rx_step_too_long acc sh b rest frames f :
  Read_header (header_state acc sh) b = Header_too_long f ->
  rx_step (rx (header_state acc sh) (b :: rest) frames) =
  Some {| rx_framing := header_state acc sh; rx_inbox := rest;
          rx_frames := frames; rx_status := Failed_too_long |}.
Proof.
  intros E. unfold rx_step, rx.
  cbn [rx_status rx_framing rx_inbox rx_frames header_state to_read].
  change (Z.to_nat 1) with 1%nat. cbn [length Nat.ltb Nat.leb andb take drop].
  unfold Read_frame. cbn [reading_header]. now rewrite E.
Qed.

Lemma settle_header_over fuel : forall n acc sh rest frames,
  0 <= n < 2 ^ (7 * Z.of_nat (S fuel)) ->
  0 <= sh < INT_BITS -> 0 <= acc < 2 ^ sh ->
  acc + n * 2 ^ sh <= INT_MAX ->
  PROTO_MAX_MESSAGE_LEN < acc + n * 2 ^ sh ->
  let r := settle (rx (header_state acc sh)
                     (encode_header_loop (S fuel) n ++ rest) frames) in
  rx_status r = Failed_too_long /\ rx_frames r = frames.
Proof.
  induction fuel as [|fuel IH]; intros n acc sh rest frames Hn Hsh Hacc Hint Hmax.
  all: assert (Hp : 0 < 2 ^ sh) by (apply Z.pow_pos_nonneg; lia).
  all: assert (Hdm : n = 128 * (n / 128) + n mod 128) by (apply Z.div_mod; lia).
  all: assert (Hm : 0 <= n mod 128 < 128) by (apply Z.mod_pos_bound; lia).
  all: assert (Hd : 0 <= n / 128) by (apply Z.div_pos; lia).
  all: assert (Hfail : forall b rest',
         Z.land b 0x7f = n mod 128 ->
         PROTO_MAX_MESSAGE_LEN < acc + n mod 128 * 2 ^ sh ->
         let r := settle (rx (header_state acc sh) (b :: rest') frames) in
         rx_status r = Failed_too_long /\ rx_frames r = frames).
  1,3: intros b rest' Hb Hover;
       destruct (Read_header_over acc sh b (n mod 128)) as [f Hf];
         [lia|lia|lia|exact Hb|nia|exact Hover|];
       cbn zeta; rewrite (settle_step _ _ (rx_step_too_long _ _ _ rest' frames _ Hf));
       rewrite settle_stuck by reflexivity; split; reflexivity.
  all: cbn zeta; rewrite encode_header_loop_S, Z.shiftr_div_pow2 by lia;
       change (2 ^ 7) with 128.
  - assert (n / 128 = 0) as Hz by (apply Z.div_small; cbn in Hn; lia).
    rewrite Hz. cbn [Z.eqb app].
    apply Hfail; [apply low7_of_last|]. replace (n mod 128) with n by lia. lia.
  - destruct (n / 128 =? 0) eqn:Ez.
    + apply Z.eqb_eq in Ez. cbn [app].
      apply Hfail; [apply low7_of_last|]. replace (n mod 128) with n by lia. lia.
    + apply Z.eqb_neq in Ez. cbn [app].
      destruct (Z.lt_ge_cases PROTO_MAX_MESSAGE_LEN (acc + n mod 128 * 2 ^ sh))
        as [Hover|Hunder].
      { apply Hfail; [apply low7_of_more|exact Hover]. }
      assert (Hbig : 2 ^ (sh + 7) <= INT_MAX).
      { rewrite Z.pow_add_r by lia. change (2 ^ 7) with 128. nia. }
      assert (Hsh7 : sh + 7 < INT_BITS).
      { unfold INT_MAX, INT_BITS in *.
        destruct (Z.lt_ge_cases (sh + 7) 31) as [?|Hge]; [lia|].
        apply (Z.pow_le_mono_r 2) in Hge; lia. }
      assert (Hdigit :
        Read_header (header_state acc sh) (Z.lor (Z.land n 0x7f) 0x80) =
        Header_next (header_state (acc + n mod 128 * 2 ^ sh) (sh + 7))).
      { rewrite (Read_header_digit acc sh _ (n mod 128));
          [|lia|lia|lia|apply low7_of_more|nia|lia].
        now rewrite more_flag_set. }
      rewrite (settle_step _ _
                 (rx_step_header (header_state acc sh) _ _ frames _
                    eq_refl eq_refl Hdigit)).
      assert (Hpow : 2 ^ (sh + 7) = 128 * 2 ^ sh)
        by (rewrite Z.pow_add_r by lia; change (2 ^ 7) with 128; lia).
      apply IH.
      * split; [lia|].
        apply Z.div_lt_upper_bound; [lia|].
        replace (7 * Z.of_nat (S (S fuel))) with (7 + 7 * Z.of_nat (S fuel)) in Hn by lia.
        rewrite Z.pow_add_r in Hn by lia. change (2 ^ 7) with 128 in Hn. lia.
      * lia.
      * split; [nia|]. nia.
      * nia.
      * nia.
Qed.

(** X2: a frame announced longer than [PROTO_MAX_MESSAGE_LEN] is refused
    while its length prefix is read: whatever follows the prefix, the
    decoder ends in the too-long failure (the state in which
    [Read_completed] closes the stream) and hands over no frame. *)
Theorem oversized_frame_rejected n rest :
  0 <= PROTO_MAX_MESSAGE_LEN < n -> n <= INT_MAX ->
  let r := receive new_receiver (encode_header n ++ rest) in
  rx_status r = Failed_too_long /\ rx_frames r = [].
Proof.
  intros [Hmax Hover] Hint. unfold receive, push, new_receiver, encode_header.
  cbn [rx_framing rx_inbox rx_frames rx_status app].
  change (Z.to_nat INT_BITS) with (S 31).
  change initial_framing with (header_state 0 0).
  fold (rx (header_state 0 0) (encode_header_loop 32 n ++ rest) []).
  apply settle_header_over.
  - unfold INT_MAX, INT_BITS in Hint.
    split; [lia|].
    eapply Z.le_lt_trans; [apply Hint|]. reflexivity.
  - unfold INT_BITS; lia.
  - change (2 ^ 0) with 1. lia.
  - lia.
  - lia.
Qed.

Lemma settle_zero_frames n rest frames :
  0 <= PROTO_MAX_MESSAGE_LEN ->
  settle (rx initial_framing (repeat 0 n ++ rest) frames) =
  settle (rx initial_framing rest frames).
Proof.
  intros Hmax. induction n as [|n IH]; cbn [repeat app]; [reflexivity|].
  change initial_framing with (header_state 0 0).
  assert (Hdigit : Read_header (header_state 0 0) 0 =
                   Header_next (header_state 0 0)).
  { rewrite (Read_header_digit 0 0 0 0);
      [reflexivity|unfold INT_BITS; lia|cbn; lia|lia|reflexivity
      |unfold INT_MAX, INT_BITS; cbn; lia|cbn; lia]. }
  rewrite (settle_step _ _
                 (rx_step_header (header_state 0 0) _ _ frames _
                    eq_refl eq_refl Hdigit)).
  exact IH.
Qed.

(** X3: zero-length frames carry nothing.  Any number of them in front of
    a frame (a length prefix of 0 is the single byte 0) is consumed in
    header state, and the payload behind them is what the decoder hands to
    the parser, as if they had not been sent. *)
Theorem zero_length_frames_skipped n payload chunks :
  0 < Z.of_nat (length payload) <= PROTO_MAX_MESSAGE_LEN ->
  Z.of_nat (length payload) <= INT_MAX ->
  concat chunks = repeat 0 n ++ encode_user_data payload ->
  receive_all new_receiver chunks
  = {| rx_framing := body_state (Z.of_nat (length payload)); rx_inbox := [];
       rx_frames := [payload]; rx_status := Handed_over |}.
Proof.
  intros Hlen Hint Hchunks.
  rewrite receive_all_concat by apply new_receiver_idle.
  rewrite Hchunks. unfold receive, push, new_receiver.
  cbn [rx_framing rx_inbox rx_frames rx_status app].
  fold (rx initial_framing (repeat 0 n ++ encode_user_data payload) []).
  rewrite settle_zero_frames by lia.
  now apply receive_user_data.
Qed.

End Codec_more.

(** ** More on the router *)

Section Router_more.
Context `{Platform}.

(** A message that is not a [register_device] and needs no message id, on
    a connection whose peer is known: it is written as it is if the
    connection admits it and dropped otherwise; no other connection is
    touched. *)
Lemma Send_ucs_message_plain sid ctx m s :
  Assoc.find sid (ucs_connections s) = Some ctx ->
  ucs_id ctx <> None ->
  register_device m = None ->
  needs_message_id m = false ->
  let m' := fst (Send_ucs_message sid m s) in
  let s' := snd (Send_ucs_message sid m s) in
  m' = m
  /\ vehicles s' = vehicles s
  /\ ucs_id_counter s' = ucs_id_counter s
  /\ (forall k, k <> sid ->
        Assoc.find k (ucs_connections s') = Assoc.find k (ucs_connections s))
  /\ trace s' =
     trace s
     ++ (if admits m ctx
         then [Stream_write sid m (encode_user_data (SerializeToArray m))]
         else []).
Proof.
  intros Hf Hu Hr Hn. unfold Send_ucs_message. rewrite Hf.
  destruct (ucs_id ctx) as [u|] eqn:Eu; [|congruence]. cbn [has negb andb].
  unfold admits. rewrite Hr. cbn [has].
  destruct (is_compatible ctx); cbn [negb andb].
  2:{ cbn. rewrite app_nil_r. auto. }
  assert (Hw : forall ctx',
    let m' := fst (Send_ucs_message_write sid ctx' m s) in
    let s' := snd (Send_ucs_message_write sid ctx' m s) in
    m' = m /\ vehicles s' = vehicles s /\ ucs_id_counter s' = ucs_id_counter s
    /\ (forall k, k <> sid ->
          Assoc.find k (ucs_connections s') = Assoc.find k (ucs_connections s))
    /\ trace s' =
       trace s ++ [Stream_write sid m (encode_user_data (SerializeToArray m))]).
  { intros ctx'. unfold Send_ucs_message_write.
    unfold needs_message_id in Hn. rewrite Hn. cbn.
    repeat split; try reflexivity. intros k Hk. now apply find_replace_ne. }
  destruct (get_device_id m =? 0); cbn [negb orb]; [apply Hw|].
  destruct (bool_decide _).
  - destruct (has (unregister_device m)); apply Hw.
  - cbn. rewrite app_nil_r. auto.
Qed.

(** The connections on which a broadcast of [m] is written. *)
Lemma Broadcast_loop_plain m s0 ks : forall s,
  NoDup ks ->
  (forall k c, Assoc.find k (ucs_connections s0) = Some c ->
               primary c = true -> ucs_id c <> None) ->
  (forall k, In k ks ->
     Assoc.find k (ucs_connections s) = Assoc.find k (ucs_connections s0)) ->
  register_device m = None ->
  needs_message_id m = false ->
  let m' := fst (Broadcast_loop ks m s) in
  let s' := snd (Broadcast_loop ks m s) in
  m' = m
  /\ vehicles s' = vehicles s
  /\ ucs_id_counter s' = ucs_id_counter s
  /\ trace s' =
     trace s
     ++ map (fun k => Stream_write k m (encode_user_data (SerializeToArray m)))
          (List.filter
             (fun k => match Assoc.find k (ucs_connections s0) with
                       | Some c => primary c && admits m c
                       | None => false
                       end) ks).
Proof.
  induction ks as [|k ks IH]; intros s Hnd Hp Hsame Hr Hn; cbn [Broadcast_loop].
  - cbn. rewrite app_nil_r. auto.
  - apply NoDup_cons in Hnd as [Hk Hnd]. rewrite list_elem_of_In in Hk.
    cbn [List.filter]. rewrite (Hsame k) by (now left).
    assert (Hrest : forall s1,
      (forall k', k' <> k -> Assoc.find k' (ucs_connections s1)
                             = Assoc.find k' (ucs_connections s)) ->
      forall k', In k' ks ->
        Assoc.find k' (ucs_connections s1) = Assoc.find k' (ucs_connections s0)).
    { intros s1 H1 k' Hin. rewrite H1 by (intros ->; contradiction).
      apply Hsame. now right. }
    destruct (Assoc.find k (ucs_connections s0)) as [c|] eqn:Hf.
    2:{ apply IH; try assumption. intros k' Hin. apply Hsame. now right. }
    destruct (primary c) eqn:Hpc; cbn [andb].
    2:{ apply IH; try assumption. intros k' Hin. apply Hsame. now right. }
    assert (Hfs : Assoc.find k (ucs_connections s) = Some c)
      by (rewrite Hsame by (now left); exact Hf).
    destruct (Send_ucs_message_plain k c m s Hfs (Hp k c Hf Hpc) Hr Hn)
      as (Hm & Hv & Hc & Ho & Ht).
    destruct (Send_ucs_message k m s) as [m1 s1]. cbn [fst snd] in *.
    subst m1.
    destruct (IH s1 Hnd Hp (Hrest s1 Ho) Hr Hn) as (Hm2 & Hv2 & Hc2 & Ht2).
    split; [exact Hm2|]. split; [congruence|]. split; [congruence|].
    rewrite Ht2, Ht.
    destruct (admits m c); cbn [map app]; rewrite <- app_assoc; reflexivity.
Qed.

(** The same for the whole table: the message is written once on every
    connection that is primary and admits it, in iteration order. *)
Lemma Broadcast_message_to_ucs_plain m s :
  NoDup (Assoc.keys (ucs_connections s)) ->
  (forall k c, Assoc.find k (ucs_connections s) = Some c ->
               primary c = true -> ucs_id c <> None) ->
  register_device m = None ->
  needs_message_id m = false ->
  let m' := fst (Broadcast_message_to_ucs m s) in
  let s' := snd (Broadcast_message_to_ucs m s) in
  m' = m
  /\ ucs_id_counter s' = ucs_id_counter s
  /\ trace s' =
     trace s
     ++ map (fun kc => Stream_write (fst kc) m
                         (encode_user_data (SerializeToArray m)))
          (List.filter (fun kc => primary (snd kc) && admits m (snd kc))
             (ucs_connections s)).
Proof.
  intros Hnd Hp Hr Hn. unfold Broadcast_message_to_ucs.
  destruct (Broadcast_loop_plain m s (Assoc.keys (ucs_connections s)) s
              Hnd Hp (fun _ _ => eq_refl) Hr Hn) as (Hm & _ & Hc & Ht).
  split; [exact Hm|]. split; [exact Hc|]. cbn zeta in Ht. rewrite Ht.
  f_equal. clear Ht Hm Hc Hp.
  unfold Assoc.keys in *.
  induction (ucs_connections s) as [|[k c] l IH] in Hnd |- *; [reflexivity|].
  cbn [map fst] in Hnd. apply NoDup_cons in Hnd as [Hk Hnd].
  rewrite list_elem_of_In in Hk.
  cbn [map List.filter fst snd Assoc.find]. rewrite Z.eqb_refl.
  assert (Heq :
    List.filter (fun k0 => match (if k =? k0 then Some c else Assoc.find k0 l) with
                           | Some c0 => primary c0 && admits m c0
                           | None => false
                           end) (map fst l)
    = List.filter (fun k0 => match Assoc.find k0 l with
                             | Some c0 => primary c0 && admits m c0
                             | None => false
                             end) (map fst l)).
  { apply filter_ext_in. intros k0 Hin.
    destruct (Z.eqb_spec k k0) as [->|]; [contradiction|reflexivity]. }
  rewrite Heq.
  destruct (primary c && admits m c); cbn [map fst]; now rewrite IH.
Qed.

End Router_more.

(** ** Requests of a peer *)

Section Requests.
Context `{Platform}.

Lemma Send_response sid ctx message code s :
  Assoc.find sid (ucs_connections s) = Some ctx ->
  ucs_id ctx <> None ->
  Send_ucs_message_ptr sid (response_to message code) s =
  if admits (response_to message code) ctx
  then emit (Stream_write sid (response_to message code)
               (encode_user_data
                  (SerializeToArray (response_to message code)))) s
  else s.
Proof.
  intros Hf Hu. unfold Send_ucs_message_ptr, Send_ucs_message. rewrite Hf.
  destruct (ucs_id ctx) as [u|] eqn:Eu; [|congruence]. cbn [has negb andb].
  unfold admits.
  change (register_device (response_to message code)) with (@None Z).
  cbn [has].
  destruct (is_compatible ctx); cbn [negb andb]; [|reflexivity].
  assert (Hw : snd (Send_ucs_message_write sid ctx (response_to message code) s)
               = emit (Stream_write sid (response_to message code)
                         (encode_user_data
                            (SerializeToArray (response_to message code)))) s).
  { unfold Send_ucs_message_write. cbn [response_to set_device_response
      set_device_id set_message_id message_id has negb andb snd].
    now rewrite (store_same _ _ _ Hf). }
  destruct (get_device_id (response_to message code) =? 0); cbn [negb orb];
    [exact Hw|].
  destruct (bool_decide _); [|reflexivity].
  change (unregister_device (response_to message code)) with (@None unit).
  exact Hw.
Qed.

(** X5: a request addressed to the peer itself is acknowledged.  On a
    connection whose peer is known, a message with device id 0 that
    requires a response, while no device has session id 0, is answered
    with [STATUS_OK] under the message id of the request, on the stream
    the request came from; the answer is written if the connection is
    compatible and nothing happens otherwise.  No id is allocated and no
    connection changes. *)
Theorem peer_request_acknowledged sid ctx message s :
  Assoc.find sid (ucs_connections s) = Some ctx ->
  ucs_id ctx <> None ->
  response_required message = Some true ->
  get_device_id message = 0 ->
  Assoc.find 0 (vehicles s) = None ->
  let resp :=
    {| device_id := Some 0; message_id := Some (get_message_id message);
       response_required := None; register_peer := None;
       register_device := None; unregister_device := None;
       device_status := None;
       device_response :=
         Some {| code := STATUS_OK; progress := 0; status := 0 |} |} in
  On_ucs_message sid message s =
  if is_compatible ctx
  then emit (Stream_write sid resp
               (encode_user_data (SerializeToArray resp))) s
  else s.
Proof.
  intros Hf Hu Hr Hd Hv resp. unfold On_ucs_message, Get_device.
  rewrite Hr, Hd, Hv. rewrite bool_decide_eq_true_2 by reflexivity.
  cbn [Z.eqb negb].
  pose proof (Send_response sid ctx message STATUS_OK s Hf Hu) as Hs.
  unfold response_to in Hs. rewrite Hd in Hs.
  unfold admits in Hs.
  change (get_device_id _ =? 0) with true in Hs.
  rewrite orb_true_l, andb_true_r in Hs. exact Hs.
Qed.

(** X6: a request for a device the processor does not know.  On a
    connection whose peer is known, a message with a non-zero device id
    that is not in the vehicles table is logged.  If it requires a
    response, the [STATUS_INVALID_SESSION_ID] answer goes through the
    device gate of the send path like any device message: it is written
    only if the connection is compatible and still has that device id in
    [registered_devices], and is dropped otherwise. *)
Theorem unknown_device_request sid ctx message s :
  Assoc.find sid (ucs_connections s) = Some ctx ->
  ucs_id ctx <> None ->
  get_device_id message <> 0 ->
  Assoc.find (get_device_id message) (vehicles s) = None ->
  let d := get_device_id message in
  let logged := emit (Log (LOG_unknown_device d)) s in
  let resp :=
    {| device_id := Some d; message_id := Some (get_message_id message);
       response_required := None; register_peer := None;
       register_device := None; unregister_device := None;
       device_status := None;
       device_response :=
         Some {| code := STATUS_INVALID_SESSION_ID; progress := 0;
                 status := 0 |} |} in
  On_ucs_message sid message s =
  if bool_decide (response_required message = Some true)
     && is_compatible ctx && bool_decide (d ∈ registered_devices ctx)
  then emit (Stream_write sid resp
               (encode_user_data (SerializeToArray resp))) logged
  else logged.
Proof.
  intros Hf Hu Hd Hv d logged resp. unfold On_ucs_message, Get_device.
  fold d. subst d. rewrite Hv.
  apply Z.eqb_neq in Hd. rewrite Hd. cbn [negb].
  destruct (bool_decide (response_required message = Some true));
    cbn [andb]; [|reflexivity].
  pose proof (Send_response sid ctx message STATUS_INVALID_SESSION_ID
                (emit (Log (LOG_unknown_device (get_device_id message))) s)
                Hf Hu) as Hs.
  unfold response_to in Hs. unfold admits in Hs.
  change (get_device_id (set_device_response _ (set_device_id ?x _)))
    with x in Hs.
  rewrite Hd in Hs. cbn [orb] in Hs. exact Hs.
Qed.

End Requests.

(** ** Devices and their caches *)

Section Put.
Context {V : Type}.

Lemma find_put (l : list (Z * V)) k v : Assoc.find k (Assoc.put k v l) = Some v.
Proof.
  unfold Assoc.put. destruct (Assoc.find k l) eqn:E.
  - now rewrite find_replace, E.
  - rewrite find_app, E. cbn. now rewrite Z.eqb_refl.
Qed.

Lemma find_put_ne (l : list (Z * V)) k k' v :
  k <> k' -> Assoc.find k' (Assoc.put k v l) = Assoc.find k' l.
Proof.
  intros Hne. unfold Assoc.put. destruct (Assoc.find k l) eqn:E.
  - now apply find_replace_ne.
  - rewrite find_app. destruct (Assoc.find k' l); [reflexivity|].
    cbn. now apply Z.eqb_neq in Hne as ->.
Qed.

Lemma keys_put_NoDup (l : list (Z * V)) k v :
  NoDup (Assoc.keys l) -> NoDup (Assoc.keys (Assoc.put k v l)).
Proof.
  intros Hnd. unfold Assoc.put. destruct (Assoc.find k l) eqn:E.
  - now rewrite keys_replace.
  - unfold Assoc.keys in *. rewrite map_app. cbn.
    apply NoDup_app. split; [exact Hnd|]. split; [|apply NoDup_singleton].
    intros k' Hk' Hk1. apply list_elem_of_singleton in Hk1. subst k'.
    apply list_elem_of_In, in_map_iff in Hk' as ([k0 v0] & Hk0 & Hin).
    cbn in Hk0. subst k0.
    apply (In_find _ _ _ Hnd) in Hin. congruence.
Qed.

(** Entries put one after the other: the last one put under a key is the
    one found. *)
Lemma find_fold_put (key : V -> Z) (items : list V) : forall l i,
  Assoc.find i (fold_left (fun c f => Assoc.put (key f) f c) items l) =
  match latest key i items with
  | Some f => Some f
  | None => Assoc.find i l
  end.
Proof.
  induction items as [|x items IH]; intros l i; cbn [fold_left latest];
    [reflexivity|].
  rewrite IH. destruct (latest key i items); [reflexivity|].
  destruct (Z.eqb_spec (key x) i) as [<-|Hne].
  - apply find_put.
  - now apply find_put_ne.
Qed.

Lemma erase_absent (l : list (Z * V)) k :
  Assoc.find k l = None -> Assoc.erase k l = l.
Proof.
  induction l as [|[k0 v0] l IH]; cbn; [reflexivity|].
  destruct (k0 =? k); [discriminate|]. intros E. now rewrite IH.
Qed.


Lemma replace_app_fresh (l : list (Z * V)) k v v' :
  Assoc.find k l = None ->
  Assoc.replace k v' (l ++ [(k, v)]) = l ++ [(k, v')].
Proof.
  induction l as [|[k0 v0] l IH]; cbn.
  - now rewrite Z.eqb_refl.
  - destruct (k0 =? k); [discriminate|]. intros E. now rewrite IH.
Qed.

End Put.

Section Devices.
Context `{Platform}.

Lemma Broadcast_loop_vehicles ks : forall m s,
  vehicles (snd (Broadcast_loop ks m s)) = vehicles s.
Proof.
  induction ks as [|k ks IH]; intros m s; cbn; [reflexivity|].
  destruct (Assoc.find k (ucs_connections s)) as [c|]; [|apply IH].
  destruct (primary c); [|apply IH].
  pose proof (Send_ucs_message_vehicles k m s) as Hv.
  destruct (Send_ucs_message k m s) as [m' s']. cbn [snd] in Hv.
  now rewrite IH.
Qed.

Lemma Broadcast_vehicles m s :
  vehicles (snd (Broadcast_message_to_ucs m s)) = vehicles s.
Proof. apply Broadcast_loop_vehicles. Qed.

(** X7: what a device reports is cached under its own entry, last value
    first.  When device [d] is in the vehicles table, [On_send_ucs_message]
    leaves the table with the same device under [d] and the same
    registration message; each telemetry field of the message is stored
    under its field id and each command availability under its command
    id, the last one in the message winning, and the cache entries the
    message does not mention stay.  No other device's entry changes. *)
Theorem device_status_cached d message sid s v :
  Assoc.find d (vehicles s) = Some v ->
  let s' := On_send_ucs_message d message sid s in
  (exists v',
     Assoc.find d (vehicles s') = Some v'
     /\ vehicle v' = vehicle v
     /\ registration_message v' = registration_message v
     /\ (forall i,
           Assoc.find i (telemetry_cache v') =
           match latest field_id i (fields_of message) with
           | Some f => Some f
           | None => Assoc.find i (telemetry_cache v)
           end)
     /\ (forall i,
           Assoc.find i (availability_cache v') =
           match latest command_id i (commands_of message) with
           | Some f => Some f
           | None => Assoc.find i (availability_cache v)
           end))
  /\ Assoc.keys (vehicles s') = Assoc.keys (vehicles s)
  /\ forall d', d' <> d ->
       Assoc.find d' (vehicles s') = Assoc.find d' (vehicles s).
Proof.
  intros Hf s'. subst s'. unfold On_send_ucs_message. rewrite Hf.
  fold (fields_of message) (commands_of message).
  set (t := fold_left _ (fields_of message) _).
  set (a := fold_left _ (commands_of message) _).
  set (s1 := set_vehicles _ s).
  assert (Hv : forall s2, vehicles s2 = vehicles s1 ->
    (exists v',
       Assoc.find d (vehicles s2) = Some v'
       /\ vehicle v' = vehicle v
       /\ registration_message v' = registration_message v
       /\ (forall i,
             Assoc.find i (telemetry_cache v') =
             match latest field_id i (fields_of message) with
             | Some f => Some f
             | None => Assoc.find i (telemetry_cache v)
             end)
       /\ (forall i,
             Assoc.find i (availability_cache v') =
             match latest command_id i (commands_of message) with
             | Some f => Some f
             | None => Assoc.find i (availability_cache v)
             end))
    /\ Assoc.keys (vehicles s2) = Assoc.keys (vehicles s)
    /\ forall d', d' <> d ->
         Assoc.find d' (vehicles s2) = Assoc.find d' (vehicles s)).
  { intros s2 ->. subst s1. cbn [set_vehicles vehicles]. split; [|split].
    - exists (set_caches t a v). rewrite find_replace, Hf.
      split; [reflexivity|]. split; [reflexivity|]. split; [reflexivity|].
      split; intros i; cbn [set_caches telemetry_cache availability_cache];
        [subst t|subst a]; apply find_fold_put.
    - apply keys_replace.
    - intros d' Hd'. apply find_replace_ne. congruence. }
  destruct (negb (sid =? 0)).
  - apply Hv. unfold Send_ucs_message_ptr. apply Send_ucs_message_vehicles.
  - apply Hv. apply Broadcast_vehicles.
Qed.

(** A device whose session id is free is appended to the table. *)
Lemma On_register_vehicle_fresh device s :
  Assoc.find (Get_session_id device) (vehicles s) = None ->
  exists s1 v,
    On_register_vehicle device s = Returned s1
    /\ vehicles s1 = vehicles s ++ [(Get_session_id device, v)]
    /\ vehicle v = device
    /\ telemetry_cache v = [] /\ availability_cache v = [].
Proof.
  intros Hf. set (d := Get_session_id device) in *.
  unfold On_register_vehicle. fold d. rewrite Hf.
  set (ctx := {| vehicle := device; registration_message := _;
                 telemetry_cache := []; availability_cache := [] |}).
  set (s0 := set_vehicles _ s).
  pose proof (Broadcast_vehicles (registration_message ctx) s0) as Hb.
  destruct (Broadcast_message_to_ucs (registration_message ctx) s0) as [m sb].
  cbn [snd] in Hb.
  assert (Hv0 : vehicles s0 = vehicles s ++ [(d, ctx)]).
  { subst s0. cbn [set_vehicles vehicles]. unfold Assoc.emplace.
    now rewrite Hf. }
  eexists _, (set_registration_message m ctx).
  split; [reflexivity|].
  split; [|repeat split].
  cbn [set_vehicles vehicles]. rewrite Hb, Hv0.
  now apply replace_app_fresh.
Qed.


End Devices.

(** ** Traces *)

Section Traces.
Context `{Platform}.

Lemma trace_emit_all evs s : trace (emit_all evs s) = trace s ++ evs.
Proof.
  unfold emit_all. revert s. induction evs as [|e evs IH]; intros s; cbn.
  - now rewrite app_nil_r.
  - rewrite IH. cbn. now rewrite <- app_assoc.
Qed.

Lemma vehicles_emit_all evs s : vehicles (emit_all evs s) = vehicles s.
Proof.
  unfold emit_all. revert s. induction evs as [|e evs IH]; intros s; cbn;
    [reflexivity|]. now rewrite IH.
Qed.

Lemma pinned_emit_all evs s :
  transport_detector_on_when_diconnected (emit_all evs s)
  = transport_detector_on_when_diconnected s.
Proof.
  unfold emit_all. revert s. induction evs as [|e evs IH]; intros s; cbn;
    [reflexivity|]. now rewrite IH.
Qed.

Lemma silent_stream_events k evs :
  Forall silent evs -> stream_events k evs = [].
Proof.
  unfold stream_events. induction 1 as [|e evs He _ IH]; [reflexivity|].
  cbn. destruct e; cbn in *; try contradiction; exact IH.
Qed.

Lemma silent_no_Activate evs b : Forall silent evs -> ~ In (Activate b) evs.
Proof.
  intros Hs Hin. rewrite Forall_forall in Hs.
  apply (Hs (Activate b)). now apply list_elem_of_In.
Qed.

Lemma trace_update_connection sid f s :
  trace (update_connection sid f s) = trace s.
Proof.
  unfold update_connection.
  now destruct (Assoc.find sid (ucs_connections s)).
Qed.

Lemma vehicles_update_connection sid f s :
  vehicles (update_connection sid f s) = vehicles s.
Proof.
  unfold update_connection.
  now destruct (Assoc.find sid (ucs_connections s)).
Qed.

Lemma Duplicate_scan_silent peer c l :
  Forall silent (Duplicate_scan peer c l).2.
Proof.
  induction l as [|[k u] l IH]; cbn; [constructor|].
  destruct (Duplicate_scan peer c l) as [[[l' ?] ?] evs]. cbn in IH.
  destruct (same_ucs peer u); [destruct (primary u); [destruct (_ || _)|]|];
    cbn; try exact IH; repeat constructor.
Qed.

End Traces.

(** ** Connections over time *)

Section Linked.
Context `{Platform}.
Context {R : Server_context -> Server_context -> Prop} `{!Frame_relation R}.

Lemma linked_refl l : linked R l l.
Proof.
  unfold linked. induction l as [|a l IH]; constructor; [|exact IH].
  split; [reflexivity|apply frame_refl].
Qed.

Lemma linked_trans l1 l2 l3 :
  linked R l1 l2 -> linked R l2 l3 -> linked R l1 l3.
Proof.
  unfold linked. intros H12. revert l3.
  induction H12 as [|a b l1 l2 [Hk Hr] H12 IH]; intros l3 H23;
    inversion H23 as [|b' c l2' l3' [Hk' Hr'] H23']; subst; constructor.
  - split; [congruence|]. eapply frame_trans; eassumption.
  - now apply IH.
Qed.

Lemma linked_keys l l' : linked R l l' -> Assoc.keys l' = Assoc.keys l.
Proof.
  unfold linked, Assoc.keys.
  induction 1 as [|a b l l' [Hk _] _ IH]; cbn; [reflexivity|]. congruence.
Qed.

Lemma linked_find l l' k c :
  linked R l l' -> Assoc.find k l = Some c ->
  exists c', Assoc.find k l' = Some c' /\ R c c'.
Proof.
  unfold linked.
  induction 1 as [|[k0 c0] [k1 c1] l l' [Hk Hr] _ IH]; cbn in *;
    [discriminate|].
  subst k1. destruct (k0 =? k); [|exact IH].
  intros [= <-]. now exists c1.
Qed.

Lemma linked_find_inv l l' k c' :
  linked R l l' -> Assoc.find k l' = Some c' ->
  exists c, Assoc.find k l = Some c /\ R c c'.
Proof.
  unfold linked.
  induction 1 as [|[k0 c0] [k1 c1] l l' [Hk Hr] _ IH]; cbn in *;
    [discriminate|].
  subst k1. destruct (k0 =? k); [|exact IH].
  intros [= <-]. now exists c0.
Qed.

Lemma linked_replace l k c c' :
  Assoc.find k l = Some c -> R c c' -> linked R l (Assoc.replace k c' l).
Proof.
  unfold linked. induction l as [|[k0 c0] l IH]; cbn; [discriminate|].
  destruct (k0 =? k).
  - intros [= ->] Hr. constructor; [now split|apply linked_refl].
  - intros Hf Hr. constructor; [|now apply IH].
    split; [reflexivity|apply frame_refl].
Qed.

Lemma tied_refl s : tied R s s.
Proof. split; [apply linked_refl|lia]. Qed.

Lemma tied_trans s1 s2 s3 : tied R s1 s2 -> tied R s2 s3 -> tied R s1 s3.
Proof.
  intros [H1 H2] [H3 H4]. split; [eapply linked_trans; eassumption|lia].
Qed.

Lemma tied_emit e s : tied R s (emit e s).
Proof. split; [apply linked_refl|cbn; lia]. Qed.

Lemma tied_emit_all evs s : tied R s (emit_all evs s).
Proof.
  unfold emit_all. revert s. induction evs as [|e evs IH]; intros s; cbn.
  - apply tied_refl.
  - eapply tied_trans; [apply tied_emit|apply IH].
Qed.

Lemma tied_set_vehicles v s : tied R s (set_vehicles v s).
Proof. split; [apply linked_refl|cbn; lia]. Qed.

Lemma tied_store sid c c' s :
  Assoc.find sid (ucs_connections s) = Some c -> R c c' ->
  tied R s (store sid c' s).
Proof.
  intros Hf Hr. split; [|cbn; lia]. cbn. now apply (linked_replace _ _ c).
Qed.

Lemma tied_update_connection sid f s :
  (forall c, Assoc.find sid (ucs_connections s) = Some c -> R c (f c)) ->
  tied R s (update_connection sid f s).
Proof.
  intros Hf. unfold update_connection.
  destruct (Assoc.find sid (ucs_connections s)) as [c|] eqn:E;
    [|apply tied_refl].
  apply (tied_store _ c); auto.
Qed.

Lemma tied_Send_ucs_message_write sid ctx0 ctx m s :
  Assoc.find sid (ucs_connections s) = Some ctx0 -> R ctx0 ctx ->
  tied R s (snd (Send_ucs_message_write sid ctx m s)).
Proof.
  intros Hf Hr. unfold Send_ucs_message_write.
  destruct (negb (has (message_id m)) && _); cbn [snd Get_next_id].
  - split; [|cbn; lia]. cbn. now apply (linked_replace _ _ ctx0).
  - split; [|cbn; lia]. cbn. now apply (linked_replace _ _ ctx0).
Qed.

Lemma tied_Send_ucs_message sid m s :
  tied R s (snd (Send_ucs_message sid m s)).
Proof.
  unfold Send_ucs_message.
  destruct (Assoc.find sid (ucs_connections s)) as [ctx|] eqn:Hf;
    [|apply tied_refl].
  destruct (negb (has (ucs_id ctx)) && _); [apply tied_emit|].
  destruct (negb (is_compatible ctx)); [apply tied_refl|].
  destruct (has (register_device _)).
  - cbn [Get_next_id].
    match goal with
    | |- tied R s (snd (Send_ucs_message_write sid ?c ?m0 ?s0)) =>
        apply (tied_trans _ s0); [split; [apply linked_refl|cbn; lia]|];
        apply (tied_Send_ucs_message_write sid ctx); [exact Hf|]
    end.
    apply frame_pending.
  - destruct (negb (_ =? 0)).
    + destruct (bool_decide _); [|apply tied_refl].
      destruct (has (unregister_device _)).
      * apply (tied_Send_ucs_message_write sid ctx); [exact Hf|].
        eapply frame_trans; [|apply frame_pending].
        apply frame_shrink. apply subseteq_difference_l. reflexivity.
      * apply (tied_Send_ucs_message_write sid ctx); [exact Hf|apply frame_refl].
    + apply (tied_Send_ucs_message_write sid ctx); [exact Hf|apply frame_refl].
Qed.

Lemma tied_Broadcast_loop ks : forall m s,
  tied R s (snd (Broadcast_loop ks m s)).
Proof.
  induction ks as [|k ks IH]; intros m s; cbn; [apply tied_refl|].
  destruct (Assoc.find k (ucs_connections s)) as [c|]; [|apply IH].
  destruct (primary c); [|apply IH].
  pose proof (tied_Send_ucs_message k m s) as Hs.
  destruct (Send_ucs_message k m s) as [m' s'].
  eapply tied_trans; [exact Hs|apply IH].
Qed.

Lemma tied_Send_vehicle_registrations_loop sid ks : forall s,
  tied R s (Send_vehicle_registrations_loop sid ks s).
Proof.
  induction ks as [|k ks IH]; intros s; cbn; [apply tied_refl|].
  destruct (Assoc.find k (vehicles s)) as [v|]; [|apply IH].
  pose proof (tied_Send_ucs_message sid (registration_message v) s) as Hs.
  destruct (Send_ucs_message sid (registration_message v) s) as [m' s'].
  eapply tied_trans; [exact Hs|].
  eapply tied_trans; [apply tied_set_vehicles|apply IH].
Qed.

Lemma tied_Notify d s : tied R s (Notify_device_about_ucs_connections d s).
Proof.
  unfold Notify_device_about_ucs_connections.
  destruct (Get_device d s); [apply tied_emit|apply tied_refl].
Qed.

Lemma tied_Notify_all ds : forall s,
  tied R s (fold_left (fun s d => Notify_device_about_ucs_connections d s) ds s).
Proof.
  induction ds as [|d ds IH]; intros s; cbn; [apply tied_refl|].
  eapply tied_trans; [apply tied_Notify|apply IH].
Qed.

Lemma tied_On_ucs_message sid m s : tied R s (On_ucs_message sid m s).
Proof.
  unfold On_ucs_message, Send_ucs_message_ptr.
  repeat match goal with
         | |- context [if ?b then _ else _] => destruct b
         | |- context [match Get_device ?d ?s with _ => _ end] =>
             destruct (Get_device d s)
         end;
    try apply tied_emit; try apply tied_refl;
    try apply tied_Send_ucs_message.
  eapply tied_trans; [apply tied_emit|apply tied_Send_ucs_message].
Qed.

Lemma tied_Registration_response sid connection ucs device m response s :
  (forall c, Assoc.find sid (ucs_connections s) = Some c -> ucs_id c <> None) ->
  tied R s (Registration_response sid connection ucs device m response s).
Proof.
  intros Hu. unfold Registration_response, Send_ucs_message_ptr.
  assert (He : forall s0, tied R s0
    (update_connection sid (fun c =>
       set_pending_registrations
         (Assoc.erase (get_message_id m) (pending_registrations c)) c) s0))
    by (intros; apply tied_update_connection; intros; apply frame_pending).
  destruct (code response);
    try (eapply tied_trans; [|apply He]; apply tied_emit).
  - eapply tied_trans; [|apply He].
    cbn [emit vehicles].
    destruct (Assoc.find device (vehicles s)); [|apply tied_emit].
    eapply tied_trans; [|apply tied_Send_ucs_message].
    eapply tied_trans; [|apply tied_Notify].
    eapply tied_trans;
      [|apply tied_update_connection; intros c Hc; apply frame_register;
        apply Hu; exact Hc].
    apply (tied_emit _ s).
  - apply tied_emit.
Qed.

Lemma tied_On_timer_loop clock ks : forall s,
  tied R s (On_timer_loop clock ks s).
Proof.
  induction ks as [|k ks IH]; intros s; cbn; [apply tied_refl|].
  destruct (Assoc.find k (ucs_connections s)) as [c|]; [|apply IH].
  eapply tied_trans; [|apply IH].
  unfold On_timer_visit, Send_ucs_message_ptr.
  repeat match goal with
         | |- context [if ?b then _ else _] => destruct b
         end;
    try apply tied_refl; try apply tied_Send_ucs_message;
    (eapply tied_trans; apply tied_emit).
Qed.

(** A parsed message on a connection whose peer is known. *)
Lemma tied_Message_parsed_known sid connection ucs vsm_msg now s :
  Assoc.find sid (ucs_connections s) = Some connection ->
  ucs_id connection = Some ucs ->
  tied R s (snd (Message_parsed sid connection vsm_msg now s)).
Proof.
  intros Hf Hu. unfold Message_parsed. rewrite Hu.
  assert (Hst : tied R s (store sid (set_last_message_time now connection) s))
    by (apply (tied_store _ connection); [exact Hf|apply frame_time]).
  assert (Hsid : forall c,
    Assoc.find sid (ucs_connections
                      (store sid (set_last_message_time now connection) s))
    = Some c -> ucs_id c <> None).
  { intros c. cbn. rewrite find_replace, Hf. intros [= <-]. cbn. congruence. }
  destruct (device_response vsm_msg) as [response|]; cbn [snd].
  - destruct (Assoc.find _ (pending_registrations connection)); cbn [snd];
      (eapply tied_trans; [exact Hst|]).
    + now apply tied_Registration_response.
    + apply tied_On_ucs_message.
  - eapply tied_trans; [exact Hst|apply tied_On_ucs_message].
Qed.

End Linked.

Section Moves.
Context `{Platform}.

#[local] Instance ages_frame : Frame_relation ages.
Proof.
  split; unfold ages.
  - intros c. repeat split; auto.
  - intros c1 c2 c3 (Hs & Ha & Hu & Hc & Hp) (Hs' & Ha' & Hu' & Hc' & Hp').
    split; [congruence|]. split; [congruence|].
    split; [intros Hn; rewrite Hu', Hu; auto; rewrite Hu; auto|].
    split; [auto|].
    intros Hn. destruct (Hp' Hn) as [Hp1 Hr1].
    assert (Hn2 : ucs_id c2 = None).
    { destruct (ucs_id c2) eqn:E; [|reflexivity].
      rewrite Hu' in Hn by congruence. congruence. }
    destruct (Hp Hn2) as [Hp2 Hr2]. split; [congruence|].
    etransitivity; eassumption.
  - intros c p. cbn. repeat split; auto.
  - intros c t. cbn. repeat split; auto.
  - intros c f. cbn. repeat split; auto.
  - intros c r Hr. cbn. repeat split; auto.
  - intros c r Hu. cbn. repeat split; auto; contradiction.
Qed.

#[local] Instance same_role_frame : Frame_relation same_role.
Proof.
  split; unfold same_role.
  - intros c. repeat split; auto.
  - intros c1 c2 c3 (Hs & Ha & Hu & Hp & Hc & Hr)
      (Hs' & Ha' & Hu' & Hp' & Hc' & Hr').
    repeat split; try congruence.
    intros Hn. etransitivity; [apply Hr'; congruence|apply Hr; exact Hn].
  - intros c p. cbn. repeat split; auto.
  - intros c t. cbn. repeat split; auto.
  - intros c f. cbn. repeat split; auto.
  - intros c r Hr. cbn. repeat split; auto.
  - intros c r Hu. cbn. repeat split; auto. contradiction.
Qed.

Lemma same_role_ages c c' : same_role c c' -> ages c c'.
Proof.
  intros (Hs & Ha & Hu & Hp & Hc & Hr). unfold ages.
  repeat split; try congruence. apply Hr. congruence.
Qed.

Lemma linked_impl (R R' : Server_context -> Server_context -> Prop) l l' :
  (forall c c', R c c' -> R' c c') -> linked R l l' -> linked R' l l'.
Proof.
  intros Hi. unfold linked. induction 1 as [|a b l l' [Hk Hr] _ IH];
    constructor; auto.
Qed.

Lemma update_in_id sid l : update_in sid (fun c => c) l = l.
Proof.
  unfold update_in. destruct (Assoc.find sid l) eqn:E; [|reflexivity].
  now apply replace_same.
Qed.

Lemma update_in_update_in sid f g l :
  update_in sid g (update_in sid f l) = update_in sid (fun c => g (f c)) l.
Proof.
  unfold update_in. destruct (Assoc.find sid l) as [c|] eqn:E.
  - rewrite find_replace, E. apply replace_replace.
  - now rewrite E.
Qed.

Lemma ucs_connections_update_connection sid f s :
  ucs_connections (update_connection sid f s)
  = update_in sid f (ucs_connections s).
Proof.
  unfold update_connection, update_in.
  now destruct (Assoc.find sid (ucs_connections s)).
Qed.

Lemma ucs_id_counter_update_connection sid f s :
  ucs_id_counter (update_connection sid f s) = ucs_id_counter s.
Proof.
  unfold update_connection.
  now destruct (Assoc.find sid (ucs_connections s)).
Qed.

Lemma ucs_id_counter_emit_all evs s :
  ucs_id_counter (emit_all evs s) = ucs_id_counter s.
Proof.
  unfold emit_all. revert s. induction evs as [|e evs IH]; intros s; cbn;
    [reflexivity|]. now rewrite IH.
Qed.

Lemma ucs_id_counter_notify_all ds : forall s,
  ucs_id_counter
    (fold_left (fun s d => Notify_device_about_ucs_connections d s) ds s)
  = ucs_id_counter s.
Proof.
  induction ds as [|d ds IH]; intros s; cbn; [reflexivity|]. rewrite IH.
  unfold Notify_device_about_ucs_connections. now destruct (Get_device d s).
Qed.

(** The connections and the counter after [Close_ucs_stream]. *)
Lemma Close_ucs_stream_connections sid s :
  ucs_connections (Close_ucs_stream sid s)
  = closed_connections sid (ucs_connections s)
  /\ ucs_id_counter (Close_ucs_stream sid s) = ucs_id_counter s.
Proof.
  unfold Close_ucs_stream, closed_connections.
  destruct (Assoc.find sid (ucs_connections s)) as [c|]; [|auto].
  set (s0 := emit (Stream_close sid) _).
  assert (H0 : ucs_connections s0 = ucs_connections s
               /\ ucs_id_counter s0 = ucs_id_counter s)
    by (subst s0; destruct (ucs_id c); auto).
  destruct H0 as [H0 H0'].
  set (s1 := set_ucs_connections (Assoc.erase sid (ucs_connections s0)) s0).
  assert (H1 : ucs_connections s1 = Assoc.erase sid (ucs_connections s)
               /\ ucs_id_counter s1 = ucs_id_counter s)
    by (subst s1; cbn [ucs_connections set_ucs_connections ucs_id_counter];
        rewrite H0, H0'; auto).
  destruct H1 as [H1 H1']. clearbody s1. clear H0 H0' s0.
  match goal with
  | |- context [if _ then emit _ ?t else ?t] => set (s3 := t)
  end.
  assert (H3 : ucs_connections s3
               = (if primary c
                  then failover (default 0 (ucs_id c))
                         (Assoc.erase sid (ucs_connections s))
                  else Assoc.erase sid (ucs_connections s))
               /\ ucs_id_counter s3 = ucs_id_counter s).
  { subst s3. rewrite ucs_connections_notify_all, ucs_id_counter_notify_all.
    destruct (primary c); [|auto].
    unfold failover. rewrite H1.
    destruct (Promote_loopback _ _) as [[l1 evs1] found].
    destruct (negb found).
    - rewrite ucs_connections_emit_all. cbn [ucs_connections set_ucs_connections].
      destruct (Promote_first _ l1) as [l2 evs2] eqn:E2.
      rewrite ucs_connections_emit_all, !ucs_id_counter_emit_all.
      cbn. rewrite ?ucs_id_counter_emit_all. cbn. auto.
    - rewrite ucs_connections_emit_all, ucs_id_counter_emit_all. cbn. auto. }
  destruct H3 as [H3 H3'].
  destruct (_ && _); cbn; rewrite ?H3, ?H3'; auto.
Qed.

Lemma move_Close_ucs_stream sid s : move s (Close_ucs_stream sid s).
Proof.
  destruct (Close_ucs_stream_connections sid s) as [Hc Hn].
  now apply (move_close _ _ sid).
Qed.

Lemma update_in_ext sid f g l :
  (forall c, f c = g c) -> update_in sid f l = update_in sid g l.
Proof.
  intros Hfg. unfold update_in. destruct (Assoc.find sid l); [|reflexivity].
  now rewrite Hfg.
Qed.

(** The handshake: the connections are rewritten, which neither closes a
    stream nor writes on one, then the registrations are sent. *)
Lemma Register_peer_accepted_split sid connection reg_peer s :
  exists s5,
    Register_peer_accepted sid connection reg_peer s
    = Send_vehicle_registrations (stream_id connection) s5
    /\ ucs_connections s5
       = handshaken sid connection reg_peer (ucs_connections s)
    /\ ucs_id_counter s5 = ucs_id_counter s
    /\ vehicles s5 = vehicles s
    /\ exists evs,
         trace s5 = trace s ++ evs /\ forall k, stream_events k evs = [].
Proof.
  unfold Register_peer_accepted, handshaken.
  pose proof (Duplicate_scan_silent (peer_id reg_peer) connection
                (ucs_connections s)) as Hsilent.
  destruct (Duplicate_scan _ _ _) as [[[l1 dupe] switched] evs].
  cbn [snd] in Hsilent.
  eexists. split; [reflexivity|].
  fold (update_in sid (registered_as reg_peer dupe switched) l1).
  set (s1 := emit_all evs (set_ucs_connections l1 s)).
  assert (H1 : ucs_connections s1 = l1 /\ ucs_id_counter s1 = ucs_id_counter s
               /\ vehicles s1 = vehicles s /\ trace s1 = trace s ++ evs)
    by (subst s1; rewrite ucs_connections_emit_all, ucs_id_counter_emit_all,
          vehicles_emit_all, trace_emit_all; auto).
  destruct H1 as (H1 & H1' & H1v & H1t). clearbody s1.
  set (f1 := fun c => if switched then set_primary true c else c).
  set (s2 := if switched then _ else s1).
  assert (H2 : ucs_connections s2 = update_in sid f1 l1
               /\ ucs_id_counter s2 = ucs_id_counter s
               /\ vehicles s2 = vehicles s /\ trace s2 = trace s ++ evs).
  { subst s2 f1. destruct switched.
    - now rewrite ucs_connections_update_connection,
        ucs_id_counter_update_connection, vehicles_update_connection,
        trace_update_connection, H1.
    - now rewrite update_in_id. }
  destruct H2 as (H2 & H2' & H2v & H2t). clearbody s2.
  set (s3 := update_connection sid (set_ucs_id _) s2).
  assert (H3 : ucs_connections s3
               = update_in sid
                   (fun c => set_ucs_id (Some (peer_id reg_peer)) (f1 c)) l1
               /\ ucs_id_counter s3 = ucs_id_counter s
               /\ vehicles s3 = vehicles s /\ trace s3 = trace s ++ evs).
  { subst s3. rewrite ucs_connections_update_connection,
      ucs_id_counter_update_connection, vehicles_update_connection,
      trace_update_connection, H2, update_in_update_in. auto. }
  destruct H3 as (H3 & H3' & H3v & H3t). clearbody s3.
  set (f3 := fun c =>
         (if dupe then fun x => x else set_primary true)
           (set_ucs_id (Some (peer_id reg_peer)) (f1 c))).
  set (s4 := if dupe then _ else _).
  assert (H4 : ucs_connections s4 = update_in sid f3 l1
               /\ ucs_id_counter s4 = ucs_id_counter s
               /\ vehicles s4 = vehicles s
               /\ exists evs4,
                    trace s4 = trace s ++ evs ++ evs4
                    /\ forall k, stream_events k evs4 = []).
  { subst s4 f3. destruct dupe;
      cbn [emit ucs_connections ucs_id_counter vehicles trace].
    - rewrite H3, H3t, <- app_assoc. repeat split; auto.
      eexists. split; [reflexivity|]. reflexivity.
    - rewrite ucs_connections_update_connection,
        ucs_id_counter_update_connection, vehicles_update_connection,
        trace_update_connection, H3, H3t, update_in_update_in.
      repeat split; auto.
      eexists [_; _]. rewrite <- !app_assoc. split; [reflexivity|].
      reflexivity. }
  destruct H4 as (H4 & H4' & H4v & evs4 & H4t & H4s). clearbody s4.
  assert (Hreg : forall c,
    (if (default 0 (version_major reg_peer) <? SUPPORTED_UCS_VERSION_MAJOR)
        || ((default 0 (version_major reg_peer) =? SUPPORTED_UCS_VERSION_MAJOR)
            && (default 0 (version_minor reg_peer)
                <? SUPPORTED_UCS_VERSION_MINOR))
     then set_is_compatible false (f3 c) else f3 c)
    = registered_as reg_peer dupe switched c).
  { intros c. unfold registered_as. subst f3 f1.
    destruct (_ || _), switched, dupe; reflexivity. }
  destruct (_ || _) eqn:Ever;
    cbn [emit ucs_connections ucs_id_counter vehicles trace].
  - rewrite ucs_connections_update_connection,
      ucs_id_counter_update_connection, vehicles_update_connection,
      trace_update_connection, H4, H4t, update_in_update_in.
    split; [apply update_in_ext; exact Hreg|].
    split; [exact H4'|]. split; [exact H4v|].
    eexists (evs ++ evs4 ++ [_]). rewrite <- !app_assoc.
    split; [reflexivity|]. intros k. rewrite !stream_events_app.
    rewrite (silent_stream_events k evs Hsilent), H4s. reflexivity.
  - rewrite H4, H4t.
    split; [apply update_in_ext; exact Hreg|].
    split; [exact H4'|]. split; [exact H4v|].
    exists (evs ++ evs4). split; [reflexivity|]. intros k.
    rewrite stream_events_app.
    now rewrite (silent_stream_events k evs Hsilent), H4s.
Qed.

Lemma evolves_trans s1 s2 s3 : evolves s1 s2 -> evolves s2 s3 -> evolves s1 s3.
Proof.
  induction 1 as [|s s1 s2 Hm _ IH]; [auto|].
  intros H3. eapply evolves_step; [exact Hm|auto].
Qed.

Lemma evolves_move s s' : move s s' -> evolves s s'.
Proof. intros Hm. eapply evolves_step; [exact Hm|apply evolves_refl]. Qed.

Lemma evolves_quiet s s' : tied same_role s s' -> evolves s s'.
Proof. intros Ht. now apply evolves_move, move_quiet. Qed.

Lemma evolves_Close_ucs_stream sid s : evolves s (Close_ucs_stream sid s).
Proof. apply evolves_move, move_Close_ucs_stream. Qed.

Lemma evolves_Message_parsed sid connection vsm_msg now s :
  Assoc.find sid (ucs_connections s) = Some connection ->
  evolves s (snd (Message_parsed sid connection vsm_msg now s)).
Proof.
  intros Hf.
  destruct (ucs_id connection) as [ucs|] eqn:Hu.
  { apply evolves_quiet. now apply (tied_Message_parsed_known _ _ ucs). }
  unfold Message_parsed. rewrite Hu.
  destruct (register_peer vsm_msg) as [reg_peer|]; cbn [snd];
    [|apply evolves_quiet, tied_emit].
  set (connection' := set_last_message_time now connection).
  assert (Hst : tied same_role s (store sid connection' s))
    by (apply (tied_store _ connection); [exact Hf|apply frame_time]).
  apply (evolves_trans _ (store sid connection' s));
    [now apply evolves_quiet|].
  destruct (acceptable_peer_type _); cbn [snd].
  - destruct (Register_peer_accepted_split sid connection' reg_peer
                (store sid connection' s)) as (s5 & -> & Hc & Hn & _).
    apply (evolves_trans _ s5).
    + apply evolves_move. apply (move_handshake _ _ sid connection' reg_peer).
      * cbn. now rewrite find_replace, Hf.
      * exact Hu.
      * exact Hc.
      * exact Hn.
    + apply evolves_quiet. apply tied_Send_vehicle_registrations_loop.
  - eapply evolves_trans; [apply evolves_quiet, tied_emit|].
    apply evolves_Close_ucs_stream.
Qed.

Lemma evolves_Read_completed buffer result sid now s s' :
  Read_completed buffer result sid now s = Returned s' -> evolves s s'.
Proof.
  unfold Read_completed.
  destruct (Assoc.find sid (ucs_connections s)) as [connection|] eqn:Hf;
    [|intros [= <-]; apply evolves_refl].
  destruct result; try (intros [= <-]; apply evolves_Close_ucs_stream).
  assert (Hstore : forall f,
    tied same_role s (store sid (set_framing f connection) s))
    by (intros f; apply (tied_store _ connection);
        [exact Hf|apply frame_framing]).
  destruct (reading_header (framing connection)).
  - destruct buffer as [|byte [|? ?]]; try discriminate.
    destruct (Read_header (framing connection) byte) as [|f|f];
      [discriminate| |]; intros [= <-].
    + eapply evolves_trans; [|apply evolves_Close_ucs_stream].
      apply evolves_quiet.
      eapply tied_trans; [apply Hstore|apply tied_emit].
    + apply evolves_quiet.
      eapply tied_trans; [apply Hstore|apply tied_emit].
  - destruct (ParseFromArray buffer) as [vsm_msg|].
    2:{ intros [= <-].
        eapply evolves_trans; [|apply evolves_Close_ucs_stream].
        apply evolves_quiet, tied_emit. }
    pose proof (evolves_Message_parsed sid connection vsm_msg now s Hf) as Hmp.
    destruct (Message_parsed sid connection vsm_msg now s) as [continue s1].
    cbn [snd] in Hmp.
    destruct continue; [|now intros [= <-]].
    destruct (Assoc.find sid (ucs_connections s1)) as [c1|] eqn:Hf1;
      intros [= <-]; [|exact Hmp].
    eapply evolves_trans; [exact Hmp|]. apply evolves_quiet.
    eapply tied_trans; [|apply tied_emit].
    apply (tied_store _ c1); [exact Hf1|apply frame_framing].
Qed.

Lemma evolves_On_incoming_connection is_tcp addr now s :
  well_formed s -> evolves s (On_incoming_connection is_tcp addr now s).
Proof.
  intros [Hnd Hin]. unfold On_incoming_connection.
  destruct is_tcp; cbn [negb]; [|apply evolves_quiet, tied_emit].
  cbn [Get_next_id]. unfold Send_ucs_message_ptr.
  eapply evolves_trans; [|apply evolves_quiet, tied_Send_ucs_message].
  apply evolves_move. apply (move_accept _ _ addr now); [|reflexivity].
  assert (Hfresh : Assoc.find (ucs_id_counter s) (ucs_connections s) = None).
  { destruct (Assoc.find (ucs_id_counter s) (ucs_connections s)) as [c|] eqn:E;
      [|reflexivity].
    apply find_In in E.
    assert (Hi : In (ucs_id_counter s, stream_id c) (idents (ucs_connections s))).
    { unfold idents. apply in_map_iff. exists (ucs_id_counter s, c). auto. }
    apply Hin in Hi. lia. }
  cbn [Schedule_next_read emit ucs_connections set_ucs_connections].
  unfold Assoc.emplace. now rewrite Hfresh.
Qed.

(** Every handler is made of moves. *)
Lemma evolves_process r s s' :
  well_formed s -> process r s = Returned s' -> evolves s s'.
Proof.
  intros Hwf. destruct r; cbn [process].
  - intros [= <-]. now apply evolves_On_incoming_connection.
  - apply evolves_Read_completed.
  - intros [= <-]. unfold Write_completed.
    destruct result; try apply evolves_refl; apply evolves_Close_ucs_stream.
  - intros [= <-]. apply evolves_quiet, tied_On_timer_loop.
  - unfold On_register_vehicle.
    destruct (Assoc.find _ (vehicles s)); [discriminate|].
    match goal with
    | |- context [Broadcast_message_to_ucs ?m ?s0] =>
        pose proof (tied_Broadcast_loop (R := same_role)
                      (Assoc.keys (ucs_connections s0)) m s0) as Hb;
        fold (Broadcast_message_to_ucs m s0) in Hb;
        destruct (Broadcast_message_to_ucs m s0) as [m' s1]
    end.
    intros [= <-]. apply evolves_quiet.
    eapply tied_trans; [apply tied_set_vehicles|].
    eapply tied_trans; [exact Hb|apply tied_set_vehicles].
  - unfold On_unregister_vehicle.
    destruct (Assoc.find _ (vehicles s)); [|discriminate].
    intros [= <-]. apply evolves_quiet.
    eapply tied_trans; [apply tied_set_vehicles|].
    apply tied_Broadcast_loop.
  - intros [= <-]. unfold On_send_ucs_message.
    destruct (Assoc.find _ (vehicles s)); [|apply evolves_refl].
    apply evolves_quiet.
    eapply tied_trans; [apply tied_set_vehicles|].
    destruct (negb _); [apply tied_Send_ucs_message|apply tied_Broadcast_loop].
  - intros [= <-]. apply evolves_quiet, tied_Send_ucs_message.
Qed.

Lemma evolves_run rs : forall s s',
  well_formed s -> run rs s = Returned s' -> evolves s s'.
Proof.
  induction rs as [|r rs IH]; intros s s' Hwf; cbn.
  - intros [= <-]. apply evolves_refl.
  - destruct (process r s) as [s1| |] eqn:Hh; try discriminate.
    intros Hr. apply (evolves_trans _ s1).
    + eapply evolves_process; eassumption.
    + apply IH; [|exact Hr]. eapply well_formed_process; eassumption.
Qed.


Lemma linked_In (R : Server_context -> Server_context -> Prop) l l' k c :
  linked R l l' -> In (k, c) l -> exists c', In (k, c') l' /\ R c c'.
Proof.
  unfold linked. induction 1 as [|[k0 c0] [k1 c1] l l' [Hk Hr] _ IH];
    cbn in *; [tauto|].
  subst k1. intros [[= -> ->]|Hin].
  - exists c1. auto.
  - destruct (IH Hin) as (c' & Hc' & Hr'). exists c'. auto.
Qed.

Lemma linked_In_inv (R : Server_context -> Server_context -> Prop) l l' k c' :
  linked R l l' -> In (k, c') l' -> exists c, In (k, c) l /\ R c c'.
Proof.
  unfold linked. induction 1 as [|[k0 c0] [k1 c1] l l' [Hk Hr] _ IH];
    cbn in *; [tauto|].
  subst k1. intros [[= -> ->]|Hin].
  - exists c0. auto.
  - destruct (IH Hin) as (c & Hc & Hr'). exists c. auto.
Qed.

Lemma linked_keys_any (R : Server_context -> Server_context -> Prop) l l' :
  linked R l l' -> Assoc.keys l' = Assoc.keys l.
Proof.
  unfold linked, Assoc.keys.
  induction 1 as [|a b l l' [Hk _] _ IH]; cbn; [reflexivity|]. congruence.
Qed.

Lemma linked_Promote_loopback peer l :
  linked (promoted peer) l (Promote_loopback peer l).1.1.
Proof.
  unfold linked. induction l as [|[k u] l IH]; cbn; [constructor|].
  destruct (Promote_loopback peer l) as [[l' ?] ?]. cbn in IH.
  destruct (same_ucs peer u && _) eqn:E; cbn; constructor; auto.
  - split; [reflexivity|]. right. apply andb_true_iff in E as [E _].
    split; [now apply same_ucs_true|reflexivity].
  - split; [reflexivity|now left].
Qed.

Lemma linked_same l : linked eq l l.
Proof.
  unfold linked. induction l; constructor; auto.
Qed.

Lemma linked_Promote_first peer l :
  linked (promoted peer) l (Promote_first peer l).1.
Proof.
  unfold linked. induction l as [|[k u] l IH]; cbn; [constructor|].
  destruct (same_ucs peer u) eqn:E.
  - cbn. constructor.
    + split; [reflexivity|]. right. split; [now apply same_ucs_true|reflexivity].
    + apply (linked_impl eq); [intros ? ? ->; now left|apply linked_same].
  - destruct (Promote_first peer l) as [l' ?]. cbn in *.
    constructor; [|exact IH]. split; [reflexivity|now left].
Qed.

Lemma promoted_trans peer c1 c2 c3 :
  promoted peer c1 c2 -> promoted peer c2 c3 -> promoted peer c1 c3.
Proof.
  intros [->|[Hu ->]] [->|[Hu' ->]]; try (now left); try (now right).
Qed.

Lemma linked_trans_any (R : Server_context -> Server_context -> Prop) l1 l2 l3 :
  (forall c1 c2 c3, R c1 c2 -> R c2 c3 -> R c1 c3) ->
  linked R l1 l2 -> linked R l2 l3 -> linked R l1 l3.
Proof.
  intros Ht. unfold linked. intros H12. revert l3.
  induction H12 as [|a b l1 l2 [Hk Hr] H12 IH]; intros l3 H23;
    inversion H23 as [|b' c l2' l3' [Hk' Hr'] H23']; subst; constructor.
  - split; [congruence|]. eapply Ht; eassumption.
  - now apply IH.
Qed.

Lemma linked_failover peer l : linked (promoted peer) l (failover peer l).
Proof.
  unfold failover.
  pose proof (linked_Promote_loopback peer l) as H1.
  destruct (Promote_loopback peer l) as [[l1 evs] found]. cbn [fst] in H1.
  destruct (negb found); [|exact H1].
  eapply linked_trans_any; [apply promoted_trans|exact H1|].
  apply linked_Promote_first.
Qed.

Lemma linked_Duplicate_scan peer c l :
  linked (demoted peer) l (Duplicate_scan peer c l).1.1.1.
Proof.
  unfold linked. induction l as [|[k u] l IH]; cbn; [constructor|].
  destruct (Duplicate_scan peer c l) as [[[l' ?] ?] ?]. cbn in IH.
  assert (Hrest : Forall2 (fun a b => a.1 = b.1 /\ demoted peer a.2 b.2) l l)
    by (apply (linked_impl eq); [intros ? ? ->; now left|apply linked_same]).
  destruct (same_ucs peer u) eqn:E; [destruct (primary u); [destruct (_ || _)|]|];
    cbn; constructor; auto.
  - split; [reflexivity|]. right. split; [now apply same_ucs_true|reflexivity].
  - split; [reflexivity|now left].
  - split; [reflexivity|now left].
  - split; [reflexivity|now left].
Qed.

Lemma promoted_ages peer c c' : promoted peer c c' -> ages c c'.
Proof.
  intros [->|[Hu ->]]; [apply frame_refl|].
  unfold ages. cbn. repeat split; auto; congruence.
Qed.

Lemma demoted_ages peer c c' : demoted peer c c' -> ages c c'.
Proof.
  intros [->|[Hu ->]]; [apply frame_refl|].
  unfold ages. cbn. repeat split; auto; congruence.
Qed.

Lemma ucs_id_registered_as reg_peer dupe switched c :
  ucs_id (registered_as reg_peer dupe switched c) = Some (peer_id reg_peer).
Proof.
  unfold registered_as. destruct (_ || _), dupe, switched; reflexivity.
Qed.

Lemma ages_registered_as reg_peer dupe switched c :
  ucs_id c = None -> ages c (registered_as reg_peer dupe switched c).
Proof.
  intros Hu. unfold ages. rewrite ucs_id_registered_as.
  unfold registered_as.
  destruct (_ || _), dupe, switched; cbn; repeat split; auto; congruence.
Qed.

Lemma find_handshake_connection sid connection peer l :
  Assoc.find sid l = Some connection -> ucs_id connection = None ->
  Assoc.find sid (Duplicate_scan peer connection l).1.1.1 = Some connection.
Proof.
  intros Hf Hu.
  destruct (linked_find (R := demoted peer) _ _ _ _
              (linked_Duplicate_scan peer connection l) Hf) as (c' & Hc' & Hd).
  destruct Hd as [->|[Hu' _]]; [exact Hc'|congruence].
Qed.

Lemma handshaken_spec sid connection reg_peer l :
  Assoc.find sid l = Some connection -> ucs_id connection = None ->
  let '(l1, dupe, switched, _) :=
    Duplicate_scan (peer_id reg_peer) connection l in
  handshaken sid connection reg_peer l
  = Assoc.replace sid (registered_as reg_peer dupe switched connection) l1
  /\ Assoc.find sid l1 = Some connection.
Proof.
  intros Hf Hu. unfold handshaken.
  pose proof (find_handshake_connection sid connection (peer_id reg_peer) l
                Hf Hu) as Hf1.
  destruct (Duplicate_scan _ _ _) as [[[l1 dupe] switched] evs].
  cbn [fst] in Hf1. rewrite Hf1. auto.
Qed.

Lemma linked_handshaken sid connection reg_peer l :
  Assoc.find sid l = Some connection -> ucs_id connection = None ->
  linked ages l (handshaken sid connection reg_peer l).
Proof.
  intros Hf Hu.
  pose proof (handshaken_spec sid connection reg_peer l Hf Hu) as Hs.
  pose proof (linked_Duplicate_scan (peer_id reg_peer) connection l) as Hl.
  destruct (Duplicate_scan _ _ _) as [[[l1 dupe] switched] evs].
  cbn [fst] in Hl. destruct Hs as [-> Hf1].
  eapply linked_trans.
  - apply (linked_impl (demoted (peer_id reg_peer))); [|exact Hl].
    apply demoted_ages.
  - apply (linked_replace _ _ connection); [exact Hf1|].
    now apply ages_registered_as.
Qed.

Lemma In_erase sid (l : list (Z * Server_context)) k c :
  In (k, c) (Assoc.erase sid l) -> In (k, c) l.
Proof.
  induction l as [|[k0 u] l IH]; cbn; [tauto|].
  destruct (k0 =? sid); cbn; tauto.
Qed.

Lemma In_erase_ne sid (l : list (Z * Server_context)) k c :
  In (k, c) l -> k <> sid -> In (k, c) (Assoc.erase sid l).
Proof.
  induction l as [|[k0 u] l IH]; cbn; [tauto|].
  intros [[= -> ->]|Hin] Hne.
  - apply Z.eqb_neq in Hne. rewrite Hne. now left.
  - destruct (k0 =? sid); [exact Hin|]. right. now apply IH.
Qed.

(** What a move does to the table, seen from the connections: they age in
    place, after one of them has left at most, or one joins under the
    next id. *)
Lemma move_ages s s' :
  move s s' ->
  ucs_id_counter s <= ucs_id_counter s'
  /\ ((exists l0,
         (l0 = ucs_connections s
          \/ exists sid, l0 = Assoc.erase sid (ucs_connections s))
         /\ linked ages l0 (ucs_connections s'))
      \/ (exists addr now,
            ucs_connections s' =
            ucs_connections s
            ++ [(ucs_id_counter s,
                 new_Server_context (ucs_id_counter s) addr now)]
            /\ ucs_id_counter s' = ucs_id_counter s + 1)).
Proof.
  intros [[Hl Hn]|sid Hc Hn|addr now Hc Hn|sid connection reg_peer Hf Hu Hc Hn].
  - split; [exact Hn|]. left. exists (ucs_connections s). split; [now left|].
    apply (linked_impl same_role); [apply same_role_ages|exact Hl].
  - split; [lia|]. left. rewrite Hc. unfold closed_connections.
    destruct (Assoc.find sid (ucs_connections s)) as [c|].
    + exists (Assoc.erase sid (ucs_connections s)). split; [right; eauto|].
      destruct (primary c); [|apply linked_refl].
      apply (linked_impl (promoted (default 0 (ucs_id c))));
        [apply promoted_ages|apply linked_failover].
    + exists (ucs_connections s). split; [now left|apply linked_refl].
  - split; [lia|]. right. eauto.
  - split; [lia|]. left. exists (ucs_connections s). split; [now left|].
    rewrite Hc. now apply linked_handshaken.
Qed.

Lemma table_in_order_linked l l' n n' :
  table_in_order l n -> linked ages l l' -> n <= n' -> table_in_order l' n'.
Proof.
  intros (H1 & Hnd & Hin) Hl Hn. split; [lia|]. split.
  - now rewrite (linked_keys_any _ _ _ Hl).
  - intros k c' Hc'.
    destruct (linked_In_inv _ _ _ _ _ Hl Hc') as (c & Hc & Ha).
    destruct (Hin k c Hc) as [Hs Hk]. destruct Ha as (Hs' & _).
    split; [congruence|lia].
Qed.

Lemma table_in_order_erase l n sid :
  table_in_order l n -> table_in_order (Assoc.erase sid l) n.
Proof.
  intros (H1 & Hnd & Hin). split; [lia|]. split.
  - now apply keys_erase_NoDup.
  - intros k c Hc. apply Hin. now apply In_erase in Hc.
Qed.

Lemma table_in_order_move s s' :
  move s s' ->
  table_in_order (ucs_connections s) (ucs_id_counter s) ->
  table_in_order (ucs_connections s') (ucs_id_counter s').
Proof.
  intros Hm Ht. destruct (move_ages s s' Hm) as [Hn [(l0 & Hl0 & Hl)|Hacc]].
  - apply (table_in_order_linked l0 _ (ucs_id_counter s)); [|exact Hl|exact Hn].
    destruct Hl0 as [->|[sid ->]]; [exact Ht|now apply table_in_order_erase].
  - destruct Hacc as (addr & now & -> & ->).
    destruct Ht as (H1 & Hnd & Hin). split; [lia|]. split.
    + unfold Assoc.keys in *. rewrite map_app. cbn.
      apply NoDup_app. split; [exact Hnd|]. split; [|apply NoDup_singleton].
      intros k Hk Hk1. apply list_elem_of_singleton in Hk1. subst k.
      apply list_elem_of_In, in_map_iff in Hk as ([k0 c0] & Hk0 & Hc0).
      cbn in Hk0. subst k0. apply Hin in Hc0. lia.
    + intros k c Hc. apply in_app_iff in Hc as [Hc|[[= <- <-]|[]]].
      * destruct (Hin k c Hc). split; [assumption|lia].
      * cbn. split; [reflexivity|lia].
Qed.

Lemma table_in_order_evolves s s' :
  evolves s s' ->
  table_in_order (ucs_connections s) (ucs_id_counter s) ->
  table_in_order (ucs_connections s') (ucs_id_counter s').
Proof.
  induction 1 as [|s s1 s' Hm _ IH]; [auto|].
  intros Ht. apply IH. now apply (table_in_order_move s).
Qed.

Lemma well_formed_enabled keep_alive pinned :
  well_formed (enabled keep_alive pinned).
Proof. split; cbn; [constructor|intros k i []]. Qed.

Lemma reachable_evolves s :
  reachable s ->
  exists keep_alive pinned, evolves (enabled keep_alive pinned) s.
Proof.
  intros (keep_alive & pinned & rs & Hrun). exists keep_alive, pinned.
  eapply evolves_run; [apply well_formed_enabled|exact Hrun].
Qed.

Lemma reachable_table_in_order s :
  reachable s -> table_in_order (ucs_connections s) (ucs_id_counter s).
Proof.
  intros Hr. destruct (reachable_evolves s Hr) as (ka & pinned & He).
  apply (table_in_order_evolves _ _ He).
  split; cbn; [lia|]. split; [constructor|intros k c []].
Qed.

Lemma passive_linked l l' :
  passive_until_registered l -> linked ages l l' ->
  passive_until_registered l'.
Proof.
  intros Hp Hl k c' Hc' Hu'.
  destruct (linked_In_inv _ _ _ _ _ Hl Hc') as (c & Hc & Ha).
  destruct Ha as (_ & _ & Hu & _ & Hq).
  destruct (Hq Hu') as [Hpr Hreg].
  assert (Hn : ucs_id c = None).
  { destruct (ucs_id c) eqn:E; [|reflexivity].
    rewrite Hu in Hu' by congruence. congruence. }
  destruct (Hp k c Hc Hn) as [Hp1 Hr1]. split; [congruence|].
  rewrite Hr1 in Hreg. now apply equiv_empty_L.
Qed.

Lemma passive_move s s' :
  move s s' ->
  passive_until_registered (ucs_connections s) ->
  passive_until_registered (ucs_connections s').
Proof.
  intros Hm Hp. destruct (move_ages s s' Hm) as [_ [(l0 & Hl0 & Hl)|Hacc]].
  - apply (passive_linked l0); [|exact Hl].
    destruct Hl0 as [->|[sid ->]]; [exact Hp|].
    intros k c Hc. apply (Hp k c). now apply In_erase in Hc.
  - destruct Hacc as (addr & now & -> & _).
    intros k c Hc Hu. apply in_app_iff in Hc as [Hc|[[= <- <-]|[]]].
    + now apply (Hp k).
    + cbn. auto.
Qed.

Lemma passive_evolves s s' :
  evolves s s' ->
  passive_until_registered (ucs_connections s) ->
  passive_until_registered (ucs_connections s').
Proof.
  induction 1 as [|s s1 s' Hm _ IH]; [auto|].
  intros H0. apply IH. now apply (passive_move s).
Qed.

Lemma reachable_passive s :
  reachable s -> passive_until_registered (ucs_connections s).
Proof.
  intros Hr. destruct (reachable_evolves s Hr) as (ka & pinned & He).
  apply (passive_evolves _ _ He). intros k c [].
Qed.

Lemma find_erase_Some sid (l : list (Z * Server_context)) k c :
  NoDup (Assoc.keys l) ->
  Assoc.find k (Assoc.erase sid l) = Some c -> Assoc.find k l = Some c.
Proof.
  intros Hnd Hf. destruct (Z.eq_dec sid k) as [->|Hne].
  - now rewrite find_erase_same in Hf.
  - now rewrite find_erase_ne in Hf.
Qed.

(** Where the connections of a later state come from. *)
Lemma move_origin s s' k c' :
  table_in_order (ucs_connections s) (ucs_id_counter s) ->
  move s s' ->
  Assoc.find k (ucs_connections s') = Some c' ->
  (exists c, Assoc.find k (ucs_connections s) = Some c /\ ages c c')
  \/ ucs_id_counter s <= k.
Proof.
  intros (_ & Hnd & _) Hm Hf.
  destruct (move_ages s s' Hm) as [_ [(l0 & Hl0 & Hl)|Hacc]].
  - left. destruct (linked_find_inv _ _ _ _ Hl Hf) as (c & Hc & Ha).
    exists c. split; [|exact Ha].
    destruct Hl0 as [->|[sid ->]]; [exact Hc|].
    now apply (find_erase_Some sid).
  - destruct Hacc as (addr & now & Hc & _). rewrite Hc, find_app in Hf.
    destruct (Assoc.find k (ucs_connections s)) as [c|] eqn:E.
    + left. exists c. split; [reflexivity|]. injection Hf as <-.
      apply frame_refl.
    + right. cbn in Hf.
      destruct (Z.eqb_spec (ucs_id_counter s) k); [lia|discriminate].
Qed.

Lemma evolves_origin s s' :
  evolves s s' ->
  table_in_order (ucs_connections s) (ucs_id_counter s) ->
  ucs_id_counter s <= ucs_id_counter s'
  /\ forall k c',
       Assoc.find k (ucs_connections s') = Some c' ->
       (exists c, Assoc.find k (ucs_connections s) = Some c /\ ages c c')
       \/ ucs_id_counter s <= k.
Proof.
  induction 1 as [s|s s1 s' Hm _ IH]; intros Ht.
  - split; [lia|]. intros k c' Hf. left. exists c'. split; [exact Hf|].
    apply frame_refl.
  - pose proof (table_in_order_move _ _ Hm Ht) as Ht1.
    destruct (IH Ht1) as [Hn1 Ho1].
    destruct (move_ages _ _ Hm) as [Hn _].
    split; [lia|]. intros k c' Hf.
    destruct (Ho1 k c' Hf) as [(c1 & Hf1 & Ha1)|Hk]; [|right; lia].
    destruct (move_origin s s1 k c1 Ht Hm Hf1) as [(c & Hc & Ha)|Hk];
      [|right; lia].
    left. exists c. split; [exact Hc|]. eapply frame_trans; eassumption.
Qed.

(** *** Every peer keeps a primary connection *)

Lemma promoted_primary peer c c' :
  promoted peer c c' ->
  ucs_id c' = ucs_id c /\ (primary c = true -> primary c' = true).
Proof. intros [->|[Hu ->]]; cbn; auto. Qed.

Lemma Promote_loopback_found_In peer l :
  (Promote_loopback peer l).2 = true ->
  exists k c, In (k, c) (Promote_loopback peer l).1.1
              /\ ucs_id c = Some peer /\ primary c = true.
Proof.
  induction l as [|[k0 u0] l IH]; cbn; [discriminate|].
  destruct (Promote_loopback peer l) as [[l' evs] found]. cbn in IH.
  destruct (same_ucs peer u0 && _) eqn:E; cbn.
  - intros _. exists k0, (set_primary true u0). split; [now left|].
    apply andb_true_iff in E as [E _]. apply same_ucs_true in E. auto.
  - intros Hf. destruct (IH Hf) as (k & c & Hin & Hu & Hp).
    exists k, c. auto.
Qed.

Lemma Promote_first_In peer l k c :
  In (k, c) l -> ucs_id c = Some peer ->
  exists k' c', In (k', c') (Promote_first peer l).1
                /\ ucs_id c' = Some peer /\ primary c' = true.
Proof.
  induction l as [|[k0 u0] l IH]; cbn; [tauto|].
  intros Hin Hu. destruct (same_ucs peer u0) eqn:E.
  - exists k0, (set_primary true u0). cbn. split; [now left|].
    apply same_ucs_true in E. auto.
  - destruct Hin as [[= -> ->]|Hin].
    + unfold same_ucs in E. rewrite Hu, Z.eqb_refl in E. discriminate.
    + destruct (IH Hin Hu) as (k' & c' & Hin' & Hu' & Hp').
      destruct (Promote_first peer l) as [l' ?]. cbn in *.
      exists k', c'. auto.
Qed.

Lemma failover_promotes peer l k c :
  In (k, c) l -> ucs_id c = Some peer ->
  exists k' c', In (k', c') (failover peer l)
                /\ ucs_id c' = Some peer /\ primary c' = true.
Proof.
  intros Hin Hu. unfold failover.
  pose proof (Promote_loopback_found_In peer l) as Hfound.
  pose proof (Promote_loopback_none peer l) as Hnone.
  destruct (Promote_loopback peer l) as [[l1 evs] found].
  cbn [fst snd] in *. destruct found; cbn [negb].
  - now apply Hfound.
  - rewrite Hnone by reflexivity. now apply (Promote_first_In peer l k c).
Qed.

Lemma In_replace sid (l : list (Z * Server_context)) c v :
  Assoc.find sid l = Some c -> In (sid, v) (Assoc.replace sid v l).
Proof.
  induction l as [|[k0 u0] l IH]; cbn; [discriminate|].
  destruct (Z.eqb_spec k0 sid) as [->|Hne]; [now left|].
  intros Hf. right. now apply IH.
Qed.

Lemma In_replace_inv sid (l : list (Z * Server_context)) v k c :
  In (k, c) (Assoc.replace sid v l) -> (k = sid /\ c = v) \/ In (k, c) l.
Proof.
  induction l as [|[k0 u0] l IH]; cbn; [tauto|].
  destruct (Z.eqb_spec k0 sid) as [->|Hne]; cbn.
  - intros [[= <- <-]|Hin]; auto.
  - intros [[= <- <-]|Hin]; auto. destruct (IH Hin); auto.
Qed.

Lemma In_replace_ne sid (l : list (Z * Server_context)) v k c :
  In (k, c) l -> k <> sid -> In (k, c) (Assoc.replace sid v l).
Proof.
  induction l as [|[k0 u0] l IH]; cbn; [tauto|].
  intros [[= -> ->]|Hin] Hne.
  - apply Z.eqb_neq in Hne. rewrite Hne. now left.
  - destruct (k0 =? sid); right; [exact Hin|now apply IH].
Qed.

Lemma has_sibling_In peer l :
  has_sibling peer l = true ->
  exists k c, In (k, c) l /\ ucs_id c = Some peer.
Proof.
  unfold has_sibling. intros Hs. apply existsb_exists in Hs as ([k c] & Hin & Hs).
  exists k, c. split; [exact Hin|]. now apply same_ucs_true.
Qed.

Lemma first_primary_of_exists peer l k c :
  In (k, c) l -> ucs_id c = Some peer -> primary c = true ->
  exists k' c', first_primary_of peer l = Some (k', c').
Proof.
  induction l as [|[k0 u0] l IH]; cbn; [tauto|].
  intros Hin Hu Hp. destruct (same_ucs peer u0 && primary u0) eqn:E; [eauto|].
  destruct Hin as [[= -> ->]|Hin]; [|now apply IH].
  unfold same_ucs in E. rewrite Hu, Z.eqb_refl, Hp in E. discriminate.
Qed.

Lemma primary_registered_as reg_peer dupe switched c :
  primary (registered_as reg_peer dupe switched c)
  = if dupe then (if switched then true else primary c) else true.
Proof.
  unfold registered_as. destruct (_ || _), dupe, switched; reflexivity.
Qed.

Lemma peers_have_primary_move s s' :
  table_in_order (ucs_connections s) (ucs_id_counter s) ->
  peers_have_primary (ucs_connections s) ->
  move s s' ->
  peers_have_primary (ucs_connections s').
Proof.
  intros (_ & Hnd & _) Hp
    [[Hl Hn]|sid Hc Hn|addr now Hc Hn|sid connection reg_peer Hf Hu Hc Hn].
  - (* roles are kept *)
    intros k c' peer Hin Hu.
    destruct (linked_In_inv _ _ _ _ _ Hl Hin) as (c & Hc & Hr).
    destruct Hr as (_ & _ & Hu' & _).
    destruct (Hp k c peer Hc ltac:(congruence)) as (k1 & c1 & Hin1 & Hu1 & Hp1).
    destruct (linked_In _ _ _ _ _ Hl Hin1) as (c1' & Hin1' & Hr1).
    destruct Hr1 as (_ & _ & Hu1' & Hp1' & _).
    exists k1, c1'. split; [exact Hin1'|]. split; congruence.
  - (* teardown *)
    rewrite Hc. unfold closed_connections.
    destruct (Assoc.find sid (ucs_connections s)) as [c0|] eqn:Hf0;
      [|exact Hp].
    destruct (primary c0) eqn:Hp0.
    + intros k c' peer Hin Hu.
      pose proof (linked_failover (default 0 (ucs_id c0))
                    (Assoc.erase sid (ucs_connections s))) as Hl.
      destruct (linked_In_inv _ _ _ _ _ Hl Hin) as (c1 & Hc1 & Hr).
      destruct (promoted_primary _ _ _ Hr) as [Hu1 _].
      assert (Hu1' : ucs_id c1 = Some peer) by congruence.
      pose proof (In_erase _ _ _ _ Hc1) as Hc1l.
      destruct (Hp k c1 peer Hc1l Hu1') as (k2 & c2 & Hin2 & Hu2 & Hp2).
      destruct (Z.eq_dec k2 sid) as [->|Hne].
      * apply (In_find _ _ _ Hnd) in Hin2. rewrite Hf0 in Hin2.
        injection Hin2 as <-. rewrite Hu2. cbn [default].
        change (id peer) with peer.
        now apply (failover_promotes peer _ k c1).
      * pose proof (In_erase_ne sid _ _ _ Hin2 Hne) as Hin2'.
        destruct (linked_In _ _ _ _ _ Hl Hin2') as (c2' & Hin2'' & Hr2).
        destruct (promoted_primary _ _ _ Hr2) as [Hu2' Hp2'].
        exists k2, c2'. split; [exact Hin2''|]. split; [congruence|auto].
    + intros k c peer Hin Hu. apply In_erase in Hin as Hinl.
      destruct (Hp k c peer Hinl Hu) as (k2 & c2 & Hin2 & Hu2 & Hp2).
      exists k2, c2. split; [|auto]. apply In_erase_ne; [exact Hin2|].
      intros ->. apply (In_find _ _ _ Hnd) in Hin2. congruence.
  - (* a new connection *)
    rewrite Hc. intros k c peer Hin Hu.
    apply in_app_iff in Hin as [Hin|[[= <- <-]|[]]]; [|discriminate].
    destruct (Hp k c peer Hin Hu) as (k2 & c2 & Hin2 & Hu2 & Hp2).
    exists k2, c2. split; [apply in_app_iff; now left|auto].
  - (* handshake *)
    rewrite Hc.
    pose proof (handshaken_spec sid connection reg_peer _ Hf Hu) as Hs.
    pose proof (linked_Duplicate_scan (peer_id reg_peer) connection
                  (ucs_connections s)) as Hl.
    pose proof (Duplicate_scan_dupe (peer_id reg_peer) connection
                  (ucs_connections s)) as Hdupe.
    pose proof (Duplicate_scan_switched (peer_id reg_peer) connection
                  (ucs_connections s)) as Hsw.
    pose proof (fun k => Duplicate_scan_find (peer_id reg_peer) connection
                  (ucs_connections s) k Hnd) as Hfind.
    destruct (Duplicate_scan _ _ _) as [[[l1 dupe] switched] evs].
    cbn [fst snd] in *. destruct Hs as [-> Hf1].
    set (c_new := registered_as reg_peer dupe switched connection).
    assert (Hkeep : forall k c peer,
              In (k, c) (ucs_connections s) -> ucs_id c = Some peer ->
              peer <> peer_id reg_peer ->
              In (k, c) (Assoc.replace sid c_new l1)).
    { intros k c peer Hin Hcu Hne.
      destruct (linked_In _ _ _ _ _ Hl Hin) as (c' & Hin' & Hd).
      destruct Hd as [->|[Hcu' _]]; [|congruence].
      apply In_replace_ne; [exact Hin'|].
      intros ->. apply (In_find _ _ _ Hnd) in Hin. congruence. }
    intros k c' peer Hin Hcu'.
    destruct (Z.eq_dec peer (peer_id reg_peer)) as [->|Hne].
    + destruct (primary c_new) eqn:Hpn.
      { exists sid, c_new. split; [now apply (In_replace _ _ connection)|].
        split; [apply ucs_id_registered_as|exact Hpn]. }
      subst c_new. rewrite primary_registered_as in Hpn.
      destruct dupe; [|discriminate]. destruct switched; [discriminate|].
      symmetry in Hdupe.
      destruct (has_sibling_In _ _ Hdupe) as (k0 & c0 & Hin0 & Hu0).
      destruct (Hp k0 c0 _ Hin0 Hu0) as (k1 & c1 & Hin1 & Hu1 & Hp1).
      destruct (first_primary_of_exists _ _ _ _ Hin1 Hu1 Hp1)
        as (k2 & c2 & Hfp).
      rewrite Hfp in Hsw. specialize (Hfind k2). rewrite Hfp in Hfind.
      rewrite <- Hsw, andb_false_r in Hfind.
      destruct (first_primary_of_In _ _ _ _ Hfp) as (Hin2 & Hs2 & Hp2).
      apply same_ucs_true in Hs2.
      rewrite (In_find _ _ _ Hnd Hin2) in Hfind.
      exists k2, c2. split; [|auto].
      apply In_replace_ne; [now apply find_In|].
      intros ->. apply (In_find _ _ _ Hnd) in Hin2. congruence.
    + apply In_replace_inv in Hin as [[-> ->]|Hin].
      { subst c_new. rewrite ucs_id_registered_as in Hcu'. congruence. }
      destruct (linked_In_inv _ _ _ _ _ Hl Hin) as (c & Hinc & Hd).
      assert (c' = c) as ->.
      { destruct Hd as [->|[Hcu ->]]; [reflexivity|].
        cbn in Hcu'. congruence. }
      destruct (Hp k c peer Hinc Hcu') as (k1 & c1 & Hin1 & Hu1 & Hp1).
      exists k1, c1. split; [|auto]. now apply (Hkeep k1 c1 peer).
Qed.

Lemma peers_have_primary_evolves s s' :
  evolves s s' ->
  table_in_order (ucs_connections s) (ucs_id_counter s) ->
  peers_have_primary (ucs_connections s) ->
  peers_have_primary (ucs_connections s').
Proof.
  induction 1 as [|s s1 s' Hm _ IH]; [auto|].
  intros Ht Hp. apply IH.
  - now apply (table_in_order_move s).
  - now apply (peers_have_primary_move s).
Qed.

Lemma reachable_peers_have_primary s :
  reachable s -> peers_have_primary (ucs_connections s).
Proof.
  intros Hr. destruct (reachable_evolves s Hr) as (ka & pinned & He).
  apply (peers_have_primary_evolves _ _ He).
  - split; cbn; [lia|]. split; [constructor|intros k c []].
  - intros k c peer [].
Qed.

(** X9: the connection table of every reachable state is in order.  The
    keys are distinct, every connection is stored under its own stream
    id, and every stream id is a positive number below the id counter:
    0 is never the id of a connection, so the stream id 0 that
    [On_send_ucs_message] reads as a request to broadcast names no
    connection. *)
Theorem reachable_connection_table s :
  reachable s ->
  NoDup (Assoc.keys (ucs_connections s))
  /\ forall k c,
       Assoc.find k (ucs_connections s) = Some c ->
       stream_id c = k /\ 1 <= k < ucs_id_counter s.
Proof.
  intros Hr. destruct (reachable_table_in_order s Hr) as (_ & Hnd & Hin).
  split; [exact Hnd|]. intros k c Hf. apply Hin. now apply find_In.
Qed.

(** X10: until its peer has registered a connection takes no part in the
    routing.  In every reachable state a connection whose peer id is unset
    is not primary, so no broadcast is written on it, and has no
    registered device; hence every connection that lists a device in
    [registered_devices] has a peer id, the one
    [Notify_device_about_ucs_connections] reads through [*ucs_id]. *)
Theorem unregistered_connection_is_passive s k c :
  reachable s ->
  Assoc.find k (ucs_connections s) = Some c ->
  (ucs_id c = None -> primary c = false /\ registered_devices c = ∅)
  /\ (forall d, d ∈ registered_devices c -> ucs_id c <> None).
Proof.
  intros Hr Hf. pose proof (reachable_passive s Hr k c (find_In _ _ _ Hf)) as Hp.
  split; [exact Hp|]. intros d Hd Hu. destruct (Hp Hu) as [_ He].
  rewrite He in Hd. now apply not_elem_of_empty in Hd.
Qed.

(** X11: a connected peer always has a primary connection.  In every
    reachable state, each peer id carried by some connection is carried by
    a connection that is primary, so a broadcast reaches every connected
    peer: neither the duplicate scan of the handshake nor the failover of
    [Close_ucs_stream] leaves a peer without one. *)
Theorem connected_peer_has_primary s k c peer :
  reachable s ->
  Assoc.find k (ucs_connections s) = Some c ->
  ucs_id c = Some peer ->
  exists k' c',
    Assoc.find k' (ucs_connections s) = Some c'
    /\ ucs_id c' = Some peer /\ primary c' = true.
Proof.
  intros Hr Hf Hu.
  destruct (reachable_peers_have_primary s Hr k c peer (find_In _ _ _ Hf) Hu)
    as (k' & c' & Hin & Hu' & Hp').
  destruct (reachable_table_in_order s Hr) as (_ & Hnd & _).
  exists k', c'. split; [now apply In_find|auto].
Qed.

(** X12: a connection keeps its identity for as long as it is in the
    table, and ids are not reused.  From a reachable state, whatever
    requests are processed next, a connection found under the same key
    afterwards has the same stream id and the same address; its peer id,
    once set, is the same; and once flagged incompatible it stays so. *)
Theorem connection_identity_is_stable s rs s' k c c' :
  reachable s ->
  run rs s = Returned s' ->
  Assoc.find k (ucs_connections s) = Some c ->
  Assoc.find k (ucs_connections s') = Some c' ->
  stream_id c' = stream_id c
  /\ address c' = address c
  /\ (forall peer, ucs_id c = Some peer -> ucs_id c' = Some peer)
  /\ (is_compatible c = false -> is_compatible c' = false).
Proof.
  intros Hr Hrun Hf Hf'.
  pose proof (reachable_table_in_order s Hr) as Ht.
  pose proof (evolves_run rs s s' (reachable_well_formed s Hr) Hrun) as He.
  destruct (evolves_origin s s' He Ht) as [_ Ho].
  destruct (Ho k c' Hf') as [(c0 & Hf0 & Ha)|Hk].
  - rewrite Hf in Hf0. injection Hf0 as <-.
    destruct Ha as (Hs & Ha & Hu & Hc & _).
    split; [exact Hs|]. split; [exact Ha|]. split; [|exact Hc].
    intros peer Hp. rewrite Hu; congruence.
  - destruct Ht as (_ & _ & Hin). apply find_In, Hin in Hf. lia.
Qed.

End Moves.

(** ** Accepting and closing connections *)

Section Connections.
Context `{Platform}.

Lemma Promote_loopback_silent peer l :
  Forall silent (Promote_loopback peer l).1.2.
Proof.
  induction l as [|[k u] l IH]; cbn; [constructor|].
  destruct (Promote_loopback peer l) as [[l' evs] found]. cbn in IH.
  destruct (same_ucs peer u && _); cbn; [constructor; [exact I|]|]; exact IH.
Qed.

Lemma Promote_first_silent peer l : Forall silent (Promote_first peer l).2.
Proof.
  induction l as [|[k u] l IH]; cbn; [constructor|].
  destruct (same_ucs peer u); cbn; [repeat constructor|].
  destruct (Promote_first peer l) as [l' evs]. exact IH.
Qed.

Lemma Notify_all_trace ds : forall s,
  exists evs,
    trace (fold_left (fun s d => Notify_device_about_ucs_connections d s) ds s)
    = trace s ++ evs
    /\ Forall silent evs
    /\ vehicles (fold_left (fun s d => Notify_device_about_ucs_connections d s)
                   ds s) = vehicles s
    /\ transport_detector_on_when_diconnected
         (fold_left (fun s d => Notify_device_about_ucs_connections d s) ds s)
       = transport_detector_on_when_diconnected s.
Proof.
  induction ds as [|d ds IH]; intros s; cbn.
  - exists []. rewrite app_nil_r. repeat split. constructor.
  - destruct (IH (Notify_device_about_ucs_connections d s))
      as (evs & Ht & Hs & Hv & Hp).
    unfold Notify_device_about_ucs_connections in *.
    destruct (Get_device d s).
    + eexists (_ :: evs). cbn in Ht. rewrite Ht, <- app_assoc.
      split; [reflexivity|]. split; [constructor; [exact I|exact Hs]|].
      split; [exact Hv|exact Hp].
    + exists evs. auto.
Qed.

(** What [Close_ucs_stream] does on the streams and to the detector. *)
Lemma Close_ucs_stream_trace sid c s :
  Assoc.find sid (ucs_connections s) = Some c ->
  let s' := Close_ucs_stream sid s in
  vehicles s' = vehicles s
  /\ exists before after,
       Forall silent before /\ Forall silent after
       /\ trace s' =
          trace s ++ before ++ [Stream_close sid] ++ after
          ++ (if (length (ucs_connections s') =? 0)%nat
                 && negb (transport_detector_on_when_diconnected s)
              then [Activate false] else []).
Proof.
  intros Hf s'.
  pose proof (Close_ucs_stream_connections sid s) as [Hconn _].
  fold s' in Hconn. subst s'. revert Hconn.
  unfold Close_ucs_stream. rewrite Hf.
  set (s0 := emit (Stream_close sid) _).
  assert (H0 : exists before,
            Forall silent before
            /\ trace s0 = trace s ++ before ++ [Stream_close sid]
            /\ vehicles s0 = vehicles s
            /\ transport_detector_on_when_diconnected s0
               = transport_detector_on_when_diconnected s).
  { subst s0. destruct (ucs_id c).
    - eexists [_]. cbn. rewrite <- app_assoc. repeat split.
      repeat constructor.
    - exists []. cbn. repeat split. constructor. }
  destruct H0 as (before & Hb & Ht0 & Hv0 & Hp0).
  set (s1 := set_ucs_connections (Assoc.erase sid (ucs_connections s0)) s0).
  assert (H1 : trace s1 = trace s0 /\ vehicles s1 = vehicles s0
               /\ transport_detector_on_when_diconnected s1
                  = transport_detector_on_when_diconnected s0)
    by (subst s1; auto).
  destruct H1 as (Ht1 & Hv1 & Hp1). clearbody s1.
  set (s2 := if primary c then _ else s1).
  assert (H2 : exists evs,
            Forall silent evs /\ trace s2 = trace s1 ++ evs
            /\ vehicles s2 = vehicles s1
            /\ transport_detector_on_when_diconnected s2
               = transport_detector_on_when_diconnected s1).
  { subst s2. destruct (primary c).
    2:{ exists []. rewrite app_nil_r. repeat split. constructor. }
    pose proof (Promote_loopback_silent (default 0 (ucs_id c))
                  (ucs_connections s1)) as Hs1.
    destruct (Promote_loopback _ _) as [[l1 evs1] found]. cbn [fst snd] in Hs1.
    destruct (negb found).
    - pose proof (Promote_first_silent (default 0 (ucs_id c))
                    (ucs_connections
                       (emit_all evs1 (set_ucs_connections l1 s1)))) as Hs2.
      destruct (Promote_first _ _) as [l2 evs2]. cbn [snd] in Hs2.
      exists (evs1 ++ evs2).
      split; [now apply Forall_app|].
      rewrite !trace_emit_all, !vehicles_emit_all, !pinned_emit_all. cbn.
      rewrite !trace_emit_all, !vehicles_emit_all, !pinned_emit_all. cbn.
      now rewrite <- app_assoc.
    - exists evs1. split; [exact Hs1|].
      rewrite !trace_emit_all, !vehicles_emit_all, !pinned_emit_all. auto. }
  destruct H2 as (evs2 & Hs2 & Ht2 & Hv2 & Hp2). clearbody s2.
  destruct (Notify_all_trace (elements (registered_devices c)) s2)
    as (evs3 & Ht3 & Hs3 & Hv3 & Hp3).
  set (s3 := fold_left _ (elements (registered_devices c)) s2) in *.
  clearbody s3.
  assert (Hp : transport_detector_on_when_diconnected s3
               = transport_detector_on_when_diconnected s) by congruence.
  rewrite Hp. intros Hconn.
  destruct (_ && _) eqn:E.
  - split; [cbn [vehicles emit]; congruence|].
    exists before, (evs2 ++ evs3).
    split; [exact Hb|]. split; [now apply Forall_app|].
    cbn [trace emit]. rewrite Ht3, Ht2, Ht1, Ht0.
    cbn [ucs_connections emit length] in *.
    apply andb_true_iff in E as [E1 E2].
    rewrite E1, E2. cbn [andb]. rewrite <- !app_assoc. reflexivity.
  - split; [congruence|].
    exists before, (evs2 ++ evs3).
    split; [exact Hb|]. split; [now apply Forall_app|].
    rewrite Ht3, Ht2, Ht1, Ht0. rewrite E.
    rewrite <- !app_assoc, app_nil_r. reflexivity.
Qed.

(** The connections that stay are the ones that were there, some of them
    promoted. *)
Lemma Close_ucs_stream_linked sid c s :
  Assoc.find sid (ucs_connections s) = Some c ->
  linked (promoted (default 0 (ucs_id c)))
    (Assoc.erase sid (ucs_connections s))
    (ucs_connections (Close_ucs_stream sid s))
  /\ (primary c = false ->
      ucs_connections (Close_ucs_stream sid s)
      = Assoc.erase sid (ucs_connections s)).
Proof.
  intros Hf. destruct (Close_ucs_stream_connections sid s) as [-> _].
  unfold closed_connections. rewrite Hf.
  destruct (primary c); [split; [apply linked_failover|discriminate]|].
  split; [|reflexivity].
  apply (linked_impl eq); [intros ? ? ->; now left|apply linked_same].
Qed.

Lemma Close_ucs_stream_find_None sid s :
  NoDup (Assoc.keys (ucs_connections s)) ->
  Assoc.find sid (ucs_connections (Close_ucs_stream sid s)) = None.
Proof.
  intros Hnd. destruct (Assoc.find sid (ucs_connections s)) as [c|] eqn:Hf.
  - destruct (Close_ucs_stream_linked sid c s Hf) as [Hl _].
    destruct (Assoc.find sid (ucs_connections (Close_ucs_stream sid s)))
      as [u'|] eqn:E; [|reflexivity].
    destruct (linked_find_inv _ _ _ _ Hl E) as (u & Hu & _).
    now rewrite find_erase_same in Hu.
  - unfold Close_ucs_stream. now rewrite Hf.
Qed.

Lemma Close_ucs_stream_keys sid c s :
  Assoc.find sid (ucs_connections s) = Some c ->
  Assoc.keys (ucs_connections (Close_ucs_stream sid s))
  = Assoc.keys (Assoc.erase sid (ucs_connections s)).
Proof.
  intros Hf. destruct (Close_ucs_stream_linked sid c s Hf) as [Hl _].
  exact (linked_keys_any _ _ _ Hl).
Qed.

(** On the streams, a teardown is the close of one stream. *)
Lemma Close_ucs_stream_stream_events sid c s :
  Assoc.find sid (ucs_connections s) = Some c ->
  let s' := Close_ucs_stream sid s in
  exists evs,
    trace s' = trace s ++ evs
    /\ (forall k,
          stream_events k evs = if k =? sid then [Stream_close sid] else [])
    /\ (In (Activate false) evs <->
        ucs_connections s' = []
        /\ transport_detector_on_when_diconnected s = false).
Proof.
  intros Hf s'.
  destruct (Close_ucs_stream_trace sid c s Hf)
    as (Hv & before & after & Hb & Ha & Ht). fold s' in Hv, Ht.
  eexists. split; [exact Ht|]. split.
  - intros k. rewrite !stream_events_app.
    rewrite (silent_stream_events k before Hb),
      (silent_stream_events k after Ha).
    cbn [app]. unfold stream_events at 1. cbn [List.filter on_stream].
    rewrite Z.eqb_sym.
    destruct (_ && _); cbn; destruct (k =? sid); reflexivity.
  - split.
    + intros Hin. rewrite !in_app_iff in Hin. cbn [In] in Hin.
      destruct Hin as [Hin|[[Hin|[]]|[Hin|Hin]]];
        [now apply silent_no_Activate in Hin|discriminate
        |now apply silent_no_Activate in Hin|].
      destruct (_ && _) eqn:E; [|destruct Hin].
      apply andb_true_iff in E as [E1 E2].
      apply Nat.eqb_eq in E1. apply negb_true_iff in E2.
      split; [now apply length_zero_iff_nil|exact E2].
    + intros [He Hp]. rewrite He, Hp. cbn [length Nat.eqb negb andb].
      rewrite !in_app_iff. right. right. right. now left.
Qed.

(** X13: what closing a connection changes.  With distinct keys,
    [Close_ucs_stream] on a connection in the table removes it and no
    other; a connection that stays is unchanged or, when the closed one was
    primary, a connection of the same peer made primary; the vehicles and
    the id counter are untouched; on the streams the only event is the
    close of that one stream, nothing is written; and the transport
    detector is switched off exactly when no connection is left and the
    detector is not pinned on. *)
Theorem Close_ucs_stream_effects sid c s :
  NoDup (Assoc.keys (ucs_connections s)) ->
  Assoc.find sid (ucs_connections s) = Some c ->
  let s' := Close_ucs_stream sid s in
  Assoc.find sid (ucs_connections s') = None
  /\ (forall k u,
        k <> sid -> Assoc.find k (ucs_connections s) = Some u ->
        exists u',
          Assoc.find k (ucs_connections s') = Some u'
          /\ (u' = u
              \/ (primary c = true /\ ucs_id u = Some (default 0 (ucs_id c))
                  /\ u' = set_primary true u)))
  /\ Assoc.keys (ucs_connections s')
     = Assoc.keys (Assoc.erase sid (ucs_connections s))
  /\ vehicles s' = vehicles s
  /\ ucs_id_counter s' = ucs_id_counter s
  /\ exists evs,
       trace s' = trace s ++ evs
       /\ (forall k,
             stream_events k evs = if k =? sid then [Stream_close sid] else [])
       /\ (In (Activate false) evs <->
           ucs_connections s' = []
           /\ transport_detector_on_when_diconnected s = false).
Proof.
  intros Hnd Hf s'. subst s'.
  destruct (Close_ucs_stream_connections sid s) as [_ Hn].
  destruct (Close_ucs_stream_trace sid c s Hf) as (Hv & _).
  destruct (Close_ucs_stream_linked sid c s Hf) as [Hl Hnp].
  split; [now apply Close_ucs_stream_find_None|].
  split.
  { intros k u Hk Hu. rewrite <- (find_erase_ne _ sid k) in Hu by congruence.
    destruct (linked_find _ _ _ _ Hl Hu) as (u' & Hu' & Hp).
    exists u'. split; [exact Hu'|].
    destruct Hp as [->|[Hp ->]]; [now left|].
    destruct (primary c) eqn:Epc; [right; auto|].
    left. rewrite Hnp in Hu' by reflexivity. congruence. }
  split; [now apply (Close_ucs_stream_keys sid c)|].
  split; [exact Hv|]. split; [exact Hn|].
  exact (Close_ucs_stream_stream_events sid c s Hf).
Qed.

(** X14: a closed stream is inert.  With distinct keys, after
    [Close_ucs_stream] the completions still in flight for that stream
    (a read or a write, with any result), a further send on it and a
    second close all leave the processor as it is. *)
Theorem closed_stream_is_inert sid s :
  NoDup (Assoc.keys (ucs_connections s)) ->
  let s' := Close_ucs_stream sid s in
  (forall buffer result now,
     Read_completed buffer result sid now s' = Returned s')
  /\ (forall result, Write_completed result sid s' = s')
  /\ (forall m, Send_ucs_message sid m s' = (m, s'))
  /\ Close_ucs_stream sid s' = s'.
Proof.
  intros Hnd s'.
  pose proof (Close_ucs_stream_find_None sid s Hnd) as Hf. fold s' in Hf.
  assert (Hc : Close_ucs_stream sid s' = s')
    by (unfold Close_ucs_stream at 1; now rewrite Hf).
  split; [|split; [|split]].
  - intros buffer result now. unfold Read_completed. now rewrite Hf.
  - intros result. unfold Write_completed. now destruct result.
  - intros m. unfold Send_ucs_message. now rewrite Hf.
  - exact Hc.
Qed.



End Connections.

(** ** More on the handshake *)

Section Replay.
Context `{Platform}.

(** One registration message on a compatible connection whose peer is
    known. *)
Lemma Send_registration sid ctx m s :
  Assoc.find sid (ucs_connections s) = Some ctx ->
  ucs_id ctx <> None ->
  is_compatible ctx = true ->
  has (register_device m) = true ->
  let m' := set_message_id (ucs_id_counter s) (set_response_required true m) in
  let ctx' :=
    set_pending_registrations
      (Assoc.emplace (ucs_id_counter s) (get_device_id m)
         (pending_registrations ctx)) ctx in
  Send_ucs_message sid m s =
  (m',
   emit (Stream_write sid m' (encode_user_data (SerializeToArray m')))
     (store sid ctx' (snd (Get_next_id s)))).
Proof.
  intros Hf Hu Hc Hr m' ctx'. unfold Send_ucs_message. rewrite Hf.
  destruct (ucs_id ctx) as [u|] eqn:Eu; [|congruence].
  cbn [has negb andb]. rewrite Hc. cbn [negb]. rewrite Hr.
  cbn [Get_next_id]. unfold Send_ucs_message_write.
  cbn [set_message_id message_id has negb andb]. reflexivity.
Qed.

Lemma Send_vehicle_registrations_loop_spec sid vs : forall s ctx,
  NoDup (map fst vs) ->
  (forall d v, In (d, v) vs -> Assoc.find d (vehicles s) = Some v) ->
  Forall (fun dv => has (register_device (registration_message (snd dv)))
                    = true) vs ->
  Assoc.find sid (ucs_connections s) = Some ctx ->
  ucs_id ctx <> None ->
  is_compatible ctx = true ->
  let s' := Send_vehicle_registrations_loop sid (map fst vs) s in
  trace s' = trace s ++ registrations_sent sid (ucs_id_counter s) vs
  /\ ucs_id_counter s' = ucs_id_counter s + Z.of_nat (length vs)
  /\ exists ctx',
       Assoc.find sid (ucs_connections s') = Some ctx'
       /\ pending_registrations ctx'
          = registrations_pending (ucs_id_counter s) vs
              (pending_registrations ctx)
       /\ session ctx' = session ctx
       /\ registered_devices ctx' = registered_devices ctx.
Proof.
  induction vs as [|[d v] vs IH]; intros s ctx Hnd Hin Hall Hf Hu Hc.
  - cbn. rewrite app_nil_r. split; [reflexivity|]. split; [lia|].
    exists ctx. auto.
  - cbn [map fst] in Hnd. apply NoDup_cons in Hnd as [Hd Hnd].
    rewrite list_elem_of_In in Hd.
    apply Forall_cons in Hall as [Hr Hall]. cbn [snd] in Hr.
    cbn [map fst Send_vehicle_registrations_loop].
    rewrite (Hin d v) by (now left).
    rewrite (Send_registration sid ctx _ s Hf Hu Hc Hr).
    set (m' := set_message_id _ _).
    set (ctx1 := set_pending_registrations _ ctx).
    set (s1 := emit _ _).
    set (s2 := set_vehicles _ s1).
    assert (Hf2 : Assoc.find sid (ucs_connections s2) = Some ctx1).
    { subst s2 s1. cbn. now rewrite find_replace, Hf. }
    assert (Hin2 : forall d' v', In (d', v') vs ->
                     Assoc.find d' (vehicles s2) = Some v').
    { intros d' v' Hin'. subst s2 s1. cbn.
      rewrite find_replace_ne.
      - apply Hin. now right.
      - intros ->. apply Hd. change d' with (fst (d', v')). now apply in_map. }
    destruct (IH s2 ctx1 Hnd Hin2 Hall Hf2 Hu Hc)
      as (Ht & Hn & ctx' & Hf' & Hp' & Hs' & Hr').
    assert (Hn2 : ucs_id_counter s2 = ucs_id_counter s + 1)
      by (subst s2 s1; reflexivity).
    assert (Ht2 : trace s2
                  = trace s
                    ++ [Stream_write sid m'
                          (encode_user_data (SerializeToArray m'))])
      by (subst s2 s1; reflexivity).
    rewrite Hn2 in Ht, Hn, Hp'. rewrite Ht2 in Ht.
    split; [|split].
    + rewrite Ht, <- app_assoc. reflexivity.
    + rewrite Hn. cbn [length]. lia.
    + exists ctx'. split; [exact Hf'|]. split; [|split].
      * rewrite Hp'. subst ctx1. cbn [registrations_pending
          pending_registrations set_pending_registrations]. reflexivity.
      * rewrite Hs'. reflexivity.
      * rewrite Hr'. reflexivity.
Qed.

(** X16: a peer that has registered is told about every known device.
    On a compatible connection whose peer is known, when the device ids
    in the vehicles table are distinct and every stored registration
    message is a [register_device], [Send_vehicle_registrations] writes
    the registration message of each device on that connection, in table
    order, with [response_required] set and the next ids as message ids,
    one id a device; each id is entered in the connection's pending
    registrations with the device id of the message; nothing else in the
    connection changes. *)
Theorem registrations_replayed sid ctx s :
  NoDup (Assoc.keys (vehicles s)) ->
  Forall (fun dv => has (register_device (registration_message (snd dv)))
                    = true) (vehicles s) ->
  Assoc.find sid (ucs_connections s) = Some ctx ->
  ucs_id ctx <> None ->
  is_compatible ctx = true ->
  let s' := Send_vehicle_registrations sid s in
  trace s' = trace s ++ registrations_sent sid (ucs_id_counter s) (vehicles s)
  /\ ucs_id_counter s' = ucs_id_counter s + Z.of_nat (length (vehicles s))
  /\ exists ctx',
       Assoc.find sid (ucs_connections s') = Some ctx'
       /\ pending_registrations ctx'
          = registrations_pending (ucs_id_counter s) (vehicles s)
              (pending_registrations ctx)
       /\ session ctx' = session ctx
       /\ registered_devices ctx' = registered_devices ctx.
Proof.
  intros Hnd Hall Hf Hu Hc. unfold Send_vehicle_registrations, Assoc.keys.
  apply Send_vehicle_registrations_loop_spec; try assumption.
  intros d v Hin. now apply In_find.
Qed.

Lemma Send_blocked sid ctx m s :
  Assoc.find sid (ucs_connections s) = Some ctx ->
  ucs_id ctx <> None ->
  is_compatible ctx = false ->
  Send_ucs_message sid m s = (m, s).
Proof.
  intros Hf Hu Hc. unfold Send_ucs_message. rewrite Hf.
  destruct (ucs_id ctx); [|congruence]. cbn [has negb andb].
  now rewrite Hc.
Qed.

Lemma Send_vehicle_registrations_loop_blocked sid ctx ks : forall s,
  Assoc.find sid (ucs_connections s) = Some ctx ->
  ucs_id ctx <> None ->
  is_compatible ctx = false ->
  trace (Send_vehicle_registrations_loop sid ks s) = trace s
  /\ ucs_connections (Send_vehicle_registrations_loop sid ks s)
     = ucs_connections s
  /\ ucs_id_counter (Send_vehicle_registrations_loop sid ks s)
     = ucs_id_counter s.
Proof.
  induction ks as [|k ks IH]; intros s Hf Hu Hc; cbn; [auto|].
  destruct (Assoc.find k (vehicles s)) as [v|]; [|now apply IH].
  rewrite (Send_blocked sid ctx _ s Hf Hu Hc).
  destruct (IH (set_vehicles
                  (Assoc.replace k
                     (set_registration_message (registration_message v) v)
                     (vehicles s)) s) Hf Hu Hc) as (Ht & Hl & Hn).
  rewrite Ht, Hl, Hn. auto.
Qed.

Lemma is_compatible_registered_as reg_peer dupe switched c :
  is_compatible (registered_as reg_peer dupe switched c)
  = is_compatible c
    && negb ((default 0 (version_major reg_peer) <? SUPPORTED_UCS_VERSION_MAJOR)
             || ((default 0 (version_major reg_peer)
                  =? SUPPORTED_UCS_VERSION_MAJOR)
                 && (default 0 (version_minor reg_peer)
                     <? SUPPORTED_UCS_VERSION_MINOR))).
Proof.
  unfold registered_as.
  destruct (_ || _), dupe, switched; cbn;
    rewrite ?andb_true_r, ?andb_false_r; reflexivity.
Qed.

Lemma session_registered_as reg_peer dupe switched c :
  stream_id (registered_as reg_peer dupe switched c) = stream_id c
  /\ address (registered_as reg_peer dupe switched c) = address c
  /\ framing (registered_as reg_peer dupe switched c) = framing c
  /\ last_message_time (registered_as reg_peer dupe switched c)
     = last_message_time c
  /\ pending_registrations (registered_as reg_peer dupe switched c)
     = pending_registrations c
  /\ registered_devices (registered_as reg_peer dupe switched c)
     = registered_devices c.
Proof.
  unfold registered_as. destruct (_ || _), dupe, switched; cbn; auto 10.
Qed.

(** X17: the handshake records the peer, the time and the version
    verdict.  When a [register_peer] of an acceptable peer type arrives on
    a connection whose peer is unknown, the handler goes on to the next
    header, and the connection then carries the peer id of the message,
    the clock reading as [last_message_time] and the same stream id,
    address and framing state; it is compatible exactly if it was and the
    peer's version, absent parts counting as 0, is not below
    [SUPPORTED_UCS_VERSION_MAJOR].[SUPPORTED_UCS_VERSION_MINOR].  For a
    peer found incompatible the handshake closes no stream and writes on
    none: no device registration is sent to it. *)
Theorem peer_version_gate sid connection reg_peer vsm_msg now s :
  Assoc.find sid (ucs_connections s) = Some connection ->
  stream_id connection = sid ->
  ucs_id connection = None ->
  register_peer vsm_msg = Some reg_peer ->
  acceptable_peer_type (peer_type reg_peer) = true ->
  let below :=
    (default 0 (version_major reg_peer) <? SUPPORTED_UCS_VERSION_MAJOR)
    || ((default 0 (version_major reg_peer) =? SUPPORTED_UCS_VERSION_MAJOR)
        && (default 0 (version_minor reg_peer)
            <? SUPPORTED_UCS_VERSION_MINOR)) in
  let s' := snd (Message_parsed sid connection vsm_msg now s) in
  fst (Message_parsed sid connection vsm_msg now s) = true
  /\ exists c',
       Assoc.find sid (ucs_connections s') = Some c'
       /\ ucs_id c' = Some (peer_id reg_peer)
       /\ last_message_time c' = now
       /\ is_compatible c' = is_compatible connection && negb below
       /\ stream_id c' = sid
       /\ address c' = address connection
       /\ framing c' = framing connection
       /\ (is_compatible c' = false ->
           exists evs,
             trace s' = trace s ++ evs
             /\ forall k, stream_events k evs = []).
Proof.
  intros Hf Hsid Hu Hr Ha below s'. subst s'.
  unfold Message_parsed. rewrite Hu, Hr, Ha. cbn [fst snd].
  split; [reflexivity|].
  set (connection' := set_last_message_time now connection).
  set (s1 := store sid connection' s).
  assert (Hf1 : Assoc.find sid (ucs_connections s1) = Some connection')
    by (subst s1; cbn; now rewrite find_replace, Hf).
  destruct (Register_peer_accepted_split sid connection' reg_peer s1)
    as (s5 & -> & Hc & Hn & Hv & evs & Ht & Hs).
  pose proof (handshaken_spec sid connection' reg_peer _ Hf1 Hu) as Hh.
  destruct (Duplicate_scan _ _ _) as [[[l1 dupe] switched] evs0].
  destruct Hh as [Hh Hf1'].
  set (c5 := registered_as reg_peer dupe switched connection') in *.
  assert (Hf5 : Assoc.find sid (ucs_connections s5) = Some c5)
    by (rewrite Hc, Hh, find_replace, Hf1'; reflexivity).
  destruct (sessions_find_Some _ _ sid c5
              (Send_vehicle_registrations_sessions (stream_id connection') s5)
              Hf5) as (c' & Hf' & Hs').
  destruct (session_registered_as reg_peer dupe switched connection')
    as (H1 & H2 & H3 & H4 & _).
  pose proof (is_compatible_registered_as reg_peer dupe switched connection')
    as Hcompat.
  pose proof (ucs_id_registered_as reg_peer dupe switched connection') as Hid.
  fold c5 in H1, H2, H3, H4, Hcompat, Hid.
  unfold session in Hs'.
  assert (E1 : stream_id c' = stream_id c5) by congruence.
  assert (E2 : address c' = address c5) by congruence.
  assert (E3 : ucs_id c' = ucs_id c5) by congruence.
  assert (E4 : framing c' = framing c5) by congruence.
  assert (E5 : last_message_time c' = last_message_time c5) by congruence.
  assert (E6 : is_compatible c' = is_compatible c5) by congruence.
  exists c'. split; [exact Hf'|].
  split; [congruence|]. split; [rewrite E5, H4; reflexivity|].
  split; [rewrite E6, Hcompat; reflexivity|].
  split; [rewrite E1, H1; exact Hsid|].
  split; [rewrite E2, H2; reflexivity|].
  split; [rewrite E4, H3; reflexivity|].
  intros Hinc. rewrite E6 in Hinc.
  assert (Hu5 : ucs_id c5 <> None) by congruence.
  change (stream_id connection') with (stream_id connection).
  rewrite Hsid. unfold Send_vehicle_registrations.
  destruct (Send_vehicle_registrations_loop_blocked sid c5
              (Assoc.keys (vehicles s5)) s5 Hf5 Hu5 Hinc) as (Ht5 & _).
  rewrite Ht5. exists evs. split; [|exact Hs].
  rewrite Ht. subst s1. reflexivity.
Qed.

(** X18: a [register_peer] from a peer that is not a server ends the
    connection.  When the message carries a peer type other than
    [PEER_TYPE_SERVER] and the connection's peer is unknown, the handler
    does not go on: the connection is taken out of the table, its stream
    is closed, and nothing is written on any stream. *)
Theorem invalid_peer_type_rejected sid connection reg_peer vsm_msg now s :
  NoDup (Assoc.keys (ucs_connections s)) ->
  Assoc.find sid (ucs_connections s) = Some connection ->
  ucs_id connection = None ->
  register_peer vsm_msg = Some reg_peer ->
  acceptable_peer_type (peer_type reg_peer) = false ->
  let s' := snd (Message_parsed sid connection vsm_msg now s) in
  fst (Message_parsed sid connection vsm_msg now s) = false
  /\ Assoc.find sid (ucs_connections s') = None
  /\ Assoc.keys (ucs_connections s')
     = Assoc.keys (Assoc.erase sid (ucs_connections s))
  /\ exists evs,
       trace s' = trace s ++ evs
       /\ forall k,
            stream_events k evs = if k =? sid then [Stream_close sid] else [].
Proof.
  intros Hnd Hf Hu Hr Ha s'. subst s'.
  unfold Message_parsed. rewrite Hu, Hr, Ha. cbn [fst snd].
  split; [reflexivity|].
  set (connection' := set_last_message_time now connection).
  set (s1 := emit (Log LOG_invalid_peer_type) (store sid connection' s)).
  assert (Hf1 : Assoc.find sid (ucs_connections s1) = Some connection')
    by (subst s1; cbn; now rewrite find_replace, Hf).
  assert (Hnd1 : NoDup (Assoc.keys (ucs_connections s1)))
    by (subst s1; cbn [ucs_connections emit store set_ucs_connections];
        now rewrite keys_replace).
  destruct (Close_ucs_stream_stream_events sid connection' s1 Hf1)
    as (evs & Ht & Hse & _).
  split; [now apply Close_ucs_stream_find_None|]. split.
  - rewrite (Close_ucs_stream_keys sid connection' s1 Hf1). subst s1.
    cbn [ucs_connections emit store set_ucs_connections].
    clear. induction (ucs_connections s) as [|[k0 c0] l IH]; [reflexivity|].
    cbn. destruct (k0 =? sid) eqn:E; cbn; rewrite ?E; cbn; [reflexivity|].
    unfold Assoc.keys in IH. now rewrite IH.
  - exists (Log LOG_invalid_peer_type :: evs). split.
    + rewrite Ht. subst s1. cbn. now rewrite <- app_assoc.
    + intros k. unfold stream_events. cbn [List.filter on_stream].
      apply Hse.
Qed.

(** X4: a broadcast reaches the primary connections and no other.  In
    every reachable state, for a message that is not a [register_device]
    and needs no message id, [Broadcast_message_to_ucs] writes the
    message, unchanged, exactly once on every connection that is primary,
    compatible and, unless the message is for the peer itself, has the
    device registered, in iteration order; nothing is written on any other
    connection and no id is used. *)
Theorem Broadcast_reaches_primary_only m s :
  reachable s ->
  register_device m = None ->
  needs_message_id m = false ->
  let m' := fst (Broadcast_message_to_ucs m s) in
  let s' := snd (Broadcast_message_to_ucs m s) in
  m' = m
  /\ ucs_id_counter s' = ucs_id_counter s
  /\ trace s' =
     trace s
     ++ map (fun kc => Stream_write (fst kc) m
                         (encode_user_data (SerializeToArray m)))
          (List.filter (fun kc => primary (snd kc) && admits m (snd kc))
             (ucs_connections s)).
Proof.
  intros Hr Hreg Hn.
  destruct (reachable_table_in_order s Hr) as (_ & Hnd & _).
  apply Broadcast_message_to_ucs_plain; try assumption.
  intros k c Hf Hp Hu.
  destruct (reachable_passive s Hr k c (find_In _ _ _ Hf) Hu) as [Hp' _].
  congruence.
Qed.

End Replay.

(** ** The device table *)

Section Fleet.
Context `{Platform}.

Lemma fleet_replace d v v' s :
  Assoc.find d (vehicles s) = Some v -> vehicle v' = vehicle v ->
  fleet (set_vehicles (Assoc.replace d v' (vehicles s)) s) = fleet s.
Proof.
  intros Hf Hv. unfold fleet. cbn [vehicles set_vehicles].
  induction (vehicles s) as [|[k0 v0] l IH]; cbn in *; [reflexivity|].
  destruct (k0 =? d); cbn.
  - injection Hf as ->. now rewrite Hv.
  - now rewrite IH.
Qed.

Lemma vehicles_Notify d s :
  vehicles (Notify_device_about_ucs_connections d s) = vehicles s.
Proof.
  unfold Notify_device_about_ucs_connections. now destruct (Get_device d s).
Qed.

Lemma vehicles_On_ucs_message sid m s :
  vehicles (On_ucs_message sid m s) = vehicles s.
Proof.
  unfold On_ucs_message, Send_ucs_message_ptr.
  repeat match goal with
         | |- context [if ?b then _ else _] => destruct b
         | |- context [match Get_device ?d ?s with _ => _ end] =>
             destruct (Get_device d s)
         end;
    rewrite ?Send_ucs_message_vehicles; reflexivity.
Qed.

Lemma vehicles_Registration_response sid connection ucs device m response s :
  vehicles (Registration_response sid connection ucs device m response s)
  = vehicles s.
Proof.
  unfold Registration_response, Send_ucs_message_ptr.
  destruct (code response); rewrite ?vehicles_update_connection; try reflexivity.
  cbn [emit vehicles].
  destruct (Assoc.find device (vehicles s)); [|reflexivity].
  now rewrite Send_ucs_message_vehicles, vehicles_Notify,
    vehicles_update_connection.
Qed.

Lemma fleet_Send_vehicle_registrations_loop sid ks : forall s,
  fleet (Send_vehicle_registrations_loop sid ks s) = fleet s.
Proof.
  induction ks as [|k ks IH]; intros s; cbn; [reflexivity|].
  destruct (Assoc.find k (vehicles s)) as [v|] eqn:Hf; [|apply IH].
  pose proof (Send_ucs_message_vehicles sid (registration_message v) s) as Hv.
  destruct (Send_ucs_message sid (registration_message v) s) as [m' s'].
  cbn [snd] in Hv. rewrite IH.
  rewrite (fleet_replace k v); [|congruence|reflexivity].
  unfold fleet. now rewrite Hv.
Qed.

Lemma vehicles_Close_ucs_stream sid s :
  vehicles (Close_ucs_stream sid s) = vehicles s.
Proof.
  destruct (Assoc.find sid (ucs_connections s)) as [c|] eqn:Hf.
  - now destruct (Close_ucs_stream_trace sid c s Hf) as [Hv _].
  - unfold Close_ucs_stream. now rewrite Hf.
Qed.

Lemma vehicles_On_timer_loop clock ks : forall s,
  vehicles (On_timer_loop clock ks s) = vehicles s.
Proof.
  induction ks as [|k ks IH]; intros s; cbn; [reflexivity|].
  destruct (Assoc.find k (ucs_connections s)) as [c|]; [|apply IH].
  rewrite IH. unfold On_timer_visit, Send_ucs_message_ptr.
  repeat match goal with
         | |- context [if ?b then _ else _] => destruct b
         end;
    rewrite ?Send_ucs_message_vehicles; reflexivity.
Qed.

Lemma fleet_Message_parsed sid connection vsm_msg now s :
  fleet (snd (Message_parsed sid connection vsm_msg now s)) = fleet s.
Proof.
  unfold Message_parsed.
  destruct (ucs_id connection) as [ucs|].
  - unfold fleet.
    destruct (device_response vsm_msg) as [response|]; cbn [snd].
    + destruct (Assoc.find _ (pending_registrations connection)); cbn [snd].
      * now rewrite vehicles_Registration_response.
      * now rewrite vehicles_On_ucs_message.
    + now rewrite vehicles_On_ucs_message.
  - destruct (register_peer vsm_msg) as [reg_peer|]; cbn [snd];
      [|reflexivity].
    destruct (acceptable_peer_type _); cbn [snd].
    + destruct (Register_peer_accepted_split sid
                  (set_last_message_time now connection) reg_peer
                  (store sid (set_last_message_time now connection) s))
        as (s5 & -> & _ & _ & Hv & _).
      unfold Send_vehicle_registrations.
      rewrite fleet_Send_vehicle_registrations_loop.
      unfold fleet. now rewrite Hv.
    + unfold fleet. now rewrite vehicles_Close_ucs_stream.
Qed.

Lemma fleet_Read_completed buffer result sid now s s' :
  Read_completed buffer result sid now s = Returned s' -> fleet s' = fleet s.
Proof.
  unfold Read_completed.
  destruct (Assoc.find sid (ucs_connections s)) as [connection|] eqn:Hf;
    [|now intros [= <-]].
  destruct result;
    try (intros [= <-]; unfold fleet; now rewrite vehicles_Close_ucs_stream).
  destruct (reading_header (framing connection)).
  - destruct buffer as [|byte [|? ?]]; try discriminate.
    destruct (Read_header (framing connection) byte) as [|f|f];
      [discriminate| |]; intros [= <-]; unfold fleet;
      rewrite ?vehicles_Close_ucs_stream; reflexivity.
  - destruct (ParseFromArray buffer) as [vsm_msg|].
    2:{ intros [= <-]. unfold fleet. now rewrite vehicles_Close_ucs_stream. }
    pose proof (fleet_Message_parsed sid connection vsm_msg now s) as Hmp.
    destruct (Message_parsed sid connection vsm_msg now s) as [continue s1].
    cbn [snd] in Hmp.
    destruct continue; [|now intros [= <-]].
    destruct (Assoc.find sid (ucs_connections s1)) as [c1|];
      intros [= <-]; exact Hmp.
Qed.

(** What a request does to the devices of the vehicles table. *)
Lemma fleet_process r s s' :
  process r s = Returned s' ->
  fleet s' = fleet s
  \/ (exists device,
        Assoc.find (Get_session_id device) (fleet s) = None
        /\ fleet s' = fleet s ++ [(Get_session_id device, device)])
  \/ exists d, fleet s' = Assoc.erase d (fleet s).
Proof.
  destruct r as [is_tcp addr now|buffer result sid now|result sid|clock|dev
                |handle|handle message sid|sid resp]; cbn [process].
  - intros [= <-]. left. unfold On_incoming_connection.
    destruct is_tcp; cbn [negb]; [|reflexivity].
    cbn [Get_next_id]. unfold Send_ucs_message_ptr, fleet.
    now rewrite Send_ucs_message_vehicles.
  - intros Hr. left. eapply fleet_Read_completed, Hr.
  - intros [= <-]. left. unfold Write_completed, fleet.
    destruct result; rewrite ?vehicles_Close_ucs_stream; reflexivity.
  - intros [= <-]. left. unfold fleet. cbn [On_timer snd].
    now rewrite vehicles_On_timer_loop.
  - intros Hr. right. left. exists dev.
    destruct (Assoc.find (Get_session_id dev) (vehicles s)) eqn:Hf.
    { unfold On_register_vehicle in Hr. rewrite Hf in Hr. discriminate. }
    destruct (On_register_vehicle_fresh dev s Hf)
      as (s1 & v & Hr1 & Hv1 & Hd & _).
    rewrite Hr in Hr1. injection Hr1 as <-.
    split.
    + unfold fleet. clear -Hf.
      induction (vehicles s) as [|[k0 v0] l IH]; cbn in *; [reflexivity|].
      destruct (k0 =? _); [discriminate|]. now apply IH.
    + unfold fleet. rewrite Hv1, map_app. cbn. now rewrite Hd.
  - unfold On_unregister_vehicle.
    destruct (Assoc.find _ (vehicles s)); [|discriminate].
    intros [= <-]. right. right. exists handle.
    unfold fleet. rewrite Broadcast_vehicles. cbn [set_vehicles vehicles].
    induction (vehicles s) as [|[k0 v0] l IH]; cbn; [reflexivity|].
    destruct (k0 =? handle); cbn; [reflexivity|]. now rewrite IH.
  - intros [= <-]. left. unfold On_send_ucs_message.
    destruct (Assoc.find handle (vehicles s)) as [v|] eqn:Hf; [|reflexivity].
    set (s1 := set_vehicles _ s).
    assert (H1 : fleet s1 = fleet s)
      by (subst s1; now apply (fleet_replace handle v)).
    rewrite <- H1. unfold fleet, Send_ucs_message_ptr.
    destruct (negb _);
      rewrite ?Send_ucs_message_vehicles, ?Broadcast_vehicles; reflexivity.
  - intros [= <-]. left. unfold Send_ucs_message_ptr, fleet.
    now rewrite Send_ucs_message_vehicles.
Qed.

Lemma In_erase_fleet d (l : list (Z * Device)) k dev :
  In (k, dev) (Assoc.erase d l) -> In (k, dev) l.
Proof.
  induction l as [|[k0 u] l IH]; cbn; [tauto|].
  destruct (k0 =? d); cbn; tauto.
Qed.

Lemma find_None_keys (l : list (Z * Device)) k :
  Assoc.find k l = None -> ~ In k (Assoc.keys l).
Proof.
  induction l as [|[k0 u] l IH]; cbn; [tauto|].
  destruct (Z.eqb_spec k0 k); [discriminate|]. intros Hf [?|Hin]; [lia|].
  now apply IH.
Qed.

Lemma fleet_in_order_process r s s' :
  process r s = Returned s' ->
  NoDup (Assoc.keys (fleet s))
  /\ (forall d dev, In (d, dev) (fleet s) -> Get_session_id dev = d) ->
  NoDup (Assoc.keys (fleet s'))
  /\ (forall d dev, In (d, dev) (fleet s') -> Get_session_id dev = d).
Proof.
  intros Hp [Hnd Hin].
  destruct (fleet_process r s s' Hp) as [->|[(dev & Hf & ->)|[d ->]]].
  - auto.
  - split.
    + unfold Assoc.keys in *. rewrite map_app. cbn.
      apply NoDup_app. split; [exact Hnd|]. split; [|apply NoDup_singleton].
      intros k Hk Hk1. apply list_elem_of_singleton in Hk1. subst k.
      apply list_elem_of_In in Hk. now apply find_None_keys in Hf.
    + intros d dev' Hd. apply in_app_iff in Hd as [Hd|[[= <- <-]|[]]];
        [now apply Hin|reflexivity].
  - split; [now apply keys_erase_NoDup|].
    intros k dev Hd. apply Hin. now apply In_erase_fleet in Hd.
Qed.

Lemma fleet_in_order_run rs : forall s s',
  run rs s = Returned s' ->
  NoDup (Assoc.keys (fleet s))
  /\ (forall d dev, In (d, dev) (fleet s) -> Get_session_id dev = d) ->
  NoDup (Assoc.keys (fleet s'))
  /\ (forall d dev, In (d, dev) (fleet s') -> Get_session_id dev = d).
Proof.
  induction rs as [|r rs IH]; intros s s'; cbn.
  - now intros [= <-].
  - destruct (process r s) as [s1| |] eqn:Hp; try discriminate.
    intros Hr Hs. apply (IH s1 s' Hr). now apply (fleet_in_order_process r s).
Qed.

(** X19: the vehicles table of every reachable state is in order: the
    device ids are distinct and every device is stored under its own
    session id, whatever the send path and the handshake write into the
    stored registration messages and caches. *)
Theorem reachable_device_table s :
  reachable s ->
  NoDup (Assoc.keys (vehicles s))
  /\ forall d v,
       Assoc.find d (vehicles s) = Some v -> Get_session_id (vehicle v) = d.
Proof.
  intros (keep_alive & pinned & rs & Hrun).
  destruct (fleet_in_order_run rs _ _ Hrun) as [Hnd Hin].
  { split; cbn; [constructor|intros d dev []]. }
  split.
  - unfold fleet, Assoc.keys in Hnd. now rewrite map_map in Hnd.
  - intros d v Hf. apply (Hin d (vehicle v)). unfold fleet.
    apply in_map_iff. exists (d, v). split; [reflexivity|now apply find_In].
Qed.

End Fleet.

(** ** Runs of the processor *)

Import Demo.


(** The empty message is within the cap and its encoding is the single
    byte 0.  Sent to a connection that was just accepted, it is taken as a
    header and no frame is handed over: the round trip of C4 fails for a
    message of serialized length 0. *)
Lemma round_trip_fails_for_empty_message :
  let s := state_after 0 accepted in
  run accepted (enabled 0 false) = Returned s
  /\ framing (connection_of 1 s) = initial_framing
  /\ Z.of_nat (length (SerializeToArray empty_message))
     <= PROTO_MAX_MESSAGE_LEN
  /\ encode_user_data (SerializeToArray empty_message) = [0]
  /\ line_frames (arrive_all 1 1 (new_line s) [[0]]) = []
  /\ ~ round_trip 1 1 s empty_message [[0]].
Proof.
  cbv zeta. split; [vm_compute; reflexivity|].
  split; [vm_compute; reflexivity|].
  split; [vm_compute; discriminate|].
  split; [vm_compute; reflexivity|].
  split; [vm_compute; reflexivity|].
  intros Hrt. destruct (Hrt eq_refl) as [Hframes _].
  vm_compute in Hframes. discriminate.
Qed.

(** A message the parser rejects makes the round trip and ends the
    connection: the ping of the demo platform serializes to two bytes that
    its parser does not read. *)
Lemma unparsed_frame_closes_connection :
  let s := state_after 0 accepted in
  let l := arrive_all 1 1 (new_line s) [[2]; [1]; [0]] in
  encode_user_data (SerializeToArray ping_msg) = [2; 1; 0]
  /\ line_frames l = [SerializeToArray ping_msg]
  /\ exists s',
       line_outcome l = Returned s'
       /\ Assoc.find 1 (ucs_connections s') = None
       /\ trace s'
          = trace s
            ++ [Stream_read 1 2; Log LOG_parse_failed; Stream_close 1;
                Activate false].
Proof.
  vm_compute. repeat split. eexists. repeat split.
Qed.

(** The handshake of a peer, one byte at a time, on a connection that was
    just accepted: the round trip holds. *)
Lemma frame_round_trip_witness :
  round_trip 1 1 (state_after 0 accepted) (demo_register_peer 7 3)
    [[2]; [0]; [7]].
Proof.
  intros Hchunks.
  destruct (frame_round_trip 1 1 (state_after 0 accepted)
              (connection_of 1 (state_after 0 accepted))
              (demo_register_peer 7 3) [[2]; [0]; [7]])
    as [_ Hpos].
  - vm_compute. reflexivity.
  - vm_compute. reflexivity.
  - vm_compute. discriminate.
  - vm_compute. discriminate.
  - exact Hchunks.
  - destruct (Hpos ltac:(vm_compute; lia)) as [Harrive Hend].
    cbv zeta. rewrite Harrive. cbn [line_frames line_inbox line_outcome].
    split; [reflexivity|]. split; [reflexivity|].
    vm_compute in Hend. destruct Hend as (s' & c' & Hr & Hf & Hfr & _).
    exists s', c'. split; [|split; assumption].
    rewrite <- Hr. vm_compute. reflexivity.
Defined.

(** The same input through the read handler: after the five bytes the
    connection is still there, in header state with a shift count of 35,
    and the read of a sixth header byte has no defined outcome. *)
Lemma sixth_header_byte_undefined :
  let s := state_after 0 five_empty_continuations in
  run five_empty_continuations (enabled 0 false) = Returned s
  /\ framing (connection_of 1 s) = header_state 0 35
  /\ Read_completed [0x01] Io_OK 1 2 s = Undefined_behaviour.
Proof. vm_compute. repeat split; reflexivity. Qed.

Lemma header_shift_unbounded_witness :
  receive new_receiver (repeat 0x80 5) = rx (header_state 0 35) [] []
  /\ rx_status (receive new_receiver (repeat 0x80 5 ++ [0x01]))
     = Failed_undefined.
Proof.
  apply (header_shift_unbounded 0x01). vm_compute. discriminate.
Defined.

(** C1: a state with two primary connections of one peer is reachable.
    Three loopback connections register as peer 7; each handshake takes the
    primary role over, so the third is primary.  When it is closed, the
    failover loop promotes both survivors. *)
Theorem two_primary_connections_reachable :
  exists s c1 c2,
    reachable s
    /\ Assoc.find 1 (ucs_connections s) = Some c1
    /\ Assoc.find 2 (ucs_connections s) = Some c2
    /\ ucs_id c1 = Some 7 /\ ucs_id c2 = Some 7
    /\ primary c1 = true /\ primary c2 = true.
Proof.
  eexists _, _, _. split.
  - exists 0, false,
      (three_loopback_connections ++ [Read_done [] Io_CLOSED 3 6]).
    vm_compute. reflexivity.
  - vm_compute. repeat split; reflexivity.
Qed.

Lemma failover_promotes_every_loopback_witness :
  let s := state_after 0 three_loopback_connections in
  Assoc.find 1 (ucs_connections (Close_ucs_stream 3 s))
  = Some (set_primary true (connection_of 1 s))
  /\ Assoc.find 2 (ucs_connections (Close_ucs_stream 3 s))
     = Some (set_primary true (connection_of 2 s)).
Proof.
  intros s. split.
  - apply (failover_promotes_every_loopback 3 (connection_of 3 s) 7 s 1);
      [vm_compute; reflexivity | vm_compute; reflexivity
      | vm_compute; reflexivity | lia | vm_compute; reflexivity
      | vm_compute; reflexivity | vm_compute; reflexivity].
  - apply (failover_promotes_every_loopback 3 (connection_of 3 s) 7 s 2);
      [vm_compute; reflexivity | vm_compute; reflexivity
      | vm_compute; reflexivity | lia | vm_compute; reflexivity
      | vm_compute; reflexivity | vm_compute; reflexivity].
Defined.

(** Two remote connections of one peer: the handshake of the second takes
    the primary role from the first, although neither is loopback. *)
Lemma second_remote_connection_takes_primary :
  let s := state_after 0 second_remote_connection in
  let s' :=
    snd (Message_parsed 2 (connection_of 2 s) (demo_register_peer 7 3) 3 s) in
  run second_remote_connection (enabled 0 false) = Returned s
  /\ ucs_id (connection_of 2 s) = None
  /\ Is_loopback_address (address (connection_of 2 s)) = false
  /\ ucs_id (connection_of 1 s) = Some 7
  /\ primary (connection_of 1 s) = true
  /\ Is_loopback_address (address (connection_of 1 s)) = false
  /\ primary (connection_of 2 s') = true
  /\ primary (connection_of 1 s') = false.
Proof. vm_compute. repeat split; reflexivity. Qed.

Lemma register_peer_primary_selection_witness :
  let s := state_after 0 second_remote_connection in
  let s' :=
    snd (Message_parsed 2 (connection_of 2 s) (demo_register_peer 7 3) 3 s) in
  exists connection',
    Assoc.find 2 (ucs_connections s') = Some connection'
    /\ ucs_id connection' = Some 7
    /\ primary connection' = true.
Proof.
  intros s s'.
  destruct (register_peer_primary_selection 2 (connection_of 2 s)
              {| peer_id := 7; peer_type := None; name := 0;
                 version_major := Some 3; version_minor := Some 0;
                 version_build := None |}
              (demo_register_peer 7 3) 3 s)
    as (c' & Hf & Hu & Hp & _).
  - apply (bool_decide_unpack _). vm_compute. exact I.
  - vm_compute. reflexivity.
  - vm_compute. reflexivity.
  - reflexivity.
  - reflexivity.
  - exists c'. split; [exact Hf|]. split; [exact Hu|].
    rewrite Hp. vm_compute. reflexivity.
Defined.

(** Device 5 was unregistered while its registration request was pending:
    the acknowledgement with STATUS_OK does not register it on the
    connection, and nothing is sent. *)
Lemma acknowledgement_after_unregistration :
  let s := state_after 0 unregistered_while_pending in
  let ack := set_device_response STATUS_OK (set_message_id 2 demo_message) in
  let s' := snd (Message_parsed 1 (connection_of 1 s) ack 2 s) in
  run unregistered_while_pending (enabled 0 false) = Returned s
  /\ ucs_id (connection_of 1 s) = Some 7
  /\ Assoc.find 2 (pending_registrations (connection_of 1 s)) = Some 5
  /\ elements (registered_devices (connection_of 1 s')) = []
  /\ pending_registrations (connection_of 1 s') = []
  /\ trace s' = trace s ++ [Log (LOG_registered 5 7)].
Proof. vm_compute. repeat split; reflexivity. Qed.

Lemma registration_response_handled_witness :
  let s := state_after 0 reported_while_pending in
  let ack := set_device_response STATUS_OK (set_message_id 2 demo_message) in
  let s' := snd (Message_parsed 1 (connection_of 1 s) ack 2 s) in
  map snd (telemetry_cache (vehicle_of 5 s)) = [field_1; field_2_NA]
  /\ exists connection' replay,
       Assoc.find 1 (ucs_connections s') = Some connection'
       /\ registered_devices connection'
          = {[5]} ∪ registered_devices (connection_of 1 s)
       /\ trace s'
          = trace s
            ++ [Log (LOG_registered 5 7);
                Handle_ucs_info 5
                  (map (fun kv => peer_info kv.2)
                     (filter (fun kv => 5 ∈ registered_devices kv.2)
                        (ucs_connections s')));
                Stream_write 1 replay
                  (encode_user_data (SerializeToArray replay))]
       /\ device_id replay = Some 5
       /\ device_status replay
          = Some {| telemetry_fields := [field_1];
                    command_availability := [command_3] |}.
Proof.
  intros s ack s'.
  assert (Hf : Assoc.find 1 (ucs_connections s) = Some (connection_of 1 s))
    by (vm_compute; reflexivity).
  assert (Hu : ucs_id (connection_of 1 s) = Some 7)
    by (vm_compute; reflexivity).
  assert (Hp : Assoc.find (get_message_id ack)
                 (pending_registrations (connection_of 1 s)) = Some 5)
    by (vm_compute; reflexivity).
  assert (Hsid : stream_id (connection_of 1 s) = 1)
    by (vm_compute; reflexivity).
  assert (Hc : is_compatible (connection_of 1 s) = true)
    by (vm_compute; reflexivity).
  assert (Hv : Assoc.find 5 (vehicles s) = Some (vehicle_of 5 s))
    by (vm_compute; reflexivity).
  assert (Ht : map snd (telemetry_cache (vehicle_of 5 s))
               = [field_1; field_2_NA]) by (vm_compute; reflexivity).
  assert (Ha : map snd (availability_cache (vehicle_of 5 s)) = [command_3])
    by (vm_compute; reflexivity).
  assert (Hfilter :
    filter (fun e => meta_value (value e) <> Some META_VALUE_NA)
      [field_1; field_2_NA] = [field_1]) by (vm_compute; reflexivity).
  subst s'. revert Hf Hu Hp Hsid Hc Hv Ht Ha. generalize s. clear s.
  intros s Hf Hu Hp Hsid Hc Hv Ht Ha.
  split; [exact Ht|].
  destruct (registration_response_handled 1 (connection_of 1 s) 7 5 ack
              {| code := STATUS_OK; progress := 0; status := 0 |} 2 s
              Hf Hsid Hu eq_refl Hp)
    as (c' & events & Hmp & _ & Hcase).
  cbn [code] in Hcase. rewrite Hv, Hc, Ht, Ha, Hfilter in Hcase.
  cbv zeta in Hcase. destruct Hcase as (Hreg & _ & Hev).
  rewrite Hmp. cbn [snd trace ucs_connections]. rewrite Hev.
  eexists c', _. split; [now rewrite find_replace, Hf|].
  split; [exact Hreg|]. split; [reflexivity|]. split; reflexivity.
Defined.




(** Two registration requests of device 5 are pending when its
    [unregister_device] is sent: the notice is transmitted, the device
    leaves [registered_devices], and a pending entry still maps to it. *)
Lemma unregister_leaves_pending_entry :
  let s := state_after 0 registered_three_times in
  let s' := snd (Send_ucs_message 1 (unregister_notice 5) s) in
  run registered_three_times (enabled 0 false) = Returned s
  /\ ucs_id (connection_of 1 s) = Some 7
  /\ is_compatible (connection_of 1 s) = true
  /\ elements (registered_devices (connection_of 1 s)) = [5]
  /\ Assoc.find 3 (pending_registrations (connection_of 1 s)) = Some 5
  /\ Assoc.find 4 (pending_registrations (connection_of 1 s)) = Some 5
  /\ transmitted 1 (unregister_notice 5) s s'
  /\ elements (registered_devices (connection_of 1 s')) = []
  /\ exists k, Assoc.find k (pending_registrations (connection_of 1 s'))
               = Some 5.
Proof.
  vm_compute. repeat split; try reflexivity. exists 4. reflexivity.
Qed.

Lemma Send_ucs_message_device_gate_witness :
  let s := state_after 0 registered_three_times in
  let m := unregister_notice 5 in
  let s' := snd (Send_ucs_message 1 m s) in
  fst (Send_ucs_message 1 m s) = m
  /\ transmitted 1 m s s'
  /\ exists ctx',
       Assoc.find 1 (ucs_connections s') = Some ctx'
       /\ registered_devices ctx'
          = registered_devices (connection_of 1 s) ∖ {[5]}
       /\ (Assoc.find 3 (pending_registrations ctx') = Some 5
           \/ Assoc.find 4 (pending_registrations ctx') = Some 5).
Proof.
  intros s m s'.
  assert (Hf : Assoc.find 1 (ucs_connections s) = Some (connection_of 1 s))
    by (vm_compute; reflexivity).
  assert (Hu : ucs_id (connection_of 1 s) = Some 7)
    by (vm_compute; reflexivity).
  assert (Hc : is_compatible (connection_of 1 s) = true)
    by (vm_compute; reflexivity).
  assert (Hnd : NoDup (Assoc.keys (pending_registrations (connection_of 1 s))))
    by (apply (bool_decide_unpack _); vm_compute; exact I).
  assert (Hin : 5 ∈ registered_devices (connection_of 1 s))
    by (apply (bool_decide_unpack _); vm_compute; exact I).
  assert (H3 : Assoc.find 3 (pending_registrations (connection_of 1 s))
               = Some 5) by (vm_compute; reflexivity).
  assert (H4 : Assoc.find 4 (pending_registrations (connection_of 1 s))
               = Some 5) by (vm_compute; reflexivity).
  subst s'. revert Hf Hu Hc Hnd Hin H3 H4. generalize s. clear s.
  intros s Hf Hu Hc Hnd Hin H3 H4.
  destruct (Send_ucs_message_device_gate 1 (connection_of 1 s) 7 m s
              Hf Hu Hc Hnd) as (_ & _ & Hsend).
  destruct (Hsend eq_refl ltac:(discriminate) Hin)
    as (Hkeep & _ & Ht & ctx' & Hf' & _ & _ & Hun).
  destruct (Hun ltac:(discriminate)) as (Hreg & _ & _ & Hstale).
  assert (Hrr : response_required m <> Some true) by discriminate.
  pose proof (Hkeep (or_intror Hrr)) as Hm.
  rewrite Hm in Ht.
  split; [exact Hm|]. split; [exact Ht|].
  exists ctx'. split; [exact Hf'|]. split; [exact Hreg|].
  apply Hstale; [discriminate|exact H3|exact H4].
Defined.



(** A peer of an unsupported version has completed the handshake and a
    keep-alive timeout of 5 is configured.  One time unit after its last
    message the timer neither closes its stream nor sends a ping. *)
Lemma incompatible_peer_gets_no_ping :
  let s := state_after 5 incompatible_peer in
  run incompatible_peer (enabled 5 false) = Returned s
  /\ ucs_id (connection_of 1 s) = Some 7
  /\ keep_alive_timeout s = 5
  /\ last_message_time (connection_of 1 s) = 1
  /\ On_timer (fun _ => 2) s = (true, s).
Proof. vm_compute. repeat split; reflexivity. Qed.

Lemma On_timer_keep_alive_witness :
  let s := state_after 5 (handshake 1 (loopback_address 1)) in
  let clock := fun _ : Z => 2 in
  fst (On_timer clock s) = true
  /\ ucs_connections (snd (On_timer clock s)) = ucs_connections s.
Proof.
  intros s clock.
  destruct (On_timer_keep_alive clock s) as (Hr & Hc & _).
  - apply (bool_decide_unpack _). vm_compute. exact I.
  - split; [exact Hr|exact Hc].
Defined.

Lemma Unregister_unknown_device_throws_witness :
  On_unregister_vehicle 5 (enabled 0 false)
  = Thrown Invalid_param_exception (enabled 0 false)
  /\ process (Unregister_device 5) (enabled 0 false)
     = Thrown Invalid_param_exception (enabled 0 false).
Proof.
  apply (Unregister_unknown_device_throws 5 (enabled 0 false)).
  reflexivity.
Defined.

(** ** The further properties on runs *)

Lemma encode_header_shape_witness :
  (1 <= length (encode_header 300) <= 5)%nat
  /\ varint_value (encode_header 300) = 300.
Proof.
  destruct (encode_header_shape 300) as (Hl & Hv & _).
  - vm_compute. split; discriminate.
  - split; [exact Hl|exact Hv].
Defined.

Lemma oversized_frame_rejected_witness :
  rx_status (receive new_receiver (encode_header 1000001 ++ [7]))
  = Failed_too_long.
Proof.
  destruct (@oversized_frame_rejected Demo.platform 1000001 [7]) as [Hs _].
  - vm_compute. split; [discriminate|reflexivity].
  - vm_compute. discriminate.
  - exact Hs.
Defined.

Lemma zero_length_frames_skipped_witness :
  receive_all new_receiver [[0; 0]; [0; 1; 9]]
  = {| rx_framing := body_state 1; rx_inbox := []; rx_frames := [[9]];
       rx_status := Handed_over |}.
Proof.
  apply (@zero_length_frames_skipped Demo.platform 3 [9] [[0; 0]; [0; 1; 9]]).
  - vm_compute. split; [reflexivity|discriminate].
  - vm_compute. discriminate.
  - vm_compute. reflexivity.
Defined.

Lemma Broadcast_reaches_primary_only_witness :
  let s := state_after 0 (handshake 1 (loopback_address 1)) in
  let m := demo_message in
  trace (snd (Broadcast_message_to_ucs m s))
  = trace s ++ [Stream_write 1 m (encode_user_data (SerializeToArray m))].
Proof.
  intros s m.
  destruct (Broadcast_reaches_primary_only m s) as (_ & _ & Ht).
  - exists 0, false, (handshake 1 (loopback_address 1)).
    vm_compute. reflexivity.
  - reflexivity.
  - reflexivity.
  - exact Ht.
Defined.

Lemma peer_request_acknowledged_witness :
  let s := state_after 0 (handshake 1 (loopback_address 1)) in
  let resp := response_to (demo_request 0) STATUS_OK in
  On_ucs_message 1 (demo_request 0) s
  = emit (Stream_write 1 resp (encode_user_data (SerializeToArray resp))) s.
Proof.
  intros s resp.
  apply (peer_request_acknowledged 1 (connection_of 1 s) (demo_request 0) s).
  - vm_compute. reflexivity.
  - vm_compute. discriminate.
  - reflexivity.
  - reflexivity.
  - reflexivity.
Defined.

Lemma unknown_device_request_witness :
  let s := state_after 0 (handshake 1 (loopback_address 1)) in
  On_ucs_message 1 (demo_request 5) s = emit (Log (LOG_unknown_device 5)) s.
Proof.
  intros s.
  apply (unknown_device_request 1 (connection_of 1 s) (demo_request 5) s).
  - vm_compute. reflexivity.
  - vm_compute. discriminate.
  - vm_compute. discriminate.
  - reflexivity.
Defined.

Lemma device_status_cached_witness :
  let s := state_after 0 [Register_device device_5] in
  let s' := On_send_ucs_message 5 demo_report 0 s in
  exists v',
    Assoc.find 5 (vehicles s') = Some v'
    /\ plain_value <$> (value <$> Assoc.find 1 (telemetry_cache v')) = Some 11.
Proof.
  intros s s'.
  destruct (device_status_cached 5 demo_report 0 s (vehicle_of 5 s))
    as ((v' & Hf & _ & _ & Ht & _) & _).
  - vm_compute. reflexivity.
  - exists v'. split; [exact Hf|]. rewrite (Ht 1). reflexivity.
Defined.


Lemma reachable_connection_table_witness :
  NoDup (Assoc.keys (ucs_connections (state_after 0 three_loopback_connections))).
Proof.
  destruct (reachable_connection_table
              (state_after 0 three_loopback_connections)) as [Hnd _].
  - exists 0, false, three_loopback_connections. vm_compute. reflexivity.
  - exact Hnd.
Defined.

Lemma unregistered_connection_is_passive_witness :
  let s := state_after 0 header_before_handshake in
  primary (connection_of 1 s) = false
  /\ registered_devices (connection_of 1 s) = ∅.
Proof.
  intros s.
  destruct (unregistered_connection_is_passive s 1 (connection_of 1 s))
    as [Hp _].
  - exists 0, false, header_before_handshake. vm_compute. reflexivity.
  - vm_compute. reflexivity.
  - apply Hp. reflexivity.
Defined.

Lemma connected_peer_has_primary_witness :
  let s := state_after 0 second_remote_connection in
  exists k' c',
    Assoc.find k' (ucs_connections s) = Some c'
    /\ ucs_id c' = Some 7 /\ primary c' = true.
Proof.
  intros s.
  apply (connected_peer_has_primary s 1 (connection_of 1 s) 7).
  - exists 0, false, second_remote_connection. vm_compute. reflexivity.
  - vm_compute. reflexivity.
  - reflexivity.
Defined.

Lemma connection_identity_is_stable_witness :
  let s := state_after 0 (handshake 1 (remote_address 1)) in
  let s' := state_from s (handshake 2 (loopback_address 2)) in
  ucs_id (connection_of 1 s') = Some 7
  /\ address (connection_of 1 s') = remote_address 1.
Proof.
  intros s s'.
  destruct (connection_identity_is_stable s (handshake 2 (loopback_address 2))
              s' 1 (connection_of 1 s) (connection_of 1 s'))
    as (_ & Ha & Hu & _).
  - exists 0, false, (handshake 1 (remote_address 1)). vm_compute. reflexivity.
  - vm_compute. reflexivity.
  - vm_compute. reflexivity.
  - vm_compute. reflexivity.
  - split; [apply Hu; reflexivity|rewrite Ha; reflexivity].
Defined.

Lemma Close_ucs_stream_effects_witness :
  let s := state_after 0 (handshake 1 (loopback_address 1)) in
  Assoc.find 1 (ucs_connections (Close_ucs_stream 1 s)) = None.
Proof.
  intros s.
  destruct (Close_ucs_stream_effects 1 (connection_of 1 s) s) as [Hn _].
  - apply (bool_decide_unpack _). vm_compute. exact I.
  - vm_compute. reflexivity.
  - exact Hn.
Defined.

Lemma closed_stream_is_inert_witness :
  let s := state_after 0 (handshake 1 (loopback_address 1)) in
  let s' := Close_ucs_stream 1 s in
  Write_completed Io_OTHER_FAILURE 1 s' = s'.
Proof.
  intros s s'.
  destruct (closed_stream_is_inert 1 s) as (_ & Hw & _).
  - apply (bool_decide_unpack _). vm_compute. exact I.
  - apply Hw.
Defined.


Lemma registrations_replayed_witness :
  let s := state_after 0 registration_pending in
  ucs_id_counter (Send_vehicle_registrations 1 s) = ucs_id_counter s + 1.
Proof.
  intros s.
  assert (Hnd : NoDup (Assoc.keys (vehicles s)))
    by (apply (bool_decide_unpack _); vm_compute; exact I).
  assert (Hall : Forall (fun dv =>
                           has (register_device (registration_message dv.2))
                           = true) (vehicles s))
    by (apply (bool_decide_unpack _); vm_compute; exact I).
  assert (Hf : Assoc.find 1 (ucs_connections s) = Some (connection_of 1 s))
    by (vm_compute; reflexivity).
  assert (Hu : ucs_id (connection_of 1 s) <> None)
    by (vm_compute; discriminate).
  assert (Hc : is_compatible (connection_of 1 s) = true)
    by (vm_compute; reflexivity).
  assert (Hlen : Z.of_nat (length (vehicles s)) = 1)
    by (vm_compute; reflexivity).
  revert Hnd Hall Hf Hu Hc Hlen. generalize s. clear s.
  intros s Hnd Hall Hf Hu Hc Hlen.
  destruct (registrations_replayed 1 (connection_of 1 s) s Hnd Hall Hf Hu Hc)
    as (_ & Hn & _).
  rewrite Hn, Hlen. reflexivity.
Defined.

Lemma peer_version_gate_witness :
  let s := state_after 0 header_before_handshake in
  let s' :=
    snd (Message_parsed 1 (connection_of 1 s) (demo_register_peer 7 2) 4 s) in
  exists c',
    Assoc.find 1 (ucs_connections s') = Some c'
    /\ last_message_time c' = 4 /\ is_compatible c' = false.
Proof.
  intros s s'.
  destruct (peer_version_gate 1 (connection_of 1 s) demo_old_peer
              (demo_register_peer 7 2) 4 s)
    as (_ & c' & Hf & _ & Ht & Hc & _).
  - vm_compute. reflexivity.
  - reflexivity.
  - reflexivity.
  - reflexivity.
  - reflexivity.
  - exists c'. split; [exact Hf|]. split; [exact Ht|]. rewrite Hc. reflexivity.
Defined.

Lemma invalid_peer_type_rejected_witness :
  let s := state_after 0 header_before_handshake in
  let s' :=
    snd (Message_parsed 1 (connection_of 1 s) demo_register_vsm 4 s) in
  Assoc.find 1 (ucs_connections s') = None.
Proof.
  intros s s'.
  destruct (invalid_peer_type_rejected 1 (connection_of 1 s) demo_vsm_peer
              demo_register_vsm 4 s) as (_ & Hn & _).
  - apply (bool_decide_unpack _). vm_compute. exact I.
  - vm_compute. reflexivity.
  - reflexivity.
  - reflexivity.
  - reflexivity.
  - exact Hn.
Defined.

Lemma reachable_device_table_witness :
  NoDup (Assoc.keys (vehicles (state_after 0 registration_pending))).
Proof.
  destruct (reachable_device_table (state_after 0 registration_pending))
    as [Hnd _].
  - exists 0, false, registration_pending. vm_compute. reflexivity.
  - exact Hnd.
Defined.
